(** * GRID: spherical-harmonic interpolation and the linear ODE solver

    A shallow embedding of [src/grid/interpolate.py] and [src/grid/ode.py].

    - Python exceptions are an error type and fallible code returns [result].
    - numpy arrays are lists (nested for two axes), three-axis arrays carry
      their shape, since numpy keeps the shape of an array with no element.
    - Elements are kept abstract behind the classes [Real64] and [Complex128]
      (numpy's float64 and complex128).  There are two instances: binary64
      floats of the kernel, where NaN and the infinities exist, and the exact
      reals, where the arithmetic identities of the harmonics hold.
    - scipy's routines ([sph_harm], [CubicSpline], [solve_bvp], [einsum]) are
      parameters of the code that calls them.
    - the global random generator and the arrays mutated in place are passed
      as explicit states. *)

From Stdlib Require Import Floats.PrimFloat.
From Stdlib Require Import ZArith List Lia Reals Lra DecimalString.
From stdpp Require Import base list gmap strings.

(* ================================================================== *)
(** * Part I: the embedding *)
(* ================================================================== *)

(** ** Python values: exceptions, indices, slices *)

Module Py.

(** The exceptions the two modules raise or let through.  An exception raised
    inside a numpy or scipy routine is kept apart from the ones raised by the
    [raise] statements of the source. *)
Inductive exn : Type :=
| ValueError (msg : string)
| NotImplementedError (msg : string)
| NameError (name : string)
| AttributeError (cls attr : string)
| TypeError (msg : string)
| IndexError (msg : string)
| NumpyError (routine : string).

Inductive result (A : Type) : Type :=
| Ok (a : A)
| Raise (e : exn).
Arguments Ok {A} a.
Arguments Raise {A} e.

#[export] Instance result_ret : MRet result := @Ok.
#[export] Instance result_bind : MBind result :=
  λ A B f m, match m with Ok a => f a | Raise e => Raise e end.
#[export] Instance result_fmap : FMap result :=
  λ A B f m, match m with Ok a => Ok (f a) | Raise e => Raise e end.

(** [str(i)] of a Python int, as an f-string prints it. *)
Definition str (i : Z) : string := NilZero.string_of_int (Z.to_int i).

(** [seq[i]]: a negative index counts from the end, anything outside
    [-len, len) is an IndexError. *)
Definition index (len : nat) (i : Z) : option nat :=
  if (0 <=? i)%Z && (i <? Z.of_nat len)%Z then Some (Z.to_nat i)
  else if (- Z.of_nat len <=? i)%Z && (i <? 0)%Z then Some (Z.to_nat (Z.of_nat len + i))
  else None.

Definition getitem {A} (l : list A) (i : Z) : result A :=
  match index (length l) i with
  | Some k => match l !! k with
              | Some a => Ok a
              | None => Raise (IndexError "index out of bounds")
              end
  | None => Raise (IndexError "index out of bounds")
  end.

(** A bound of a slice [lo:hi] never fails: a negative bound counts from the
    end and every bound is clipped to [0, len]. *)
Definition clip (len : nat) (i : Z) : nat :=
  if (i <? 0)%Z then Z.to_nat (Z.max 0 (Z.of_nat len + i))
  else Z.to_nat (Z.min i (Z.of_nat len)).

Definition slice_lo (len : nat) (start : option Z) : nat :=
  match start with Some s => clip len s | None => 0 end.

Definition slice_hi (len : nat) (stop : option Z) : nat :=
  match stop with Some s => clip len s | None => len end.

(** [l[start:stop]] *)
Definition slice {A} (start stop : option Z) (l : list A) : list A :=
  let lo := slice_lo (length l) start in
  let hi := slice_hi (length l) stop in
  take (hi - lo) (drop lo l).

(** [range(n)] *)
Definition range (n : Z) : list nat := seq 0 (Z.to_nat n).

End Py.
Export Py.

(** ** numpy: element types and array primitives *)

Module Numpy.

(** float64, with the operations the two modules use. *)
Class Real64 (F : Type) : Type := {
  f_zero : F;
  f_add : F → F → F;
  f_sub : F → F → F;
  f_mul : F → F → F;
  f_div : F → F → F;
  f_sqrt : F → F;
  f_of_Z : Z → F;
  (** [np.nan_to_num] on one element *)
  f_nan_to_num : F → F
}.

(** complex128 over the float64 [F]. *)
Class Complex128 (F C : Type) : Type := {
  c_add : C → C → C;
  c_sub : C → C → C;
  c_mul : C → C → C;
  c_div : C → C → C;
  c_conj : C → C;
  (** promotion of a float operand to complex *)
  c_of_real : F → C;
  (** the literal [1j] *)
  c_j : C;
  (** the cast back to float64 when a complex value is stored in a float
      array: the imaginary part is discarded *)
  c_real : C → F
}.

(** *** binary64 *)

Definition dbl_max : float := 0x1.fffffffffffffp+1023%float.

(** [np.nan_to_num] with its default arguments: NaN becomes 0.0, +inf the
    largest finite double and -inf the most negative one. *)
Definition float_nan_to_num (x : float) : float :=
  if PrimFloat.is_nan x then 0%float
  else if PrimFloat.is_infinity x then
         (if PrimFloat.ltb x 0%float then PrimFloat.opp dbl_max else dbl_max)
  else x.

Fixpoint float_of_pos (p : positive) : float :=
  match p with
  | xH => 1%float
  | xO q => PrimFloat.mul 2%float (float_of_pos q)
  | xI q => PrimFloat.add (PrimFloat.mul 2%float (float_of_pos q)) 1%float
  end.

Definition float_of_Z (z : Z) : float :=
  match z with
  | Z0 => 0%float
  | Zpos p => float_of_pos p
  | Zneg p => PrimFloat.opp (float_of_pos p)
  end.

#[export] Instance float_Real64 : Real64 float := {|
  f_zero := 0%float;
  f_add := PrimFloat.add;
  f_sub := PrimFloat.sub;
  f_mul := PrimFloat.mul;
  f_div := PrimFloat.div;
  f_sqrt := PrimFloat.sqrt;
  f_of_Z := float_of_Z;
  f_nan_to_num := float_nan_to_num
|}.

(** complex128 on binary64, as numpy's loops compute it: sums and
    differences by components, the product by the textbook formula, the
    quotient by Smith's method (the branch is chosen by the larger component
    of the divisor). *)
Definition cfloat : Type := (float * float)%type.

Definition cfloat_div (z w : cfloat) : cfloat :=
  let '(in1r, in1i) := z in
  let '(in2r, in2i) := w in
  let in2r_abs := PrimFloat.abs in2r in
  let in2i_abs := PrimFloat.abs in2i in
  if PrimFloat.leb in2i_abs in2r_abs then
    if PrimFloat.eqb in2r_abs 0%float && PrimFloat.eqb in2i_abs 0%float then
      (PrimFloat.div in1r in2r_abs, PrimFloat.div in1i in2r_abs)
    else
      let rat := PrimFloat.div in2i in2r in
      let scl := PrimFloat.div 1%float (PrimFloat.add in2r (PrimFloat.mul in2i rat)) in
      (PrimFloat.mul (PrimFloat.add in1r (PrimFloat.mul in1i rat)) scl,
       PrimFloat.mul (PrimFloat.sub in1i (PrimFloat.mul in1r rat)) scl)
  else
    let rat := PrimFloat.div in2r in2i in
    let scl := PrimFloat.div 1%float (PrimFloat.add in2i (PrimFloat.mul in2r rat)) in
    (PrimFloat.mul (PrimFloat.add (PrimFloat.mul in1r rat) in1i) scl,
     PrimFloat.mul (PrimFloat.sub (PrimFloat.mul in1i rat) in1r) scl).

#[export] Instance cfloat_Complex128 : Complex128 float cfloat := {|
  c_add := λ z w, (PrimFloat.add z.1 w.1, PrimFloat.add z.2 w.2);
  c_sub := λ z w, (PrimFloat.sub z.1 w.1, PrimFloat.sub z.2 w.2);
  c_mul := λ z w, (PrimFloat.sub (PrimFloat.mul z.1 w.1) (PrimFloat.mul z.2 w.2),
                   PrimFloat.add (PrimFloat.mul z.1 w.2) (PrimFloat.mul z.2 w.1));
  c_div := cfloat_div;
  c_conj := λ z, (z.1, PrimFloat.opp z.2);
  c_of_real := λ x, (x, 0%float);
  c_j := (0%float, 1%float);
  c_real := λ z, z.1
|}.

(** *** exact arithmetic: every real is finite, so [nan_to_num] changes
    nothing *)

#[export] Instance R_Real64 : Real64 R := {|
  f_zero := 0%R;
  f_add := Rplus;
  f_sub := Rminus;
  f_mul := Rmult;
  f_div := Rdiv;
  f_sqrt := sqrt;
  f_of_Z := IZR;
  f_nan_to_num := λ x, x
|}.

Definition Cx : Type := (R * R)%type.

Definition Cx_div (z w : Cx) : Cx :=
  let d := (w.1 * w.1 + w.2 * w.2)%R in
  (((z.1 * w.1 + z.2 * w.2) / d)%R, ((z.2 * w.1 - z.1 * w.2) / d)%R).

#[export] Instance Cx_Complex128 : Complex128 R Cx := {|
  c_add := λ z w, ((z.1 + w.1)%R, (z.2 + w.2)%R);
  c_sub := λ z w, ((z.1 - w.1)%R, (z.2 - w.2)%R);
  c_mul := λ z w, ((z.1 * w.1 - z.2 * w.2)%R, (z.1 * w.2 + z.2 * w.1)%R);
  c_div := Cx_div;
  c_conj := λ z, (z.1, (- z.2)%R);
  c_of_real := λ x, (x, 0%R);
  c_j := (0%R, 1%R);
  c_real := λ z, z.1
|}.

(** *** arrays *)

(** A three-axis array: its shape and its rows, each a matrix. *)
Record tensor3 (A : Type) : Type := Tensor3 {
  t_shape : nat * nat * nat;
  t_data : list (list (list A))
}.
Arguments Tensor3 {A} t_shape t_data.
Arguments t_shape {A} t.
Arguments t_data {A} t.

(** The rows agree with the shape. *)
Definition matrix_wf {A} (d1 d2 : nat) (m : list (list A)) : Prop :=
  length m = d1 ∧ Forall (λ row, length row = d2) m.

Definition tensor3_wf {A} (t : tensor3 A) : Prop :=
  let '(d0, d1, d2) := t_shape t in
  length (t_data t) = d0 ∧ Forall (matrix_wf d1 d2) (t_data t).

(** [t[i, j, k]] for indices in range. *)
Definition entry {A} (t : tensor3 A) (i j k : nat) : option A :=
  match t_data t !! i with
  | Some m => match m !! j with
              | Some row => row !! k
              | None => None
              end
  | None => None
  end.

Definition matrix_map {A B} (f : A → B) (m : list (list A)) : list (list B) :=
  (λ row : list A, f <$> row) <$> m.

Definition tensor3_map {A B} (f : A → B) (t : tensor3 A) : tensor3 B :=
  Tensor3 (t_shape t) (matrix_map f <$> t_data t).

(** [np.arange(start, stop)] on ints *)
Definition arange (start stop : Z) : list Z :=
  (λ i : nat, (start + Z.of_nat i)%Z) <$> seq 0 (Z.to_nat (stop - start)).

(** [np.zeros((d0, d1, d2))] *)
Definition zeros3 `{Real64 F} (d0 d1 d2 : nat) : list (list (list F)) :=
  replicate d0 (replicate d1 (replicate d2 f_zero)).

(** [a[start:stop] = v] on the first axis; [v] was computed from the same
    slice of an array with as many rows, so it fills the slice exactly. *)
Definition setslice {A} (start stop : option Z) (v : list A) (l : list A) : list A :=
  let lo := slice_lo (length l) start in
  let hi := slice_hi (length l) stop in
  take lo l ++ v ++ drop (lo `max` hi) l.

(** Broadcasting of two axes: equal lengths, or one of them 1. *)
Definition broadcast_len (n k : nat) : option nat :=
  if n =? k then Some n
  else if k =? 1 then Some n
  else if n =? 1 then Some k
  else None.

(** An elementwise binary operation along one axis, once the lengths are
    known to broadcast. *)
Definition broadcast_with {A B D} (f : A → B → D) (xs : list A) (ys : list B) : list D :=
  if length xs =? length ys then zip_with f xs ys
  else match ys with
       | [y] => (λ x, f x y) <$> xs
       | _ => match xs with
              | [x] => f x <$> ys
              | _ => []
              end
       end.

(** [xs op ys] for one-axis arrays; numpy refuses lengths that do not
    broadcast. *)
Definition elementwise {A B D} (f : A → B → D) (xs : list A) (ys : list B) : result (list D) :=
  match broadcast_len (length xs) (length ys) with
  | Some _ => Ok (broadcast_with f xs ys)
  | None => Raise (NumpyError "broadcast")
  end.

(** [t op v] for a (d0, d1, d2) array and a (n,) array: [v] runs along the
    last axis. *)
Definition broadcast_last {A B D} (f : A → B → D) (t : tensor3 A) (v : list B)
  : result (tensor3 D) :=
  let '(d0, d1, d2) := t_shape t in
  match broadcast_len d2 (length v) with
  | Some n =>
      Ok (Tensor3 (d0, d1, n)
            ((λ m : list (list A), (λ row : list A, broadcast_with f row v) <$> m)
               <$> t_data t))
  | None => Raise (NumpyError "broadcast")
  end.

(** [t op v[:, None, None]]: [v] runs along the first axis. *)
Definition broadcast_first {A B D} (f : A → B → D) (t : tensor3 A) (v : list B)
  : result (tensor3 D) :=
  let '(d0, d1, d2) := t_shape t in
  match broadcast_len d0 (length v) with
  | Some n =>
      Ok (Tensor3 (n, d1, d2)
            (broadcast_with (λ m b, matrix_map (λ a, f a b) m) (t_data t) v))
  | None => Raise (NumpyError "broadcast")
  end.

(** *** np.sum *)

(** [np.sum] along the last axis of a float64 array adds the terms of each
    run in the order of numpy's pairwise routine:
    - fewer than 8 terms are added in turn, from 0.0;
    - 8 to 128 terms go through eight running sums, [r[j]] collecting the
      terms at the positions j, j + 8, j + 16, ... below the largest multiple
      of 8; they are combined as
      ((r0 + r1) + (r2 + r3)) + ((r4 + r5) + (r6 + r7)), and the terms that
      are left are then added in turn;
    - a longer run is split at half its length, rounded down to a multiple
      of 8, and the sums of the two parts are added.
    The reduction itself starts from the identity 0.0, to which the value of
    the routine is added. *)
Section PairwiseSum.
Context {F : Type} `{Real64 F}.

(** [r[j] += a[i + j]] for [j] in 0 .. 7, over the next [groups] groups of
    eight terms; what is left of the run is returned with the sums. *)
Fixpoint accumulate8 (groups : nat) (r a : list F) : list F * list F :=
  match groups with
  | 0 => (r, a)
  | S g => accumulate8 g (zip_with f_add r (take 8 a)) (drop 8 a)
  end.

(** A run of 8 to 128 terms; the loop over the groups starts at [i = 8] and
    stops before [n - n % 8]. *)
Definition pairwise_block (a : list F) : F :=
  let '(r, rest) := accumulate8 (length a / 8 - 1) (take 8 a) (drop 8 a) in
  match r with
  | [r0; r1; r2; r3; r4; r5; r6; r7] =>
      foldl f_add
        (f_add (f_add (f_add r0 r1) (f_add r2 r3)) (f_add (f_add r4 r5) (f_add r6 r7)))
        rest
  | _ => f_zero
  end.

(** The routine; [fuel] bounds the depth of the halving, and the length of
    the run is more than enough ([pairwise_sum_fuel] below). *)
Fixpoint pairwise_sum (fuel : nat) (a : list F) : F :=
  let n := length a in
  if n <? 8 then foldl f_add f_zero a
  else if n <=? 128 then pairwise_block a
  else
    match fuel with
    | 0 => f_zero
    | S fuel' =>
        let n2 := n / 2 - (n / 2) mod 8 in
        f_add (pairwise_sum fuel' (take n2 a)) (pairwise_sum fuel' (drop n2 a))
    end.

Definition sum (xs : list F) : F := f_add f_zero (pairwise_sum (length xs) xs).

End PairwiseSum.

(** [np.stack] of matrices of one shape (d1, d2); an empty list is refused. *)
Definition stack {A} (d1 d2 : nat) (ms : list (list (list A))) : result (tensor3 A) :=
  match ms with
  | [] => Raise (NumpyError "stack")
  | _ => Ok (Tensor3 (length ms, d1, d2) ms)
  end.

(** *** powers *)

(** [x ** 2] on a float64 array: for the exponent 2 numpy takes its fast
    path and calls [np.square]. *)
Definition f_square `{Real64 F} (x : F) : F := f_mul x x.

(** [x ** n] for another integer exponent is [np.power], which calls the C
    library's [pow(x, n)].  On binary64 its last bit is the library's and is
    not modelled; over the exact reals it is the power itself. *)
Class Power (F : Type) : Type := f_power : F → Z → F.

#[export] Instance R_Power : Power R := powerRZ.

End Numpy.
Export Numpy.

(** ** grid.basegrid.OneDGrid, as far as [interpolate.py] reads it *)

Module OneDGrid.
Record t (F : Type) : Type := Build { points : list F; weights : list F }.
Arguments Build {F} points weights.
Arguments points {F} t.
Arguments weights {F} t.
End OneDGrid.

(** ** grid.atomgrid.AtomGrid, as far as [interpolate.py] reads it *)

Module AtomGrid.
Record t (F : Type) : Type := Build {
  points : list (F * F * F);
  center : F * F * F;
  weights : list F;
  indices : list Z;
  rgrid : OneDGrid.t F;
  l_max : Z
}.
Arguments Build {F} points center weights indices rgrid l_max.
Arguments points {F} t.
Arguments center {F} t.
Arguments weights {F} t.
Arguments indices {F} t.
Arguments rgrid {F} t.
Arguments l_max {F} t.
End AtomGrid.

(** ** interpolate.py *)

Module Interpolate.

Section Harmonics.
Context {F C : Type} `{Real64 F} `{Complex128 F C}.

(** [scipy.special.sph_harm(m, l, theta, phi)] at one point: order [m], degree
    [l], azimuthal angle [theta], polar angle [phi]. *)
Variable sph_harm : Z → Z → F → F → C.

Definition _generate_sph_paras (l_max : Z) : list Z * list Z :=
  let l_list := arange 0 (l_max + 1) in
  let m_list_p := arange 0 (l_max + 1) in
  let m_list_n := arange (- l_max) 0 in
  let m_list := m_list_p ++ m_list_n in
  (l_list, m_list).

(** [sph_harm(m[:, None, None], l[None, :, None], theta, phi)]: the two angle
    arrays broadcast against each other along the last axis. *)
Definition generate_sph_harms (l_max : Z) (theta phi : list F) : result (tensor3 C) :=
  let '(l, m) := _generate_sph_paras l_max in
  ang ← elementwise pair theta phi;
  Ok (Tensor3 (length m, length l, length ang)
        ((λ mi : Z, (λ li : Z, (λ tp : F * F, sph_harm mi li tp.1 tp.2) <$> ang) <$> l)
           <$> m)).

(** One element of [(y + conj(y)) / np.sqrt(2)], stored in a float array. *)
Definition zlm_plus (y : C) : F :=
  c_real (c_div (c_add y (c_conj y)) (c_of_real (f_sqrt (f_of_Z 2)))).

(** One element of [(y - conj(y)) / (np.sqrt(2) * 1j)], stored in a float
    array. *)
Definition zlm_minus (y : C) : F :=
  c_real (c_div (c_sub y (c_conj y)) (c_mul (c_of_real (f_sqrt (f_of_Z 2))) c_j)).

Definition _convert_ylm_to_zlm (sp_harm_arrs : tensor3 C) : result (tensor3 F) :=
  let '(ms, ls, arrs) := t_shape sp_harm_arrs in
  let s_h_r := zeros3 ms ls arrs in
  (* s_h_r[1:ls] = ... *)
  let s_h_r :=
    setslice (Some 1%Z) (Some (Z.of_nat ls))
      (matrix_map zlm_plus <$> slice (Some 1%Z) (Some (Z.of_nat ls)) (t_data sp_harm_arrs))
      s_h_r in
  (* s_h_r[-ls + 1 :] = ... *)
  let s_h_r :=
    setslice (Some (- Z.of_nat ls + 1)%Z) None
      (matrix_map zlm_minus <$> slice (Some (- Z.of_nat ls + 1)%Z) None (t_data sp_harm_arrs))
      s_h_r in
  (* s_h_r[0] = sp_harm_arrs[0] *)
  row0 ← getitem (t_data sp_harm_arrs) 0;
  Ok (Tensor3 (ms, ls, arrs) (<[0 := matrix_map c_real row0]> s_h_r)).

Definition generate_real_sph_harms (l_max : Z) (theta phi : list F) : result (tensor3 F) :=
  sph_h ← generate_sph_harms l_max theta phi;
  zlm ← _convert_ylm_to_zlm sph_h;
  Ok (tensor3_map f_nan_to_num zlm).

End Harmonics.

Section Projection.
Context {F : Type} `{Real64 F}.

Definition project_function_onto_spherical_expansion
  (sph_harm : tensor3 F) (value_arrays weights : list F) (indices : list Z)
  : result (tensor3 F) :=
  (* prod_value = sph_harm * value_arrays * weights *)
  prod ← broadcast_last f_mul sph_harm value_arrays;
  prod_value ← broadcast_last f_mul prod weights;
  let axis_value :=
    (λ i : nat,
       let lo := default 0%Z (indices !! i) in
       let hi := default 0%Z (indices !! (i + 1)) in
       (* np.sum(prod_value[:, :, lo:hi], axis=-1) *)
       (λ m : list (list F), (λ row : list F, sum (slice (Some lo) (Some hi) row)) <$> m)
         <$> t_data prod_value)
      <$> range (Z.of_nat (length indices) - 1) in
  stacked ← stack (t_shape prod_value).1.1 (t_shape prod_value).1.2 axis_value;
  Ok (tensor3_map f_nan_to_num stacked).

(** The object [scipy.interpolate.CubicSpline(x=..., y=...)] builds, and what
    the constructor does with its arguments, are scipy's. *)
Variable spline_t : Type.
Variable CubicSpline : list F → tensor3 F → result spline_t.

Definition spline_with_sph_harms
  (sph_harm : tensor3 F) (value_arrays weights : list F) (indices : list Z)
  (radial : OneDGrid.t F) : result spline_t :=
  ml_sph_value ←
    project_function_onto_spherical_expansion sph_harm value_arrays weights indices;
  (* radial.points**2 * radial.weights *)
  jacobian ← elementwise f_mul (f_square <$> OneDGrid.points radial)
                               (OneDGrid.weights radial);
  ml_sph_value_with_r ← broadcast_first f_div ml_sph_value jacobian;
  CubicSpline (OneDGrid.points radial) ml_sph_value_with_r.

End Projection.

Section Evaluation.
Context {F C : Type} `{Real64 F} `{Complex128 F C}.
Variable sph_harm : Z → Z → F → F → C.

(** [r_points] is a scalar or an array ([np.isscalar]). *)
Inductive radii : Type :=
| Scalar (r : F)
| Points (rs : list F).

(** What a call of the spline returns: a (M, L) matrix for a scalar radius,
    a (n, M, L) array for n radii. *)
Inductive spline_value : Type :=
| Coeffs2 (shape : nat * nat) (m : list (list F))
| Coeffs3 (t : tensor3 F).

(** [r_value.shape[-1]] *)
Definition last_axis (v : spline_value) : nat :=
  match v with
  | Coeffs2 shape _ => shape.2
  | Coeffs3 t => (t_shape t).2
  end.

(** scipy's side: [CubicSpline.__call__(x, nu)], and the two contractions
    [np.einsum("mlk,ml->k", ...)] and [np.einsum("mlk,nml->nk", ...)], which
    refuse operands whose shapes do not fit. *)
Variable spline_t : Type.
Variable spline_call : spline_t → radii → Z → spline_value.
Variable einsum_mlk_ml : tensor3 F → spline_value → option (list F).
Variable einsum_mlk_nml : tensor3 F → spline_value → option (list (list F)).

Inductive interpolated : Type :=
| Values (v : list F)
| ValueRows (v : list (list F)).

Definition theta_phi_message (theta phi : list F) : string :=
  "Shape of theta " +:+ str (Z.of_nat (length theta)) +:+
  " should equal shape of phi " +:+ str (Z.of_nat (length phi)) +:+ ".".

Definition deriv_message (deriv : Z) : string :=
  "deriv should be between [0, 3], got " +:+ str deriv +:+ ".".

Definition interpolate_given_splines
  (spline : spline_t) (r_points : radii) (theta phi : list F) (deriv : Z)
  : result interpolated :=
  if negb (length theta =? length phi) then
    Raise (ValueError (theta_phi_message theta phi))
  else
    r_value ←
      (if (deriv =? 0)%Z then Ok (spline_call spline r_points 0)
       else if (1 <=? deriv)%Z && (deriv <=? 3)%Z then Ok (spline_call spline r_points deriv)
       else Raise (ValueError (deriv_message deriv)));
    let l_max := (Z.of_nat (last_axis r_value) - 1)%Z in
    r_sph_harm ← generate_real_sph_harms sph_harm l_max theta phi;
    match r_points with
    | Scalar _ =>
        match einsum_mlk_ml r_sph_harm r_value with
        | Some v => Ok (Values v)
        | None => Raise (NumpyError "einsum")
        end
    | Points _ =>
        match einsum_mlk_nml r_sph_harm r_value with
        | Some v => Ok (ValueRows v)
        | None => Raise (NumpyError "einsum")
        end
    end.

End Evaluation.

Arguments radii F : clear implicits.
Arguments spline_value F : clear implicits.
Arguments interpolated F : clear implicits.

Section AtomicGrid.
Context {F C : Type} `{Real64 F} `{Complex128 F C}.
Variable sph_harm : Z → Z → F → F → C.
Variable spline_t : Type.
Variable CubicSpline : list F → tensor3 F → result spline_t.

(** [grid.utils.convert_cart_to_sph(points, center)]: one row
    (r, theta, phi) per point. *)
Variable convert_cart_to_sph : list (F * F * F) → F * F * F → result (list (F * F * F)).

Definition spline_with_atomic_grid (atgrid : AtomGrid.t F) (func_vals : list F)
  : result spline_t :=
  (* l_max = atgrid.l_max // 2 *)
  let l_max := (AtomGrid.l_max atgrid / 2)%Z in
  sph_coor ← convert_cart_to_sph (AtomGrid.points atgrid) (AtomGrid.center atgrid);
  (* generate_real_sph_harms(l_max, sph_coor[:, 1], sph_coor[:, 2]) *)
  r_sph ← generate_real_sph_harms sph_harm l_max
             ((λ c : F * F * F, c.1.2) <$> sph_coor) ((λ c : F * F * F, c.2) <$> sph_coor);
  spline_with_sph_harms spline_t CubicSpline r_sph func_vals
    (AtomGrid.weights atgrid) (AtomGrid.indices atgrid) (AtomGrid.rgrid atgrid).

End AtomicGrid.

End Interpolate.

(** ** ode.py *)

Module ODE.

(** The names bound in the body of [class ODE]. *)
Definition ODE_attributes : list string :=
  [ "solve_ode"; "_transform_ode_from_derivs"; "_transform_ode_from_rtransform";
    "_transform_and_rearrange_to_explicit_ode"; "_construct_coeff_array";
    "_rearrange_to_explicit_ode" ].

(** The names bound at module level: the imports and the class. *)
Definition module_globals : list string :=
  [ "Number"; "Union"; "BaseTransform"; "np"; "solve_bvp"; "bell"; "ODE" ].

(** [ODE.name]: the attribute lookup that comes before a call. *)
Definition ODE_getattr (name : string) : result unit :=
  if bool_decide (name ∈ ODE_attributes) then Ok tt
  else Raise (AttributeError "ODE" name).

Section ODE.
Context {F : Type} `{Real64 F} {power : Power F}.

(** A coefficient [a_k]: a number, or a callable of the mesh
    ([isinstance(val, Number)] tells them apart). *)
Inductive coefficient : Type :=
| Number (c : F)
| Callable (f : list F → list F).

(** grid.rtransform.BaseTransform, as far as [ode.py] calls it. *)
Record BaseTransform : Type := {
  inverse : list F → list F;
  deriv : list F → list F;
  deriv2 : list F → list F;
  deriv3 : list F → list F
}.

(** *** in-place arithmetic on a row *)

(** [row op= v]: [v] has to broadcast to the shape of [row]. *)
Definition inplace (op : F → F → F) (row v : list F) : result (list F) :=
  if (length v =? length row) || (length v =? 1) then Ok (broadcast_with op row v)
  else Raise (NumpyError "broadcast").

(** [m[i] += v] *)
Definition iadd_row (i : Z) (v : list F) (m : list (list F)) : result (list (list F)) :=
  row ← getitem m i;
  row' ← inplace f_add row v;
  Ok (<[Z.to_nat i := row']> m).

Definition _construct_coeff_array (x : list F) (coeff : list coefficient) : result (list (list F)) :=
  mapM (λ val : coefficient,
          let row := replicate (length x) f_zero in
          match val with
          | Number c => Ok ((λ z, f_add z c) <$> row)
          | Callable f => inplace f_add row (f x)
          end) coeff.

(** *** _transform_ode_from_derivs *)

(** What a name of the function's frame can be bound to. *)
Inductive pyval : Type :=
| VCoeffs (cs : list coefficient)
| VFuncs (fs : list (list F → list F))
| VArray (a : list F)
| VGlobal (name : string).

(** Reading a name: the local frame, then the module (neither name read below
    is a builtin). *)
Definition load_name (locals : gmap string pyval) (name : string) : result pyval :=
  match locals !! name with
  | Some v => Ok v
  | None => if bool_decide (name ∈ module_globals) then Ok (VGlobal name)
            else Raise (NameError name)
  end.

Definition as_funcs (v : pyval) : result (list (list F → list F)) :=
  match v with VFuncs fs => Ok fs | _ => Raise (TypeError "not iterable") end.
Definition as_coeffs (v : pyval) : result (list coefficient) :=
  match v with VCoeffs cs => Ok cs | _ => Raise (TypeError "has no len()") end.
Definition as_array (v : pyval) : result (list F) :=
  match v with VArray a => Ok a | _ => Raise (TypeError "not an array") end.

(** The statements after the names are read: from [coeff_a_mtr = ...] to
    [return coeff_b], with [derivs] the rows g', g'', g''' on the mesh. *)
Definition transformed_coeffs (coeff_a : list coefficient) (derivs : list (list F)) (r : list F)
  : result (list (list F)) :=
  let total := length coeff_a in
  coeff_a_mtr ← _construct_coeff_array r coeff_a;
  let coeff_b := replicate total (replicate (length r) f_zero) in
  (* coeff_b[0] += coeff_a_mtr[0] *)
  a0 ← getitem coeff_a_mtr 0;
  coeff_b ← iadd_row 0 a0 coeff_b;
  coeff_b ←
    (if 1 <? total then
       a1 ← getitem coeff_a_mtr 1;
       d0 ← getitem derivs 0;
       t ← elementwise f_mul a1 d0;
       iadd_row 1 t coeff_b
     else Ok coeff_b);
  coeff_b ←
    (if 2 <? total then
       a2 ← getitem coeff_a_mtr 2;
       d1 ← getitem derivs 1;
       t ← elementwise f_mul a2 d1;
       coeff_b ← iadd_row 1 t coeff_b;
       a2 ← getitem coeff_a_mtr 2;
       d0 ← getitem derivs 0;
       t ← elementwise f_mul a2 (f_square <$> d0);
       iadd_row 2 t coeff_b
     else Ok coeff_b);
  (if 3 <? total then
     a3 ← getitem coeff_a_mtr 3;
     d2 ← getitem derivs 2;
     t ← elementwise f_mul a3 d2;
     coeff_b ← iadd_row 1 t coeff_b;
     a3 ← getitem coeff_a_mtr 3;
     d0 ← getitem derivs 0;
     t ← elementwise f_mul ((λ a, f_mul a (f_of_Z 3)) <$> a3) d0;
     d1 ← getitem derivs 1;
     t ← elementwise f_mul t d1;
     coeff_b ← iadd_row 2 t coeff_b;
     a3 ← getitem coeff_a_mtr 3;
     d0 ← getitem derivs 0;
     t ← elementwise f_mul a3 ((λ g, f_power g 3) <$> d0);
     iadd_row 3 t coeff_b
   else Ok coeff_b).

(** The parameters are [coeffs], [deriv_transformation] and [r]; the body
    reads [deriv_func_list] and [coeff_a]. *)
Definition _transform_ode_from_derivs
  (coeffs : list coefficient) (deriv_transformation : list (list F → list F)) (r : list F)
  : result (list (list F)) :=
  let locals : gmap string pyval :=
    <["coeffs" := VCoeffs coeffs]>
      (<["deriv_transformation" := VFuncs deriv_transformation]>
         (<["r" := VArray r]> ∅)) in
  (* derivs = np.array([dev(r) for dev in deriv_func_list]) *)
  deriv_func_list ← load_name locals "deriv_func_list" ≫= as_funcs;
  r' ← load_name locals "r" ≫= as_array;
  let derivs := (λ dev : list F → list F, dev r') <$> deriv_func_list in
  (* total = len(coeff_a) *)
  coeff_a ← load_name locals "coeff_a" ≫= as_coeffs;
  transformed_coeffs coeff_a derivs r'.

Definition _transform_ode_from_rtransform
  (coeff_a : list coefficient) (tf : BaseTransform) (x : list F) : result (list (list F)) :=
  let deriv_func := [deriv tf; deriv2 tf; deriv3 tf] in
  let r := inverse tf x in
  _transform_ode_from_derivs coeff_a deriv_func r.

(** *** _rearrange_to_explicit_ode *)

(** numpy arrays are objects: a name holds a reference, and [result = fx]
    makes [result] one more name of the array [fx] refers to.  The store maps
    a reference to the elements of a one-axis array. *)
Definition loc : Type := nat.
Definition store : Type := gmap loc (list F).

(** [result -= t] on the array [result] refers to. *)
Definition isub (result_ : loc) (t : list F) (h : store) : result unit * store :=
  match h !! result_ with
  | Some a =>
      match inplace f_sub a t with
      | Ok a' => (Ok tt, <[result_ := a']> h)
      | Raise e => (Raise e, h)
      end
  | None => (Raise (NameError "result"), h)
  end.

(** [for i, b in enumerate(rows): result -= b * y[i]], from index [i] on. *)
Fixpoint rearrange_loop (i : nat) (rows : list (list F)) (y : list (list F))
  (result_ : loc) (h : store) : result unit * store :=
  match rows with
  | [] => (Ok tt, h)
  | b :: rest =>
      match (yi ← getitem y (Z.of_nat i); elementwise f_mul b yi) with
      | Raise e => (Raise e, h)
      | Ok t =>
          match isub result_ t h with
          | (Ok _, h') => rearrange_loop (S i) rest y result_ h'
          | (Raise e, h') => (Raise e, h')
          end
      end
  end.

(** [y] and [coeff_b] are only read and are passed by their contents; [fx]
    is passed by reference. *)
Definition _rearrange_to_explicit_ode
  (y coeff_b : list (list F)) (fx : loc) (h : store) : result (list F) * store :=
  let result_ := fx in
  match rearrange_loop 0 (slice None (Some (-1)%Z) coeff_b) y result_ h with
  | (Raise e, h') => (Raise e, h')
  | (Ok _, h') =>
      (* return result / coeff_b[-1] *)
      (match h' !! result_ with
       | Some a => last_row ← getitem coeff_b (-1); elementwise f_div a last_row
       | None => Raise (NameError "result")
       end, h')
  end.

(** *** _transform_and_rearrange_to_explicit_ode *)

(** Its two statements call the class through [_transformed_coeff_ode] and
    [_rearrange_ode]; as in [func] below, what a method of such a name would
    do is not modelled. *)
Definition _transform_and_rearrange_to_explicit_ode
  (x : list F) (y : list (list F)) (coeff_a : list coefficient) (tf : BaseTransform)
  (fx_func : list F → list F) : result (list F) :=
  (* coeff_b = ODE._transformed_coeff_ode(coeff_a, tf, x) *)
  coeff_b ← (_ ← ODE_getattr "_transformed_coeff_ode";
             Raise (TypeError "_transformed_coeff_ode") : result (list (list F)));
  (* result = ODE._rearrange_ode(x, y, coeff_b, fx_func(tf.inverse(x))) *)
  result_ ← (_ ← ODE_getattr "_rearrange_ode";
             Raise (TypeError "_rearrange_ode") : result (list F));
  Ok result_.

(** *** solve_ode *)

(** [np.random]: the generator's state is the sequence of the values it will
    draw next. *)
Definition rng : Type := nat → F.

(** [np.random.rand(rows, cols)] *)
Definition random_rand (rows cols : nat) (g : rng) : list (list F) * rng :=
  ((λ i : nat, (λ j : nat, g (i * cols + j)) <$> seq 0 cols) <$> seq 0 rows,
   λ k, g (rows * cols + k)).

(** scipy's piecewise polynomial, the [sol] of a result. *)
Variable PPoly : Type.

Record bvp_result : Type := { status : Z; sol : PPoly }.

(** The arguments of one call of [scipy.integrate.solve_bvp]; a keyword that
    the call does not pass is [None] and scipy uses its own default. *)
Record bvp_call : Type := {
  bvp_fun : list F → list (list F) → result (list (list F));
  bvp_bc : list F → list F → result (list F);
  bvp_x : list F;
  bvp_y : list (list F);
  bvp_tol : option F;
  bvp_max_nodes : option Z
}.

Variable solve_bvp : bvp_call → result bvp_result.

(** The literal [1e-4]. *)
Definition lit_1e_4 : F := f_div (f_of_Z 1) (f_of_Z 10000).

(** [func(x, y)] defined inside [solve_ode].  Both branches call the class
    through a name it does not bind, so the lookup raises before any argument
    is evaluated; what a method of that name would do is not modelled. *)
Definition func (coeffs : list coefficient) (transform : option BaseTransform)
  (fx : list F → list F) (x : list F) (y : list (list F)) : result (list (list F)) :=
  dy_dx ←
    match transform with
    | Some tf =>
        (* ODE._rearrange_trans_ode(x, y, coeffs, transform, fx) *)
        _ ← ODE_getattr "_rearrange_trans_ode";
        Raise (TypeError "_rearrange_trans_ode")
    | None =>
        coeffs_mt ← _construct_coeff_array x coeffs;
        (* ODE._rearrange_ode(x, y, coeffs_mt, fx(x)) *)
        _ ← ODE_getattr "_rearrange_ode";
        Raise (TypeError "_rearrange_ode")
    end;
  Ok (slice (Some 1%Z) None y ++ [dy_dx]).

(** [bc(ya, yb)] defined inside [solve_ode]. *)
Definition bc (bd_cond : list (Z * Z * F)) (ya yb : list F) : result (list F) :=
  let bonds := [ya; yb] in
  mapM (λ c : Z * Z * F,
          let '(i, deriv, value) := c in
          bond ← getitem bonds i;
          v ← getitem bond deriv;
          Ok (f_sub v value)) bd_cond.

Definition order_message (order : Z) (bd_cond : list (Z * Z * F)) : string :=
  "# of boundary condition need to be the same as ODE order." +:+
  "Expect: " +:+ str order +:+ ", got: " +:+ str (Z.of_nat (length bd_cond)) +:+ ".".

Definition status_message (status : Z) : string :=
  "The ode solver didn't converge, got status: " +:+ str status.

(** The call [solve_bvp(func, bc, x, y, tol=1e-4)] of [solve_ode]. *)
Definition solve_ode_call (x : list F) (fx : list F → list F) (coeffs : list coefficient)
  (bd_cond : list (Z * Z * F)) (transform : option BaseTransform) (y : list (list F))
  : bvp_call :=
  {| bvp_fun := func coeffs transform fx;
     bvp_bc := bc bd_cond;
     bvp_x := x;
     bvp_y := y;
     bvp_tol := Some lit_1e_4;
     bvp_max_nodes := None |}.

Definition solve_ode
  (x : list F) (fx : list F → list F) (coeffs : list coefficient) (bd_cond : list (Z * Z * F))
  (transform : option BaseTransform) (tol : F) (max_nodes : Z)
  (initial_guess_y : option (list (list F))) (g : rng) : result PPoly * rng :=
  let order := (Z.of_nat (length coeffs) - 1)%Z in
  if negb (Z.of_nat (length bd_cond) =? order)%Z then
    (Raise (NotImplementedError (order_message order bd_cond)), g)
  else if (3 <? order)%Z then
    (Raise (NotImplementedError "Only support 3rd order ODE or less."), g)
  else
    let '(y, g') := random_rand (Z.to_nat order) (length x) g in
    match solve_bvp (solve_ode_call x fx coeffs bd_cond transform y) with
    | Raise e => (Raise e, g')
    | Ok res =>
        if negb (status res =? 0)%Z then (Raise (ValueError (status_message (status res))), g')
        else (Ok (sol res), g')
    end.

End ODE.

Arguments coefficient F : clear implicits.
Arguments BaseTransform F : clear implicits.
Arguments pyval F : clear implicits.
Arguments store F : clear implicits.
Arguments rng F : clear implicits.
Arguments bvp_call F : clear implicits.

End ODE.

(** ** Vocabulary of the statements, and sample inputs *)

Import Interpolate ODE.

(** The shell boundaries: [K + 1] offsets from 0 to [N], in order. *)
Definition shell_indices (indices : list Z) (N : nat) : Prop :=
  head indices = Some 0%Z
  ∧ last indices = Some (Z.of_nat N)
  ∧ ∀ (i : nat) (a b : Z), indices !! i = Some a → indices !! S i = Some b → (a ≤ b)%Z.

Section ShellTerms.
Context {F : Type} `{Real64 F}.

(** [l[n]], for an index in range. *)
Definition elem (l : list F) (n : nat) : F := default f_zero (l !! n).

(** [t[i, j, k]], for indices in range. *)
Definition elem3 (t : tensor3 F) (i j k : nat) : F := default f_zero (entry t i j k).

(** The terms [harmonic(m, l, n) * value(n) * weight(n)] of the points
    [lo <= n < hi], in order. *)
Definition shell_terms (sph_harm : tensor3 F) (value_arrays weights : list F)
  (m l : nat) (lo hi : Z) : list F :=
  (λ n : nat, f_mul (f_mul (elem3 sph_harm m l n) (elem value_arrays n)) (elem weights n))
    <$> seq (Z.to_nat lo) (Z.to_nat hi - Z.to_nat lo).

End ShellTerms.

Section HarmonicsData.
Context {F C : Type} `{Real64 F} `{Complex128 F C}.
Variable sph_harm : Z → Z → F → F → C.

(** The complex array of [generate_sph_harms], for angle arrays of one
    length. *)
Definition harmonics_data (l_max : Z) (theta phi : list F) : list (list (list C)) :=
  (λ mi : Z,
     (λ li : Z, (λ tp : F * F, sph_harm mi li tp.1 tp.2) <$> zip_with pair theta phi)
       <$> (_generate_sph_paras l_max).1)
    <$> (_generate_sph_paras l_max).2.

End HarmonicsData.


(** A stand-in for the complex harmonics on which the rows can be told
    apart: the value at order [m] and degree [l] is [m + i l]. *)
Definition tagged_harmonic (m l : Z) (theta phi : R) : Cx := (IZR m, IZR l).

(** A stand-in for the complex harmonics on binary64.  Like scipy's it is NaN
    where the order exceeds the degree; elsewhere its value is [l + i m], so
    that the imaginary part tells the order, sign included. *)
Definition degree_checked_harmonic (m l : Z) (theta phi : float) : cfloat :=
  if (l <? Z.abs m)%Z then (nan, 0%float) else (float_of_Z l, float_of_Z m).

(** A generator state: the draws 1/2, 1/3, 1/4, ... *)
Definition harmonic_tape : rng float :=
  λ k, PrimFloat.div 1 (float_of_Z (Z.of_nat k + 2)).

(** A routine that converges at once and returns its initial guess. *)
Definition bvp_returns_guess (c : bvp_call float) : result (bvp_result (list (list float))) :=
  Ok {| status := 0; sol := bvp_y c |}.

(** A routine that converges at once and reports the two keywords it got. *)
Definition bvp_returns_keywords (c : bvp_call float)
  : result (bvp_result (option float * option Z)) :=
  Ok {| status := 0; sol := (bvp_tol c, bvp_max_nodes c) |}.

(** y'' + y = 0 on [0, 1] with y(0) = 0, y(1) = 1. *)
Definition oscillator_mesh : list float := [0; 1]%float.
Definition oscillator_coeffs : list (coefficient float) :=
  [Number 1; Number 0; Number 1]%float.
Definition oscillator_bd_cond : list (Z * Z * float) :=
  [(0%Z, 0%Z, 0%float); (1%Z, 0%Z, 1%float)].
Definition oscillator_fx (x : list float) : list float := (λ _, 0%float) <$> x.
Definition zero_guess : list (list float) := [[0; 0]; [0; 0]]%float.

Section ExplicitNumerator.
Context {F : Type} `{Real64 F}.

(** [fx - b_0 * y_0 - b_1 * y_1 - ...], subtracted in this order, for the
    rows of the two arrays paired until either runs out. *)
Definition explicit_numerator (fx : list F) (bs ys : list (list F)) : list F :=
  foldl (λ (acc : list F) (p : list F * list F), zip_with f_sub acc (zip_with f_mul p.1 p.2))
    fx (zip bs ys).

End ExplicitNumerator.

(** A routine that, as scipy's does to check the shape of the right-hand
    side, evaluates it on the initial mesh and guess before anything else. *)
Definition bvp_evaluates_fun (c : bvp_call float) : result (bvp_result unit) :=
  match bvp_fun c (bvp_x c) (bvp_y c) with
  | Raise e => Raise e
  | Ok _ => Ok {| status := 0; sol := tt |}
  end.

(* ================================================================== *)
(** * Part II: the properties *)
(* ================================================================== *)

(** ** Arrays and slices *)

Section SliceFacts.
Context {A : Type}.
Implicit Types l v : list A.

Lemma clip_nonneg (len : nat) (i : Z) :
  (0 ≤ i)%Z → clip len i = Z.to_nat i `min` len.
Proof. intros Hi. unfold clip. destruct (Z.ltb_spec i 0); lia. Qed.

Lemma clip_negative (len : nat) (i : Z) :
  (i < 0)%Z → clip len i = len - Z.to_nat (- i).
Proof. intros Hi. unfold clip. destruct (Z.ltb_spec i 0); lia. Qed.

(** A slice with bounds in range, element by element. *)
Lemma slice_lookup (start stop : option Z) l (j : nat) :
  slice_lo (length l) start + j < slice_hi (length l) stop →
  slice start stop l !! j = l !! (slice_lo (length l) start + j).
Proof.
  intros Hj. unfold slice. rewrite lookup_take_lt by lia. by rewrite lookup_drop.
Qed.

Lemma slice_length (start stop : option Z) l :
  slice_hi (length l) stop ≤ length l →
  length (slice start stop l)
  = slice_hi (length l) stop - slice_lo (length l) start.
Proof. intros Hhi. unfold slice. rewrite length_take, length_drop. lia. Qed.

Lemma slice_hi_le (len : nat) (stop : option Z) : slice_hi len stop ≤ len.
Proof. destruct stop as [s|]; simpl; [|lia]. unfold clip. destruct (Z.ltb_spec s 0); lia. Qed.

Lemma slice_lo_le (len : nat) (start : option Z) : slice_lo len start ≤ len.
Proof. destruct start as [s|]; simpl; [|lia]. unfold clip. destruct (Z.ltb_spec s 0); lia. Qed.

(** The three regions of a list after [l[lo:hi] = v]. *)
Lemma setslice_lookup_before (start stop : option Z) v l (i : nat) :
  i < slice_lo (length l) start →
  setslice start stop v l !! i = l !! i.
Proof.
  intros Hi. unfold setslice. pose proof (slice_lo_le (length l) start).
  rewrite lookup_app_l by (rewrite length_take; lia).
  by rewrite lookup_take_lt.
Qed.

Lemma setslice_lookup_inside (start stop : option Z) v l (i : nat) :
  slice_lo (length l) start ≤ i < slice_lo (length l) start + length v →
  setslice start stop v l !! i = v !! (i - slice_lo (length l) start).
Proof.
  intros Hi. unfold setslice. pose proof (slice_lo_le (length l) start).
  rewrite lookup_app_r by (rewrite length_take; lia).
  rewrite length_take. replace (slice_lo (length l) start `min` length l)
    with (slice_lo (length l) start) by lia.
  by rewrite lookup_app_l by lia.
Qed.

Lemma setslice_length (start stop : option Z) v l :
  length v = slice_hi (length l) stop - slice_lo (length l) start →
  length (setslice start stop v l) = length l.
Proof.
  intros Hv. unfold setslice.
  pose proof (slice_lo_le (length l) start). pose proof (slice_hi_le (length l) stop).
  rewrite !length_app, length_take, length_drop. lia.
Qed.

End SliceFacts.

(** ** interpolate.py: the harmonics *)

Section HarmonicsFacts.
Context {F C : Type} `{Real64 F} `{Complex128 F C}.
Variable sph_harm : Z → Z → F → F → C.

Lemma arange_length (a b : Z) : length (arange a b) = Z.to_nat (b - a).
Proof. unfold arange. by rewrite length_fmap, length_seq. Qed.

Lemma arange_lookup (a b : Z) (i : nat) :
  i < Z.to_nat (b - a) → arange a b !! i = Some (a + Z.of_nat i)%Z.
Proof.
  intros Hi. unfold arange. rewrite list_lookup_fmap, lookup_seq_lt by done. done.
Qed.

Lemma arange_empty (a b : Z) : (b ≤ a)%Z → arange a b = [].
Proof.
  intros Hab. unfold arange. replace (Z.to_nat (b - a)) with 0 by lia. done.
Qed.

Lemma sph_paras_negative (l_max : Z) :
  (l_max < 0)%Z → _generate_sph_paras l_max = ([], []).
Proof.
  intros Hneg. unfold _generate_sph_paras.
  rewrite !arange_empty by lia. done.
Qed.

Lemma elementwise_broadcast {A B D} (f : A → B → D) (xs : list A) (ys : list B) n :
  broadcast_len (length xs) (length ys) = Some n →
  elementwise f xs ys = Ok (broadcast_with f xs ys) ∧ length (broadcast_with f xs ys) = n.
Proof.
  intros Hn. unfold elementwise. rewrite Hn. split; [done|].
  unfold broadcast_len, broadcast_with in *.
  destruct (length xs =? length ys) eqn:E.
  - apply Nat.eqb_eq in E. injection Hn as <-. rewrite length_zip_with. lia.
  - destruct (length ys =? 1) eqn:E1.
    + injection Hn as <-. apply Nat.eqb_eq in E1.
      destruct ys as [|y [|]]; simplify_eq/=. by rewrite length_fmap.
    + destruct (length xs =? 1) eqn:E2; [|done].
      injection Hn as <-. apply Nat.eqb_eq in E2. apply Nat.eqb_neq in E1.
      destruct xs as [|x [|]]; simplify_eq/=.
      destruct ys as [|y [|]]; simplify_eq/=; by rewrite ?length_fmap.
Qed.

(** C9, as the code has it.  No function of the module checks [l_max].  For
    every negative [l_max] and angle arrays that broadcast to length [n],
    the two parameter lists are empty, so [generate_sph_harms] returns the
    empty array of shape (0, 0, n) and raises nothing; [generate_real_sph_harms]
    does fail, with the IndexError of reading row 0 of that empty array. *)
Theorem negative_l_max (l_max : Z) (theta phi : list F) (n : nat) :
  (l_max < 0)%Z →
  broadcast_len (length theta) (length phi) = Some n →
  generate_sph_harms sph_harm l_max theta phi = Ok (Tensor3 (0, 0, n) [])
  ∧ generate_real_sph_harms sph_harm l_max theta phi
    = Raise (IndexError "index out of bounds").
Proof.
  intros Hneg Hn.
  assert (Hc : generate_sph_harms sph_harm l_max theta phi = Ok (Tensor3 (0, 0, n) [])).
  { unfold generate_sph_harms. rewrite sph_paras_negative by done.
    destruct (elementwise_broadcast pair theta phi n Hn) as [-> Hlen].
    simpl. by rewrite Hlen. }
  split; [done|].
  unfold generate_real_sph_harms. rewrite Hc. reflexivity.
Qed.

End HarmonicsFacts.

Section ConvertFacts.
Context {F C : Type} `{Real64 F} `{Complex128 F C}.

Lemma zeros3_length (d0 d1 d2 : nat) : length (zeros3 (F:=F) d0 d1 d2) = d0.
Proof. unfold zeros3. apply length_replicate. Qed.

(** Which rows of the complex array end up where: row 0 is cast, rows
    [1 .. L-1] hold the sums with the conjugate, rows [L .. 2L-2] the
    differences. *)
Lemma convert_rows (D : list (list (list C))) (L N : nat) :
  1 ≤ L → length D = 2 * L - 1 →
  ∃ rows,
    _convert_ylm_to_zlm (Tensor3 (2 * L - 1, L, N) D) = Ok (Tensor3 (2 * L - 1, L, N) rows)
    ∧ rows !! 0 = matrix_map c_real <$> D !! 0
    ∧ (∀ i, 1 ≤ i < L → rows !! i = matrix_map zlm_plus <$> D !! i)
    ∧ (∀ i, L ≤ i < 2 * L - 1 → rows !! i = matrix_map zlm_minus <$> D !! i).
Proof.
  intros HL HD. unfold _convert_ylm_to_zlm. cbn [t_shape t_data].
  destruct D as [|row0 D'] eqn:ED; [simpl in HD; lia|]. rewrite <- ED in *.
  assert (Hget : getitem D 0 = Ok row0).
  { unfold getitem, index. rewrite ED. simpl. done. }
  rewrite Hget. cbn [mbind result_bind].
  set (s0 := zeros3 (2 * L - 1) L N).
  set (v1 := matrix_map zlm_plus <$> slice (Some 1%Z) (Some (Z.of_nat L)) D).
  set (s1 := setslice (Some 1%Z) (Some (Z.of_nat L)) v1 s0).
  set (v2 := matrix_map zlm_minus <$> slice (Some (- Z.of_nat L + 1)%Z) None D).
  set (s2 := setslice (Some (- Z.of_nat L + 1)%Z) None v2 s1).
  assert (Hs0 : length s0 = 2 * L - 1) by apply zeros3_length.
  assert (Hlo1 : ∀ len, len = 2 * L - 1 → slice_lo len (Some 1%Z) = 1).
  { intros len ->. simpl. rewrite clip_nonneg by lia. lia. }
  assert (Hhi1 : ∀ len, len = 2 * L - 1 → slice_hi len (Some (Z.of_nat L)) = L).
  { intros len ->. simpl. rewrite clip_nonneg by lia. lia. }
  assert (Hlo2 : ∀ len, len = 2 * L - 1 →
            slice_lo len (Some (- Z.of_nat L + 1)%Z) = if decide (L = 1) then 0 else L).
  { intros len ->. simpl. case_decide.
    - subst L. rewrite clip_nonneg by lia. lia.
    - rewrite clip_negative by lia. lia. }
  assert (Hv1 : length v1 = L - 1).
  { unfold v1. rewrite length_fmap, slice_length by apply slice_hi_le.
    rewrite Hhi1, Hlo1 by done. done. }
  assert (Hs1 : length s1 = 2 * L - 1).
  { unfold s1. rewrite setslice_length; [done|].
    rewrite Hhi1, Hlo1 by done. done. }
  assert (Hv2 : length v2 = 2 * L - 1 - if decide (L = 1) then 0 else L).
  { unfold v2. rewrite length_fmap, slice_length by apply slice_hi_le.
    rewrite Hlo2 by done. simpl. by rewrite HD. }
  assert (Hs2 : length s2 = 2 * L - 1).
  { unfold s2. rewrite setslice_length; [done|].
    rewrite Hlo2 by done. simpl. by rewrite Hs1. }
  eexists. split; [reflexivity|]. split; [|split].
  - rewrite list_lookup_insert_eq by lia. rewrite ED. done.
  - intros i Hi. rewrite list_lookup_insert_ne by lia.
    unfold s2. rewrite setslice_lookup_before
      by (rewrite Hlo2 by done; case_decide; lia).
    unfold s1. rewrite setslice_lookup_inside by (rewrite Hlo1 by done; lia).
    rewrite Hlo1 by done. unfold v1. rewrite list_lookup_fmap.
    rewrite slice_lookup by (rewrite Hlo1, Hhi1 by done; lia).
    rewrite Hlo1 by done. by replace (1 + (i - 1)) with i by lia.
  - intros i Hi. rewrite list_lookup_insert_ne by lia.
    assert (HL1 : L ≠ 1) by lia.
    unfold s2. rewrite setslice_lookup_inside
      by (rewrite Hlo2 by done; rewrite Hv2; case_decide; lia).
    rewrite Hlo2 by done. rewrite decide_False by done.
    unfold v2. rewrite list_lookup_fmap.
    rewrite slice_lookup
      by (rewrite Hlo2 by done; rewrite decide_False by done; simpl; lia).
    rewrite Hlo2 by done. rewrite decide_False by done.
    by replace (L + (i - L)) with i by lia.
Qed.

End ConvertFacts.

Section RealHarmonics.
Context {F C : Type} `{Real64 F} `{Complex128 F C}.
Variable sph_harm : Z → Z → F → F → C.

Lemma entry_map {A B} (f : A → B) (t : tensor3 A) (i j k : nat) :
  entry (tensor3_map f t) i j k = f <$> entry t i j k.
Proof.
  unfold entry, tensor3_map, matrix_map. cbn [t_data].
  rewrite list_lookup_fmap. destruct (t_data t !! i) as [m|]; [|done]. simpl.
  rewrite list_lookup_fmap. destruct (m !! j) as [row|]; [|done]. simpl.
  by rewrite list_lookup_fmap.
Qed.

(** The orders in storage order: [0, 1, ..., l_max, -l_max, ..., -1]. *)
Lemma m_list_lookup_nonneg (l_max m : Z) :
  (0 ≤ m ≤ l_max)%Z →
  (_generate_sph_paras l_max).2 !! Z.to_nat m = Some m.
Proof.
  intros Hm. unfold _generate_sph_paras. cbn [snd].
  rewrite lookup_app_l by (rewrite arange_length; lia).
  rewrite arange_lookup by lia. f_equal. lia.
Qed.

Lemma m_list_lookup_negative (l_max m : Z) :
  (1 ≤ m ≤ l_max)%Z →
  (_generate_sph_paras l_max).2 !! Z.to_nat (2 * l_max + 1 - m) = Some (- m)%Z.
Proof.
  intros Hm. unfold _generate_sph_paras. cbn [snd].
  rewrite lookup_app_r by (rewrite arange_length; lia).
  rewrite arange_length, arange_lookup by lia. f_equal. lia.
Qed.

Lemma l_list_lookup (l_max l : Z) :
  (0 ≤ l ≤ l_max)%Z →
  (_generate_sph_paras l_max).1 !! Z.to_nat l = Some l.
Proof.
  intros Hl. unfold _generate_sph_paras. cbn [fst].
  rewrite arange_lookup by lia. f_equal. lia.
Qed.


Lemma generate_sph_harms_data (l_max : Z) (theta phi : list F) :
  (0 ≤ l_max)%Z → length theta = length phi →
  generate_sph_harms sph_harm l_max theta phi
  = Ok (Tensor3 (2 * Z.to_nat (l_max + 1) - 1, Z.to_nat (l_max + 1), length theta)
          (harmonics_data sph_harm l_max theta phi)).
Proof.
  intros Hl Hlen. unfold generate_sph_harms, harmonics_data.
  destruct (_generate_sph_paras l_max) as [l m] eqn:Hp.
  assert (Hm : length m = 2 * Z.to_nat (l_max + 1) - 1).
  { unfold _generate_sph_paras in Hp. injection Hp as <- <-.
    rewrite length_app, !arange_length. lia. }
  assert (Hll : length l = Z.to_nat (l_max + 1)).
  { unfold _generate_sph_paras in Hp. injection Hp as <- <-.
    rewrite arange_length. lia. }
  unfold elementwise, broadcast_len, broadcast_with.
  rewrite Hlen, Nat.eqb_refl. cbn [mbind result_bind fst snd].
  rewrite length_zip_with, Hlen, Nat.min_id, Hm, Hll. done.
Qed.

Lemma harmonics_data_entry (f : C → F) (l_max mi li : Z) (i j n : nat)
  (theta phi : list F) (t p : F) :
  (_generate_sph_paras l_max).2 !! i = Some mi →
  (_generate_sph_paras l_max).1 !! j = Some li →
  theta !! n = Some t → phi !! n = Some p →
  ∀ rows : list (list (list F)),
    rows !! i = matrix_map f <$> harmonics_data sph_harm l_max theta phi !! i →
    entry (Tensor3 (0, 0, 0) rows) i j n = Some (f (sph_harm mi li t p)).
Proof.
  intros Hm Hl Ht Hp rows Hrows. unfold entry. cbn [t_data]. rewrite Hrows.
  unfold harmonics_data, matrix_map.
  destruct (_generate_sph_paras l_max) as [ls ms]. cbn [fst snd] in *.
  rewrite list_lookup_fmap, Hm. simpl.
  rewrite !list_lookup_fmap, Hl. simpl.
  rewrite !list_lookup_fmap, lookup_zip_with, Ht. simpl. rewrite Hp. done.
Qed.

Lemma real_harmonics_entries (l_max : Z) (theta phi : list F) :
  (0 ≤ l_max)%Z → length theta = length phi →
  ∃ T, generate_real_sph_harms sph_harm l_max theta phi = Ok T
    ∧ t_shape T = (Z.to_nat (2 * l_max + 1), Z.to_nat (l_max + 1), length theta)
    ∧ ∀ (l : Z) (n : nat) (t p : F),
        (0 ≤ l ≤ l_max)%Z → theta !! n = Some t → phi !! n = Some p →
        entry T 0 (Z.to_nat l) n = Some (f_nan_to_num (c_real (sph_harm 0 l t p)))
        ∧ (∀ m, (1 ≤ m ≤ l_max)%Z →
             entry T (Z.to_nat m) (Z.to_nat l) n
             = Some (f_nan_to_num (zlm_plus (sph_harm m l t p))))
        ∧ (∀ m, (1 ≤ m ≤ l_max)%Z →
             entry T (Z.to_nat (2 * l_max + 1 - m)) (Z.to_nat l) n
             = Some (f_nan_to_num (zlm_minus (sph_harm (- m) l t p)))).
Proof.
  intros Hl Hlen. unfold generate_real_sph_harms.
  rewrite generate_sph_harms_data by done. cbn [mbind result_bind].
  set (L := Z.to_nat (l_max + 1)).
  destruct (convert_rows (harmonics_data sph_harm l_max theta phi) L (length theta))
    as (rows & -> & Hzero & Hpos & Hneg).
  { lia. }
  { unfold harmonics_data. rewrite length_fmap. unfold _generate_sph_paras. cbn [snd].
    rewrite length_app, !arange_length. lia. }
  cbn [mbind result_bind]. eexists. split; [reflexivity|]. split.
  { unfold tensor3_map. cbn [t_shape]. f_equal. f_equal. lia. }
  intros l n t p Hl' Ht Hp.
  assert (Hentry : ∀ (f : C → F) (i : nat) (mi : Z),
            (_generate_sph_paras l_max).2 !! i = Some mi →
            rows !! i = matrix_map f <$> harmonics_data sph_harm l_max theta phi !! i →
            entry (tensor3_map f_nan_to_num (Tensor3 (2 * L - 1, L, length theta) rows))
                  i (Z.to_nat l) n
            = Some (f_nan_to_num (f (sph_harm mi l t p)))).
  { intros f i mi Hmi Hrows. rewrite entry_map.
    change (entry (Tensor3 (2 * L - 1, L, length theta) rows) i (Z.to_nat l) n)
      with (entry (Tensor3 (0, 0, 0) rows) i (Z.to_nat l) n).
    erewrite harmonics_data_entry; eauto using l_list_lookup. }
  split; [|split].
  - apply (Hentry c_real 0 0%Z); [|exact Hzero].
    by apply (m_list_lookup_nonneg l_max 0); lia.
  - intros m Hm. apply Hentry.
    + apply m_list_lookup_nonneg. lia.
    + apply Hpos. lia.
  - intros m Hm. apply Hentry.
    + by apply m_list_lookup_negative.
    + apply Hneg. lia.
Qed.

End RealHarmonics.

(** The two closed forms over the exact reals. *)
Lemma zlm_plus_exact (y : Cx) : zlm_plus y = (sqrt 2 * y.1)%R.
Proof.
  destruct y as [a b]. unfold zlm_plus. simpl. unfold Cx_div. simpl.
  assert (Hs : (sqrt 2 * sqrt 2 = 2)%R) by (apply sqrt_sqrt; lra).
  replace (sqrt 2 * sqrt 2 + 0 * 0)%R with 2%R by lra.
  replace ((a + a) * sqrt 2 + (b + - b) * 0)%R with (2 * (sqrt 2 * a))%R by lra.
  field.
Qed.

Lemma zlm_minus_exact (y : Cx) : zlm_minus y = (sqrt 2 * y.2)%R.
Proof.
  destruct y as [a b]. unfold zlm_minus. simpl. unfold Cx_div. simpl.
  assert (Hs : (sqrt 2 * sqrt 2 = 2)%R) by (apply sqrt_sqrt; lra).
  replace ((sqrt 2 * 0 - 0 * 1) * (sqrt 2 * 0 - 0 * 1)
           + (sqrt 2 * 1 + 0 * 0) * (sqrt 2 * 1 + 0 * 0))%R with 2%R by lra.
  replace ((a - a) * (sqrt 2 * 0 - 0 * 1) + (b - - b) * (sqrt 2 * 1 + 0 * 0))%R
    with (2 * (sqrt 2 * b))%R by lra.
  field.
Qed.

(** ** The real harmonics over the exact reals *)

(** In the negative half the row of order [-m] is built from the complex
    harmonic of that same order.  Under the symmetry
    [Y_l^{-m} = s * conj(Y_l^m)] with [s = (-1)^m] of the complex harmonics,
    this is [- s * sqrt 2 * Im (Y_l^m)]. *)
Lemma zlm_minus_of_conjugate (y : Cx) (s : R) :
  zlm_minus ((s * y.1)%R, (- (s * y.2))%R) = (- s * (sqrt 2 * y.2))%R.
Proof. rewrite zlm_minus_exact. simpl. ring. Qed.

(** C5 as stated fails where the complex harmonic is NaN, as scipy's is for
    every order above the degree: for [l_max = 1], at order 1 and degree 0,
    the value (Y + conj(Y)) / sqrt(2) is NaN and the entry of the returned
    array is 0.0. *)
Lemma generate_real_sph_harms_nan_entry :
  let y := degree_checked_harmonic 1 0 0%float 0%float in
  PrimFloat.is_nan (c_real (c_div (c_add y (c_conj y)) (c_of_real (f_sqrt (f_of_Z 2)))))
  = true
  ∧ ∃ T, generate_real_sph_harms degree_checked_harmonic 1 [0%float] [0%float] = Ok T
      ∧ entry T 1 0 0 = Some 0%float.
Proof.
  split; [vm_compute; reflexivity|].
  eexists. split; [vm_compute; reflexivity|]. reflexivity.
Qed.

(** C5, as the code has it.  For [l_max >= 0] and angle arrays of one length
    the array [generate_real_sph_harms] returns has shape
    (2 l_max + 1, l_max + 1, N) and, at degree [l] and point [n], holds
    [np.nan_to_num] of
    - the real part of Y_l^0, in row 0;
    - the real part of (Y_l^m + conj(Y_l^m)) / sqrt(2), in row [m], for
      m = 1 .. l_max;
    - the real part of (Y_l^{-m} - conj(Y_l^{-m})) / (sqrt(2) i), in the row
      of order [-m], for m = 1 .. l_max, stored at index 2 l_max + 1 - m (the
      tail of the first axis).
    Y_l^{-m} is the complex harmonic of the negative order itself, the value
    [sph_harm (-m) l theta phi].  This holds for every float and complex
    type, binary64 included.  Over the exact complex numbers the last two
    values are sqrt(2) Re(y) and sqrt(2) Im(y). *)
Theorem generate_real_sph_harms_rows {F C : Type} `{Real64 F} `{Complex128 F C}
  (sph_harm : Z → Z → F → F → C) (l_max : Z) (theta phi : list F) :
  (0 ≤ l_max)%Z → length theta = length phi →
  (∃ T, generate_real_sph_harms sph_harm l_max theta phi = Ok T
     ∧ t_shape T = (Z.to_nat (2 * l_max + 1), Z.to_nat (l_max + 1), length theta)
     ∧ ∀ (l : Z) (n : nat) (t p : F),
         (0 ≤ l ≤ l_max)%Z → theta !! n = Some t → phi !! n = Some p →
         (* m = 0 *)
         entry T 0 (Z.to_nat l) n = Some (f_nan_to_num (c_real (sph_harm 0%Z l t p)))
         (* m = 1 .. l_max *)
         ∧ (∀ m : Z, (1 ≤ m ≤ l_max)%Z →
              let y := sph_harm m l t p in
              entry T (Z.to_nat m) (Z.to_nat l) n
              = Some (f_nan_to_num
                        (c_real (c_div (c_add y (c_conj y))
                                   (c_of_real (f_sqrt (f_of_Z 2)))))))
         (* m = -1 .. -l_max, at the tail of the first axis *)
         ∧ (∀ m : Z, (1 ≤ m ≤ l_max)%Z →
              let y := sph_harm (- m)%Z l t p in
              entry T (Z.to_nat (2 * l_max + 1 - m)) (Z.to_nat l) n
              = Some (f_nan_to_num
                        (c_real (c_div (c_sub y (c_conj y))
                                   (c_mul (c_of_real (f_sqrt (f_of_Z 2))) c_j))))))
  ∧ (∀ y : Cx,
       c_real (c_div (c_add y (c_conj y)) (c_of_real (f_sqrt (f_of_Z 2))))
       = (sqrt 2 * y.1)%R
       ∧ c_real (c_div (c_sub y (c_conj y)) (c_mul (c_of_real (f_sqrt (f_of_Z 2))) c_j))
         = (sqrt 2 * y.2)%R).
Proof.
  intros Hl Hlen. split.
  - destruct (real_harmonics_entries sph_harm l_max theta phi Hl Hlen)
      as (T & HT & Hshape & Hentries).
    exists T. split; [done|]. split; [done|].
    intros l n t p Hl' Ht Hp.
    destruct (Hentries l n t p Hl' Ht Hp) as (Hzero & Hpos & Hneg).
    split; [exact Hzero|]. split.
    + intros m Hm y. apply (Hpos m Hm).
    + intros m Hm y. apply (Hneg m Hm).
  - intros y. split; [apply zlm_plus_exact|apply zlm_minus_exact].
Qed.

(** On binary64, for [l_max = 1]: the entry of order 1 at degree 0 is the
    cleaned NaN, and at degree 1 the rows of the orders 1 and -1 differ in
    sign, the second being built from the harmonic of order -1. *)
Lemma generate_real_sph_harms_rows_witness :
  ∃ T, generate_real_sph_harms degree_checked_harmonic 1 [0%float] [0%float] = Ok T
    ∧ entry T 1 0 0 = Some 0%float
    ∧ entry T 1 1 0 = Some (2 * (1 / PrimFloat.sqrt 2))%float
    ∧ entry T 2 1 0 = Some (-2 * (1 / PrimFloat.sqrt 2))%float.
Proof.
  destruct (generate_real_sph_harms_rows degree_checked_harmonic 1 [0%float] [0%float])
    as [(T & HT & _ & Hentries) _]; [lia|reflexivity|].
  exists T. split; [exact HT|].
  destruct (Hentries 0%Z 0 0%float 0%float ltac:(lia) eq_refl eq_refl) as (_ & Hpos0 & _).
  destruct (Hentries 1%Z 0 0%float 0%float ltac:(lia) eq_refl eq_refl) as (_ & Hpos1 & Hneg1).
  specialize (Hpos0 1%Z ltac:(lia)). specialize (Hpos1 1%Z ltac:(lia)).
  specialize (Hneg1 1%Z ltac:(lia)).
  change (Z.to_nat (2 * 1 + 1 - 1)) with 2 in Hneg1.
  change (Z.to_nat 1) with 1 in Hpos0, Hpos1, Hneg1.
  change (Z.to_nat 0) with 0 in Hpos0.
  rewrite Hpos0, Hpos1, Hneg1.
  split; [vm_compute; reflexivity|]. split; vm_compute; reflexivity.
Defined.

(** ** Negative [l_max] *)

(** C9 as stated fails: for [l_max = -1] and one angle pair
    [generate_sph_harms] returns an array, of shape (0, 0, 1), and no error. *)
Lemma generate_sph_harms_negative_l_max_returns :
  generate_sph_harms tagged_harmonic (-1)%Z [0%R] [0%R] = Ok (Tensor3 (0, 0, 1) []).
Proof. reflexivity. Qed.

Lemma negative_l_max_witness :
  generate_sph_harms tagged_harmonic (-2)%Z [0%R; 1%R] [0%R; 1%R] = Ok (Tensor3 (0, 0, 2) [])
  ∧ generate_real_sph_harms tagged_harmonic (-2)%Z [0%R; 1%R] [0%R; 1%R]
    = Raise (IndexError "index out of bounds").
Proof.
  apply (negative_l_max tagged_harmonic (-2)%Z [0%R; 1%R] [0%R; 1%R] 2); [lia|reflexivity].
Defined.


(** ** interpolate.py: evaluation *)

Section EvaluationFacts.
Context {F C : Type} `{Real64 F} `{Complex128 F C}.
Variable sph_harm : Z → Z → F → F → C.
Variable spline_t : Type.
Variable spline_call : spline_t → radii F → Z → spline_value F.
Variable einsum_mlk_ml : tensor3 F → spline_value F → option (list F).
Variable einsum_mlk_nml : tensor3 F → spline_value F → option (list (list F)).

Lemma getitem_raises {A} (l : list A) (i : Z) (e : exn) :
  getitem l i = Raise e → e = IndexError "index out of bounds".
Proof.
  unfold getitem. destruct (index (length l) i); [destruct (l !! n)|]; congruence.
Qed.

Lemma elementwise_raises {A B D} (f : A → B → D) xs ys (e : exn) :
  elementwise f xs ys = Raise e → e = NumpyError "broadcast".
Proof. unfold elementwise. destruct (broadcast_len _ _); congruence. Qed.

Lemma generate_real_sph_harms_raises (l_max : Z) (theta phi : list F) (e : exn) :
  generate_real_sph_harms sph_harm l_max theta phi = Raise e →
  e = NumpyError "broadcast" ∨ e = IndexError "index out of bounds".
Proof.
  unfold generate_real_sph_harms, generate_sph_harms.
  destruct (_generate_sph_paras l_max) as [l m].
  destruct (elementwise pair theta phi) as [ang|e'] eqn:Hang; simpl.
  - unfold _convert_ylm_to_zlm. simpl.
    destruct (getitem _ 0) as [row0|e'] eqn:Hrow; simpl; [congruence|].
    intros [= <-]. right. by eapply getitem_raises.
  - intros [= <-]. left. by eapply elementwise_raises.
Qed.

(** C8.  [interpolate_given_splines] raises its ValueError about the shapes
    whenever [theta] and [phi] differ in length, and its ValueError about
    [deriv] whenever the lengths agree and [deriv] is outside [0, 3]; so a
    [deriv] outside [0, 3] (4, say) always ends in a ValueError.  With equal
    lengths and [deriv] in 0 .. 3 it raises no ValueError at all. *)
Theorem interpolate_given_splines_argument_errors
  (spline : spline_t) (r_points : radii F) (theta phi : list F) (deriv : Z) :
  let run := interpolate_given_splines sph_harm spline_t spline_call
               einsum_mlk_ml einsum_mlk_nml spline r_points theta phi deriv in
  (length theta ≠ length phi →
     run = Raise (ValueError (theta_phi_message theta phi)))
  ∧ (length theta = length phi → (deriv < 0 ∨ 3 < deriv)%Z →
     run = Raise (ValueError (deriv_message deriv)))
  ∧ ((deriv < 0 ∨ 3 < deriv)%Z → ∃ msg, run = Raise (ValueError msg))
  ∧ (length theta = length phi → (0 ≤ deriv ≤ 3)%Z →
     ∀ msg, run ≠ Raise (ValueError msg)).
Proof.
  intros run. subst run. unfold interpolate_given_splines.
  assert (Hderiv : length theta = length phi → (deriv < 0 ∨ 3 < deriv)%Z →
            (if negb (length theta =? length phi)
             then Raise (ValueError (theta_phi_message theta phi))
             else
               r_value ←
                 (if (deriv =? 0)%Z then Ok (spline_call spline r_points 0)
                  else if (1 <=? deriv)%Z && (deriv <=? 3)%Z
                       then Ok (spline_call spline r_points deriv)
                       else Raise (ValueError (deriv_message deriv)));
               r_sph_harm ← generate_real_sph_harms sph_harm
                               (Z.of_nat (last_axis r_value) - 1) theta phi;
               match r_points with
               | Scalar _ => match einsum_mlk_ml r_sph_harm r_value with
                             | Some v => Ok (Values v)
                             | None => Raise (NumpyError "einsum")
                             end
               | Points _ => match einsum_mlk_nml r_sph_harm r_value with
                             | Some v => Ok (ValueRows v)
                             | None => Raise (NumpyError "einsum")
                             end
               end) = Raise (ValueError (deriv_message deriv))).
  { intros Heq Hd. apply Nat.eqb_eq in Heq. rewrite Heq. simpl.
    destruct (deriv =? 0)%Z eqn:E0; [lia|].
    destruct ((1 <=? deriv)%Z && (deriv <=? 3)%Z) eqn:E1; [lia|]. done. }
  split; [|split; [|split]].
  - intros Hne. apply Nat.eqb_neq in Hne. by rewrite Hne.
  - exact Hderiv.
  - intros Hd. destruct (decide (length theta = length phi)) as [Heq|Hne].
    + eexists. by apply Hderiv.
    + apply Nat.eqb_neq in Hne. rewrite Hne. by eexists.
  - intros Heq Hd msg. apply Nat.eqb_eq in Heq. rewrite Heq. simpl.
    assert (Hcont : ∀ v : spline_value F,
      (r_sph_harm ← generate_real_sph_harms sph_harm
                       (Z.of_nat (last_axis v) - 1) theta phi;
       match r_points with
       | Scalar _ => match einsum_mlk_ml r_sph_harm v with
                     | Some x => Ok (Values x) | None => Raise (NumpyError "einsum") end
       | Points _ => match einsum_mlk_nml r_sph_harm v with
                     | Some x => Ok (ValueRows x) | None => Raise (NumpyError "einsum") end
       end) ≠ Raise (ValueError msg)).
    { intros v.
      destruct (generate_real_sph_harms _ _ _ _) as [t|e] eqn:Hg; simpl.
      - destruct r_points; [destruct (einsum_mlk_ml t v)|destruct (einsum_mlk_nml t v)];
          congruence.
      - apply generate_real_sph_harms_raises in Hg as [->| ->]; congruence. }
    destruct (deriv =? 0)%Z eqn:E0; [apply Hcont|].
    destruct ((1 <=? deriv)%Z && (deriv <=? 3)%Z) eqn:E1; [apply Hcont|lia].
Qed.

End EvaluationFacts.

Lemma interpolate_given_splines_argument_errors_witness :
  interpolate_given_splines tagged_harmonic unit (λ _ _ _, Coeffs2 (1, 1) [[1%R]])
    (λ _ _, None) (λ _ _, None) tt (Scalar 1%R) [0%R] [0%R; 1%R] 0
  = Raise (ValueError "Shape of theta 1 should equal shape of phi 2.").
Proof.
  apply (interpolate_given_splines_argument_errors tagged_harmonic unit
           (λ _ _ _, Coeffs2 (1, 1) [[1%R]]) (λ _ _, None) (λ _ _, None)
           tt (Scalar 1%R) [0%R] [0%R; 1%R] 0).
  simpl. lia.
Defined.

(** ** interpolate.py: projection and spline fit *)


Section ProjectionFacts.
Context {F : Type} `{Real64 F}.


Lemma shell_indices_sorted (indices : list Z) (N : nat) :
  shell_indices indices N →
  ∀ (j i : nat) (a b : Z), i ≤ j → indices !! i = Some a → indices !! j = Some b → (a ≤ b)%Z.
Proof.
  intros (_ & _ & Hstep). induction j as [|j IH]; intros i a b Hij Ha Hb.
  - replace i with 0 in Ha by lia. simplify_eq. lia.
  - destruct (decide (i = S j)) as [->|Hne]; [simplify_eq; lia|].
    destruct (indices !! j) as [c|] eqn:Hc.
    + pose proof (IH i a c ltac:(lia) Ha eq_refl). pose proof (Hstep j c b Hc Hb). lia.
    + apply lookup_ge_None in Hc. apply lookup_lt_Some in Hb. lia.
Qed.

Lemma shell_indices_bounds (indices : list Z) (N i : nat) (a b : Z) :
  shell_indices indices N →
  indices !! i = Some a → indices !! S i = Some b →
  (0 ≤ a ∧ a ≤ b ∧ b ≤ Z.of_nat N)%Z.
Proof.
  intros Hsh Ha Hb. pose proof (shell_indices_sorted _ _ Hsh) as Hsorted.
  destruct Hsh as (Hhead & Hlast & Hstep).
  rewrite head_lookup in Hhead. rewrite last_lookup in Hlast.
  split; [|split].
  - apply (Hsorted i 0 0%Z a); [lia|done..].
  - by apply (Hstep i).
  - apply (Hsorted (pred (length indices)) (S i) b (Z.of_nat N)); [|done..].
    apply lookup_lt_Some in Hb. lia.
Qed.

Lemma elem_zip_with (f : F → F → F) (xs ys : list F) (n : nat) :
  n < length xs → n < length ys →
  elem (zip_with f xs ys) n = f (elem xs n) (elem ys n).
Proof.
  intros Hx Hy. unfold elem. rewrite lookup_zip_with.
  destruct (lookup_lt_is_Some_2 xs n Hx) as [x ->].
  destruct (lookup_lt_is_Some_2 ys n Hy) as [y ->]. done.
Qed.

(** A slice with bounds in range lists the elements from [lo] to [hi]. *)
Lemma slice_seq (l : list F) (lo hi : Z) :
  (0 ≤ lo ∧ lo ≤ hi ∧ hi ≤ Z.of_nat (length l))%Z →
  slice (Some lo) (Some hi) l = elem l <$> seq (Z.to_nat lo) (Z.to_nat hi - Z.to_nat lo).
Proof.
  intros Hb. apply list_eq. intros j.
  assert (Hlo : slice_lo (length l) (Some lo) = Z.to_nat lo).
  { simpl. rewrite clip_nonneg by lia. lia. }
  assert (Hhi : slice_hi (length l) (Some hi) = Z.to_nat hi).
  { simpl. rewrite clip_nonneg by lia. lia. }
  destruct (decide (j < Z.to_nat hi - Z.to_nat lo)) as [Hj|Hj].
  - rewrite slice_lookup by (rewrite Hlo, Hhi; lia). rewrite Hlo.
    rewrite list_lookup_fmap, lookup_seq_lt by done. simpl. unfold elem.
    destruct (lookup_lt_is_Some_2 l (Z.to_nat lo + j) ltac:(lia)) as [x ->]. done.
  - rewrite !lookup_ge_None_2; [done| |].
    + rewrite length_fmap, length_seq. lia.
    + rewrite slice_length by apply slice_hi_le. rewrite Hlo, Hhi. lia.
Qed.

Lemma broadcast_last_same {A B D} (f : A → B → D) (t : tensor3 A) (v : list B)
  (d0 d1 d2 : nat) :
  t_shape t = (d0, d1, d2) → length v = d2 →
  broadcast_last f t v
  = Ok (Tensor3 (d0, d1, d2)
          ((λ m : list (list A), (λ row : list A, broadcast_with f row v) <$> m)
             <$> t_data t)).
Proof.
  intros Hs Hv. unfold broadcast_last. rewrite Hs, Hv.
  unfold broadcast_len. by rewrite Nat.eqb_refl.
Qed.

Lemma broadcast_with_same {A B D} (f : A → B → D) (xs : list A) (ys : list B) :
  length xs = length ys → broadcast_with f xs ys = zip_with f xs ys.
Proof. intros Hl. unfold broadcast_with. by rewrite Hl, Nat.eqb_refl. Qed.

(** The array the projection returns, entry by entry. *)
Lemma project_entries (sph_harm : tensor3 F) (value_arrays weights : list F)
  (indices : list Z) (M L N K : nat) :
  t_shape sph_harm = (M, L, N) → tensor3_wf sph_harm →
  length value_arrays = N → length weights = N →
  length indices = S K → 1 ≤ K → shell_indices indices N →
  ∃ T, project_function_onto_spherical_expansion sph_harm value_arrays weights indices = Ok T
    ∧ t_shape T = (K, M, L)
    ∧ ∀ (k m l : nat) (lo hi : Z),
        indices !! k = Some lo → indices !! S k = Some hi → m < M → l < L →
        entry T k m l
        = Some (f_nan_to_num (sum (shell_terms sph_harm value_arrays weights m l lo hi))).
Proof.
  intros Hshape Hwf HV HW HK HK1 Hsh.
  unfold project_function_onto_spherical_expansion.
  rewrite (broadcast_last_same _ _ _ M L N) by done. cbn [mbind result_bind].
  rewrite (broadcast_last_same _ _ _ M L N) by done. cbn [mbind result_bind t_shape t_data fst snd].
  rewrite HK. replace (Z.of_nat (S K) - 1)%Z with (Z.of_nat K) by lia.
  unfold range. rewrite Nat2Z.id.
  destruct K as [|K']; [lia|]. remember (S K') as K eqn:EK.
  unfold stack.
  match goal with |- context [match ?l with [] => _ | _ :: _ => _ end] =>
    set (axis_value := l) end.
  assert (Hlen : length axis_value = K).
  { unfold axis_value. by rewrite length_fmap, length_seq. }
  destruct axis_value as [|a0 rest] eqn:Eaxis; [simpl in Hlen; lia|].
  rewrite <- Eaxis in *. cbn [mbind result_bind].
  eexists. split; [reflexivity|]. split.
  { unfold tensor3_map. cbn [t_shape]. by rewrite Hlen. }
  intros k m l lo hi Hlo Hhi Hm Hl.
  rewrite entry_map. unfold entry. cbn [t_data].
  assert (Hk : k < K).
  { apply lookup_lt_Some in Hhi. lia. }
  unfold axis_value. rewrite list_lookup_fmap, lookup_seq_lt by done. cbn [fmap option_fmap option_map Nat.add].
  rewrite Hlo. replace (k + 1) with (S k) by lia. rewrite Hhi. cbn [default].
  unfold tensor3_wf in Hwf. rewrite Hshape in Hwf. destruct Hwf as [HlenM Hrows].
  destruct (lookup_lt_is_Some_2 (t_data sph_harm) m ltac:(lia)) as [mat Hmat].
  pose proof (Forall_lookup_1 _ _ _ _ Hrows Hmat) as [HlenL Hcols].
  destruct (lookup_lt_is_Some_2 mat l ltac:(lia)) as [row Hrow].
  pose proof (Forall_lookup_1 _ _ _ _ Hcols Hrow) as HlenN.
  rewrite !list_lookup_fmap, Hmat. cbn [fmap option_fmap option_map].
  rewrite !list_lookup_fmap, Hrow. cbn [fmap option_fmap option_map].
  f_equal. f_equal. f_equal.
  pose proof (shell_indices_bounds _ _ _ _ _ Hsh Hlo Hhi) as Hb.
  simpl in HlenN, HlenL.
  rewrite (broadcast_with_same f_mul row value_arrays) by lia.
  rewrite broadcast_with_same by (rewrite length_zip_with; lia).
  unfold Datatypes.id. rewrite slice_seq by (rewrite !length_zip_with; lia).
  unfold shell_terms. apply list_fmap_ext. intros j n Hn.
  apply lookup_seq in Hn as [-> Hj].
  rewrite !elem_zip_with by (rewrite ?length_zip_with; lia).
  f_equal. f_equal. unfold elem3, entry, elem. by rewrite Hmat, Hrow.
Qed.

Lemma project_data_length (sph_harm : tensor3 F) (value_arrays weights : list F)
  (indices : list Z) (P : tensor3 F) :
  project_function_onto_spherical_expansion sph_harm value_arrays weights indices = Ok P →
  length (t_data P) = (t_shape P).1.1.
Proof.
  unfold project_function_onto_spherical_expansion.
  destruct (broadcast_last f_mul sph_harm value_arrays) as [p1|]; [|done].
  cbn [mbind result_bind].
  destruct (broadcast_last f_mul p1 weights) as [p2|]; [|done].
  cbn [mbind result_bind]. unfold stack.
  match goal with |- context [match ?l with [] => _ | _ :: _ => _ end] =>
    destruct l as [|a0 rest] end; [done|].
  cbn [mbind result_bind]. intros [= <-]. unfold tensor3_map. cbn [t_data t_shape fst].
  by rewrite length_fmap.
Qed.

End ProjectionFacts.

(** ** np.sum *)

Section PairwiseFacts.
Context {F : Type} `{Real64 F}.

Lemma accumulate8_length (g : nat) (r a : list F) :
  length r = 8 → 8 * g ≤ length a → length (accumulate8 g r a).1 = 8.
Proof.
  revert r a. induction g as [|g IH]; intros r a Hr Ha; [done|].
  cbn [accumulate8]. apply IH.
  - rewrite length_zip_with, length_take. lia.
  - rewrite length_drop. lia.
Qed.

(** A run of 8 terms or more always has its eight running sums: the last
    branch of [pairwise_block] is never taken. *)
Lemma pairwise_block_sums (a : list F) :
  8 ≤ length a →
  ∃ r0 r1 r2 r3 r4 r5 r6 r7 rest,
    accumulate8 (length a / 8 - 1) (take 8 a) (drop 8 a)
    = ([r0; r1; r2; r3; r4; r5; r6; r7], rest)
    ∧ pairwise_block a
      = foldl f_add
          (f_add (f_add (f_add r0 r1) (f_add r2 r3)) (f_add (f_add r4 r5) (f_add r6 r7)))
          rest.
Proof.
  intros Ha.
  pose proof (accumulate8_length (length a / 8 - 1) (take 8 a) (drop 8 a)) as Hlen.
  unfold pairwise_block.
  destruct (accumulate8 (length a / 8 - 1) (take 8 a) (drop 8 a)) as [r rest].
  cbn [fst] in Hlen.
  assert (Hr : length r = 8).
  { apply Hlen; [rewrite length_take; lia|]. rewrite length_drop.
    pose proof (Nat.div_mod_eq (length a) 8). lia. }
  destruct r as [|r0 [|r1 [|r2 [|r3 [|r4 [|r5 [|r6 [|r7 [|r8 r]]]]]]]]]; try done.
  by exists r0, r1, r2, r3, r4, r5, r6, r7, rest.
Qed.

(** The length of the run is enough fuel, and more changes nothing. *)
Lemma pairwise_sum_fuel (fuel fuel' : nat) (a : list F) :
  length a ≤ fuel → length a ≤ fuel' → pairwise_sum fuel a = pairwise_sum fuel' a.
Proof.
  revert fuel' a. induction fuel as [|fuel IH]; intros fuel' a Hf Hf'.
  { destruct a; [|simpl in Hf; lia]. by destruct fuel'. }
  destruct fuel' as [|fuel'].
  { destruct a; [done|simpl in Hf'; lia]. }
  cbn [pairwise_sum].
  destruct (length a <? 8) eqn:E8; [done|].
  destruct (length a <=? 128) eqn:E128; [done|].
  apply Nat.ltb_ge in E8. apply Nat.leb_gt in E128.
  pose proof (Nat.div_mod_eq (length a) 2) as Hd.
  pose proof (Nat.mod_upper_bound (length a) 2 ltac:(lia)) as Hm2.
  pose proof (Nat.mod_upper_bound (length a / 2) 8 ltac:(lia)) as Hm8.
  f_equal; apply IH; rewrite ?length_take, ?length_drop; lia.
Qed.

End PairwiseFacts.

(** The order matters on binary64: nine terms, the first 1e16 and the others
    1.  Added in turn they give 1e16, each 1 being lost; numpy's eight running
    sums give 1e16 + 8. *)
Lemma sum_nine_terms :
  let terms := [10000000000000000; 1; 1; 1; 1; 1; 1; 1; 1]%float in
  sum terms = 10000000000000008%float
  ∧ foldl PrimFloat.add 0%float terms = 10000000000000000%float.
Proof. split; vm_compute; reflexivity. Qed.

(** ** The projection on binary64 *)






Section SplineFit.
Context {F : Type} `{Real64 F}.
Variable spline_t : Type.
Variable CubicSpline : list F → tensor3 F → result spline_t.

(** C7.  When the projection returns [P] and the radial grid has as many
    points and weights as [P] has shells, [spline_with_sph_harms] is the call
    of [CubicSpline] with the radial points as abscissae and, as data, the
    array whose entry (k, m, l) is P(k, m, l) / (r_k^2 * w_k). *)
Theorem spline_with_sph_harms_data
  (sph_harm : tensor3 F) (value_arrays weights : list F) (indices : list Z)
  (radial : OneDGrid.t F) (P : tensor3 F) :
  project_function_onto_spherical_expansion sph_harm value_arrays weights indices = Ok P →
  length (OneDGrid.points radial) = (t_shape P).1.1 →
  length (OneDGrid.weights radial) = length (OneDGrid.points radial) →
  ∃ Y, spline_with_sph_harms spline_t CubicSpline sph_harm value_arrays weights indices radial
       = CubicSpline (OneDGrid.points radial) Y
    ∧ t_shape Y = t_shape P
    ∧ ∀ (k m l : nat) (c r w : F),
        entry P k m l = Some c →
        OneDGrid.points radial !! k = Some r →
        OneDGrid.weights radial !! k = Some w →
        entry Y k m l = Some (f_div c (f_mul (f_mul r r) w)).
Proof.
  intros HP Hpts Hwts. pose proof (project_data_length _ _ _ _ _ HP) as Hdata.
  unfold spline_with_sph_harms. rewrite HP. cbn [mbind result_bind].
  unfold elementwise. rewrite length_fmap, Hwts. unfold broadcast_len at 1.
  rewrite Nat.eqb_refl. cbn [mbind result_bind].
  rewrite broadcast_with_same by (by rewrite length_fmap).
  unfold broadcast_first. destruct (t_shape P) as [[d0 d1] d2] eqn:Hshape.
  cbn [fst] in *. rewrite length_zip_with, length_fmap, Hwts, Nat.min_id, Hpts.
  unfold broadcast_len. rewrite Nat.eqb_refl. cbn [mbind result_bind].
  eexists. split; [reflexivity|]. split; [done|].
  intros k m l c r w Hc Hr Hw. unfold entry in *. cbn [t_data].
  rewrite broadcast_with_same
    by (rewrite length_zip_with, length_fmap, Hwts, Nat.min_id; lia).
  rewrite !lookup_zip_with, list_lookup_fmap, Hr, Hw.
  destruct (t_data P !! k) as [mat|]; [|done]. cbn.
  unfold matrix_map. rewrite list_lookup_fmap.
  destruct (mat !! m) as [row|]; [|done]. cbn.
  rewrite list_lookup_fmap, Hc. done.
Qed.

End SplineFit.

Lemma spline_with_sph_harms_data_witness :
  ∃ Y, spline_with_sph_harms (list float * tensor3 float) (λ x y, Ok (x, y))
         (Tensor3 (1, 1, 2) [[[1; 2]]]%float) [1; 1]%float [1; 1]%float [0; 1; 2]%Z
         (OneDGrid.Build [1; 2]%float [1; 4]%float)
       = Ok ([1; 2]%float, Y)
    ∧ entry Y 1 0 0 = Some (2 / (2 * 2 * 4))%float.
Proof.
  destruct (spline_with_sph_harms_data (list float * tensor3 float) (λ x y, Ok (x, y))
              (Tensor3 (1, 1, 2) [[[1; 2]]]%float) [1; 1]%float [1; 1]%float [0; 1; 2]%Z
              (OneDGrid.Build [1; 2]%float [1; 4]%float)
              (Tensor3 (2, 1, 1) [[[1]]; [[2]]]%float))
    as (Y & HY & _ & Hentry).
  - vm_compute. reflexivity.
  - reflexivity.
  - reflexivity.
  - exists Y. split; [exact HY|].
    apply (Hentry 1 0 0 2%float 2%float 4%float); reflexivity.
Defined.

(** ** ode.py *)

Section OdeFacts.
Context {F : Type} `{Real64 F} {power : Power F}.

(** C4, what the code does instead: the body reads [deriv_func_list], a name
    bound neither in the frame (the parameters are [coeffs],
    [deriv_transformation] and [r]) nor in the module, so every call raises
    NameError and no coefficient is returned. *)
Theorem transform_ode_from_derivs_name_error
  (coeffs : list (coefficient F)) (deriv_transformation : list (list F → list F))
  (r : list F) :
  _transform_ode_from_derivs coeffs deriv_transformation r
  = Raise (NameError "deriv_func_list").
Proof.
  unfold _transform_ode_from_derivs, load_name.
  rewrite !lookup_insert_ne by done. rewrite lookup_empty. reflexivity.
Qed.

Lemma transform_ode_from_rtransform_name_error
  (coeff_a : list (coefficient F)) (tf : BaseTransform F) (x : list F) :
  _transform_ode_from_rtransform coeff_a tf x = Raise (NameError "deriv_func_list").
Proof.
  unfold _transform_ode_from_rtransform, _transform_ode_from_derivs, load_name.
  rewrite !lookup_insert_ne by done. rewrite lookup_empty. reflexivity.
Qed.

(** [func] fails on every mesh and state, unless building the coefficient
    array fails first. *)
Lemma func_raises (coeffs : list (coefficient F)) (transform : option (BaseTransform F))
  (fx : list F → list F) (x : list F) (y : list (list F)) :
  ∃ e, func coeffs transform fx x y = Raise e.
Proof.
  unfold func. destruct transform as [tf|]; [by eexists|].
  destruct (_construct_coeff_array x coeffs); by eexists.
Qed.

Variable PPoly : Type.
Variable solve_bvp : bvp_call F → result (bvp_result PPoly).

(** Past the two argument checks, [solve_ode] draws the guess, calls the
    routine and reads the status. *)
Lemma solve_ode_unfold
  (x : list F) (fx : list F → list F) (coeffs : list (coefficient F))
  (bd_cond : list (Z * Z * F)) (transform : option (BaseTransform F))
  (tol : F) (max_nodes : Z) (initial_guess_y : option (list (list F))) (g : rng F) :
  Z.of_nat (length bd_cond) = (Z.of_nat (length coeffs) - 1)%Z →
  (Z.of_nat (length coeffs) - 1 ≤ 3)%Z →
  solve_ode PPoly solve_bvp x fx coeffs bd_cond transform tol max_nodes initial_guess_y g
  = let drawn := random_rand (length coeffs - 1) (length x) g in
    (match solve_bvp (solve_ode_call x fx coeffs bd_cond transform drawn.1) with
     | Raise e => Raise e
     | Ok res => if negb (status PPoly res =? 0)%Z
                 then Raise (ValueError (status_message (status PPoly res)))
                 else Ok (sol PPoly res)
     end, drawn.2).
Proof.
  intros Hbd Horder. unfold solve_ode.
  rewrite Hbd, Z.eqb_refl. cbn [negb].
  destruct (Z.ltb_spec 3 (Z.of_nat (length coeffs) - 1)) as [?|_]; [lia|].
  replace (Z.to_nat (Z.of_nat (length coeffs) - 1)) with (length coeffs - 1) by lia.
  destruct (random_rand (length coeffs - 1) (length x) g) as [y g'] eqn:Hr. cbn [fst snd].
  destruct (solve_bvp _) as [res|e]; [|done].
  by destruct (negb _).
Qed.

(** [solve_ode] reads neither [initial_guess_y] nor [tol] and [max_nodes]:
    whatever the caller passes for them, the run is the same. *)
Lemma solve_ode_initial_guess_unread
  (x : list F) (fx : list F → list F) (coeffs : list (coefficient F))
  (bd_cond : list (Z * Z * F)) (transform : option (BaseTransform F))
  (tol : F) (max_nodes : Z) (guess : list (list F)) (g : rng F) :
  solve_ode PPoly solve_bvp x fx coeffs bd_cond transform tol max_nodes (Some guess) g
  = solve_ode PPoly solve_bvp x fx coeffs bd_cond transform tol max_nodes None g.
Proof. reflexivity. Qed.

Lemma solve_ode_tol_max_nodes_unread
  (x : list F) (fx : list F → list F) (coeffs : list (coefficient F))
  (bd_cond : list (Z * Z * F)) (transform : option (BaseTransform F))
  (tol tol' : F) (max_nodes max_nodes' : Z)
  (initial_guess_y : option (list (list F))) (g : rng F) :
  solve_ode PPoly solve_bvp x fx coeffs bd_cond transform tol max_nodes initial_guess_y g
  = solve_ode PPoly solve_bvp x fx coeffs bd_cond transform tol' max_nodes'
      initial_guess_y g.
Proof. reflexivity. Qed.

(** C3.  For arguments that pass the two checks, when the external routine
    returns a result: a non-zero status makes [solve_ode] raise the ValueError
    whose message ends with that status, and status 0 makes it return the
    result's [sol]. *)
Theorem solve_ode_status
  (x : list F) (fx : list F → list F) (coeffs : list (coefficient F))
  (bd_cond : list (Z * Z * F)) (transform : option (BaseTransform F))
  (tol : F) (max_nodes : Z) (initial_guess_y : option (list (list F))) (g : rng F)
  (res : bvp_result PPoly) :
  Z.of_nat (length bd_cond) = (Z.of_nat (length coeffs) - 1)%Z →
  (Z.of_nat (length coeffs) - 1 ≤ 3)%Z →
  solve_bvp (solve_ode_call x fx coeffs bd_cond transform
               (random_rand (length coeffs - 1) (length x) g).1) = Ok res →
  let outcome :=
    (solve_ode PPoly solve_bvp x fx coeffs bd_cond transform tol max_nodes
       initial_guess_y g).1 in
  (status PPoly res ≠ 0%Z →
     outcome = Raise (ValueError ("The ode solver didn't converge, got status: "
                                  +:+ str (status PPoly res))))
  ∧ (status PPoly res = 0%Z → outcome = Ok (sol PPoly res)).
Proof.
  intros Hbd Horder Hres outcome. subst outcome.
  rewrite solve_ode_unfold by done. cbn [fst snd]. rewrite Hres.
  split; intros Hst.
  - apply Z.eqb_neq in Hst. rewrite Hst. reflexivity.
  - rewrite Hst. reflexivity.
Qed.

End OdeFacts.

Lemma solve_ode_status_witness :
  (solve_ode unit (λ _, Ok {| status := 2; sol := tt |}) oscillator_mesh oscillator_fx
     oscillator_coeffs oscillator_bd_cond None (1 / 10000)%float 5000 None harmonic_tape).1
  = Raise (ValueError "The ode solver didn't converge, got status: 2").
Proof.
  apply (solve_ode_status unit (λ _, Ok {| status := 2; sol := tt |}) oscillator_mesh
           oscillator_fx oscillator_coeffs oscillator_bd_cond None (1 / 10000)%float 5000
           None harmonic_tape {| status := 2; sol := tt |});
    [reflexivity|simpl; lia|reflexivity|simpl; lia].
Defined.

Section OdeIntended.
Context {F : Type} `{Real64 F} {power : Power F}.

(** With the two names bound to the parameters, the statements that follow
    compute the chain-rule coefficients; here at one mesh point, for constant
    coefficients of a third-order equation. *)
Lemma transformed_coeffs_at_point (a0 a1 a2 a3 g1 g2 g3 x : F) :
  transformed_coeffs [Number a0; Number a1; Number a2; Number a3] [[g1]; [g2]; [g3]] [x]
  = Ok [ [f_add f_zero (f_add f_zero a0)];
         [f_add (f_add (f_add f_zero (f_mul (f_add f_zero a1) g1))
                       (f_mul (f_add f_zero a2) g2))
                (f_mul (f_add f_zero a3) g3)];
         [f_add (f_add f_zero (f_mul (f_add f_zero a2) (f_mul g1 g1)))
                (f_mul (f_mul (f_mul (f_add f_zero a3) (f_of_Z 3)) g1) g2)];
         [f_add f_zero (f_mul (f_add f_zero a3) (f_power g1 3))] ].
Proof. reflexivity. Qed.

(** One equation of order one: the array [fx] refers to is overwritten with
    [fx - b0 * y0], the same values the quotient is computed from. *)
Lemma rearrange_order_one (y0 b0 b1 a : list F) (fx : loc) (h : store F) :
  h !! fx = Some a →
  length y0 = length a → length b0 = length a → length b1 = length a →
  _rearrange_to_explicit_ode [y0] [b0; b1] fx h
  = (Ok (zip_with f_div (zip_with f_sub a (zip_with f_mul b0 y0)) b1),
     <[fx := zip_with f_sub a (zip_with f_mul b0 y0)]> h).
Proof.
  unfold store, loc in *.
  intros Hfx Hy Hb0 Hb1. unfold _rearrange_to_explicit_ode.
  change (slice None (Some (-1)%Z) [b0; b1]) with [b0].
  cbn [rearrange_loop]. change (getitem [y0] (Z.of_nat 0)) with (Ok y0).
  cbn [mbind result_bind]. unfold elementwise at 1. rewrite Hb0, Hy.
  unfold broadcast_len at 1. rewrite Nat.eqb_refl.
  rewrite broadcast_with_same by lia.
  unfold isub. unfold store, loc in *. rewrite Hfx. unfold inplace.
  rewrite length_zip_with, Hb0, Hy, Nat.min_id, Nat.eqb_refl. cbn [orb].
  rewrite broadcast_with_same by (rewrite length_zip_with; lia).
  rewrite lookup_insert_eq.
  change (getitem [b0; b1] (-1)) with (Ok b1). cbn [mbind result_bind].
  unfold elementwise. rewrite !length_zip_with, Hb0, Hy, Hb1, !Nat.min_id.
  unfold broadcast_len. rewrite Nat.eqb_refl.
  rewrite broadcast_with_same by (rewrite !length_zip_with; lia). done.
Qed.

End OdeIntended.

(** Over the exact reals these are the coefficients of the chain rule, and
    the identity transform (g' = 1, g'' = g''' = 0) changes nothing. *)
Lemma transformed_coeffs_chain_rule (a0 a1 a2 a3 g1 g2 g3 x : R) :
  transformed_coeffs [Number a0; Number a1; Number a2; Number a3] [[g1]; [g2]; [g3]] [x]
  = Ok [ [a0]; [a1 * g1 + a2 * g2 + a3 * g3];
         [a2 * (g1 * g1) + 3 * a3 * g1 * g2]; [a3 * (g1 * g1 * g1)] ]%R.
Proof.
  rewrite transformed_coeffs_at_point. cbn [f_add f_mul f_zero f_of_Z R_Real64].
  change (f_power g1 3) with (g1 * (g1 * (g1 * 1)))%R.
  f_equal. repeat match goal with |- _ :: _ = _ :: _ => f_equal end; ring.
Qed.

Lemma transformed_coeffs_identity (a0 a1 a2 a3 x : R) :
  transformed_coeffs [Number a0; Number a1; Number a2; Number a3]
    [[1]; [0]; [0]]%R [x]
  = Ok [[a0]; [a1]; [a2]; [a3]].
Proof.
  rewrite transformed_coeffs_chain_rule.
  f_equal. repeat match goal with |- _ :: _ = _ :: _ => f_equal end; ring.
Qed.

(** ** The solver on concrete runs *)


(** C1, what the code does instead: the caller supplies the all-zero guess,
    and the routine still receives the values drawn from the generator.  Two
    runs with identical arguments get different guesses (1/2, 1/3, ... then
    1/6, 1/7, ...) and return different results. *)
Theorem solve_ode_supplied_guess_unused :
  let run g :=
    solve_ode (list (list float)) bvp_returns_guess oscillator_mesh oscillator_fx
      oscillator_coeffs oscillator_bd_cond None (1 / 10000)%float 5000 (Some zero_guess) g in
  let first := run harmonic_tape in
  let second := run first.2 in
  first.1 = Ok [[1 / 2; 1 / 3]; [1 / 4; 1 / 5]]%float
  ∧ second.1 = Ok [[1 / 6; 1 / 7]; [1 / 8; 1 / 9]]%float
  ∧ first.1 ≠ second.1
  ∧ first.1 ≠ Ok zero_guess.
Proof.
  split; [vm_compute; reflexivity|]. split; [vm_compute; reflexivity|].
  assert (Hhead : ∀ r1 r2 : result (list (list float)),
            (match r1 with Ok ((a :: _) :: _) => PrimFloat.is_zero (PrimFloat.sub a 0.5) | _ => false end)
            ≠ (match r2 with Ok ((a :: _) :: _) => PrimFloat.is_zero (PrimFloat.sub a 0.5) | _ => false end)
            → r1 ≠ r2) by (intros r1 r2 Hne ->; done).
  split; apply Hhead; vm_compute; discriminate.
Qed.

(** C2, what the code does instead: called with [tol = 1e-8] and
    [max_nodes = 10], [solve_ode] passes [tol = 1e-4] to the routine and no
    [max_nodes] at all. *)
Theorem solve_ode_keywords_unused :
  (solve_ode (option float * option Z) bvp_returns_keywords oscillator_mesh oscillator_fx
     oscillator_coeffs oscillator_bd_cond None (1 / 100000000)%float 10 None harmonic_tape).1
  = Ok (Some (1 / 10000)%float, None).
Proof. vm_compute. reflexivity. Qed.

(** C10, what the code does instead: with y = [[3]], coeff_b = [[2], [1]]
    and fx = [1], the call returns [-5] and the caller's array [fx] holds
    [-5] afterwards. *)
Theorem rearrange_to_explicit_ode_overwrites_fx :
  let before : store float := {[ 0 := [1%float] ]} in
  let run := _rearrange_to_explicit_ode [[3%float]] [[2%float]; [1%float]] 0 before in
  before !! 0 = Some [1%float]
  ∧ run.1 = Ok [(-5)%float]
  ∧ run.2 !! 0 = Some [(-5)%float].
Proof. vm_compute. done. Qed.

(* ================================================================== *)
(** * Part III: further properties of the two modules *)
(* ================================================================== *)

(** ** interpolate.py: the parameter lists and the complex harmonics *)

Section MoreHarmonics.
Context {F C : Type} `{Real64 F} `{Complex128 F C}.
Variable sph_harm : Z → Z → F → F → C.

(** Where Python's index [m] lands on the order axis of length
    [2 l_max + 1]. *)
Lemma order_index (l_max m : Z) :
  (0 ≤ l_max)%Z → (- l_max ≤ m ≤ l_max)%Z →
  index (Z.to_nat (2 * l_max + 1)) m
  = Some (Z.to_nat (if (m <? 0)%Z then 2 * l_max + 1 + m else m)).
Proof.
  intros Hl Hm. unfold index.
  destruct (Z.leb_spec 0 m), (Z.ltb_spec m (Z.of_nat (Z.to_nat (2 * l_max + 1)))),
    (Z.leb_spec (- Z.of_nat (Z.to_nat (2 * l_max + 1))) m), (Z.ltb_spec m 0);
    simpl; try lia; f_equal; lia.
Qed.

Lemma m_list_length (l_max : Z) :
  (0 ≤ l_max)%Z → length (_generate_sph_paras l_max).2 = Z.to_nat (2 * l_max + 1).
Proof.
  intros Hl. unfold _generate_sph_paras. cbn [snd].
  rewrite length_app, !arange_length. lia.
Qed.

Lemma m_list_lookup_order (l_max m : Z) :
  (0 ≤ l_max)%Z → (- l_max ≤ m ≤ l_max)%Z →
  (_generate_sph_paras l_max).2
    !! Z.to_nat (if (m <? 0)%Z then 2 * l_max + 1 + m else m) = Some m.
Proof.
  intros Hl Hm. destruct (Z.ltb_spec m 0); cbv iota.
  - replace (2 * l_max + 1 + m)%Z with (2 * l_max + 1 - (- m))%Z by lia.
    rewrite m_list_lookup_negative by lia. f_equal. lia.
  - apply m_list_lookup_nonneg; lia.
Qed.

(** X1.  The order axis is laid out so that Python's own indexing finds an
    order: for [l_max >= 0] the degree list is [0 .. l_max], the order list has
    [2 l_max + 1] entries, and [m_list[m]] is [m] for every
    [-l_max <= m <= l_max], a negative [m] counting from the end. *)
Theorem generate_sph_paras_indexing (l_max : Z) :
  (0 ≤ l_max)%Z →
  length (_generate_sph_paras l_max).1 = Z.to_nat (l_max + 1)
  ∧ length (_generate_sph_paras l_max).2 = Z.to_nat (2 * l_max + 1)
  ∧ (∀ l : Z, (0 ≤ l ≤ l_max)%Z → getitem (_generate_sph_paras l_max).1 l = Ok l)
  ∧ (∀ m : Z, (- l_max ≤ m ≤ l_max)%Z → getitem (_generate_sph_paras l_max).2 m = Ok m).
Proof.
  intros Hl. split; [|split; [|split]].
  - unfold _generate_sph_paras. cbn [fst]. rewrite arange_length. lia.
  - by apply m_list_length.
  - intros l Hl'. unfold getitem.
    assert (Hlen : length (_generate_sph_paras l_max).1 = Z.to_nat (l_max + 1)).
    { unfold _generate_sph_paras. cbn [fst]. rewrite arange_length. lia. }
    rewrite Hlen. unfold index.
    destruct (Z.leb_spec 0 l), (Z.ltb_spec l (Z.of_nat (Z.to_nat (l_max + 1))));
      cbn [andb]; try lia.
    by rewrite l_list_lookup.
  - intros m Hm. unfold getitem. rewrite m_list_length, order_index by done.
    by rewrite m_list_lookup_order.
Qed.

Lemma matrix_wf_map {A B} (f : A → B) (d1 d2 : nat) (m : list (list A)) :
  matrix_wf d1 d2 m → matrix_wf d1 d2 (matrix_map f m).
Proof.
  intros [Hlen Hrows]. unfold matrix_wf, matrix_map. split; [by rewrite length_fmap|].
  apply Forall_fmap. eapply Forall_impl; [exact Hrows|].
  intros row Hrow. simpl. by rewrite length_fmap.
Qed.

Lemma harmonics_data_wf (l_max : Z) (theta phi : list F) :
  Forall (matrix_wf (length (_generate_sph_paras l_max).1)
            (length (zip_with pair theta phi)))
    (harmonics_data sph_harm l_max theta phi).
Proof.
  unfold harmonics_data. apply Forall_fmap, Forall_forall. intros mi _.
  split; [by rewrite length_fmap|].
  apply Forall_fmap, Forall_forall. intros li _. simpl. by rewrite length_fmap.
Qed.

(** X2.  For [l_max >= 0] and angle arrays of one length the complex array is
    well formed with shape (2 l_max + 1, l_max + 1, N), and indexing it the
    Python way, [sph_h[m, l, n]] with [-l_max <= m <= l_max], reads the
    harmonic of order [m] and degree [l] at the n-th angle pair. *)
Theorem generate_sph_harms_indexing (l_max : Z) (theta phi : list F) :
  (0 ≤ l_max)%Z → length theta = length phi →
  ∃ T, generate_sph_harms sph_harm l_max theta phi = Ok T
    ∧ t_shape T = (Z.to_nat (2 * l_max + 1), Z.to_nat (l_max + 1), length theta)
    ∧ tensor3_wf T
    ∧ ∀ (m l : Z) (n : nat) (t p : F),
        (- l_max ≤ m ≤ l_max)%Z → (0 ≤ l ≤ l_max)%Z →
        theta !! n = Some t → phi !! n = Some p →
        ∃ i, index (Z.to_nat (2 * l_max + 1)) m = Some i
          ∧ entry T i (Z.to_nat l) n = Some (sph_harm m l t p).
Proof.
  intros Hl Hlen. rewrite generate_sph_harms_data by done.
  eexists. split; [reflexivity|]. split; [cbn [t_shape]; f_equal; f_equal; lia|].
  split.
  { unfold tensor3_wf. cbn [t_shape t_data]. split.
    - unfold harmonics_data. rewrite length_fmap, m_list_length by done. lia.
    - pose proof (harmonics_data_wf l_max theta phi) as Hwf.
      replace (length (_generate_sph_paras l_max).1) with (Z.to_nat (l_max + 1)) in Hwf
        by (unfold _generate_sph_paras; cbn [fst]; rewrite arange_length; lia).
      rewrite length_zip_with, <- Hlen, Nat.min_id in Hwf. exact Hwf. }
  intros m l n t p Hm Hl' Ht Hp. eexists. split; [by apply order_index|].
  pose proof (m_list_lookup_order l_max m Hl Hm) as Hmi.
  pose proof (l_list_lookup l_max l Hl') as Hli.
  unfold entry, harmonics_data. cbn [t_data].
  destruct (_generate_sph_paras l_max) as [ls ms]. cbn [fst snd] in *.
  rewrite list_lookup_fmap, Hmi. simpl.
  rewrite list_lookup_fmap, Hli. simpl.
  rewrite list_lookup_fmap, lookup_zip_with, Ht. simpl. by rewrite Hp.
Qed.

End MoreHarmonics.

Lemma generate_sph_paras_indexing_witness :
  getitem (_generate_sph_paras 2).2 (-1) = Ok (-1)%Z.
Proof.
  destruct (generate_sph_paras_indexing 2 ltac:(lia)) as (_ & _ & _ & Hm).
  apply Hm. lia.
Defined.

Lemma generate_sph_harms_indexing_witness :
  ∃ T, generate_sph_harms tagged_harmonic 1 [0%R] [0%R] = Ok T
    ∧ entry T 2 1 0 = Some (tagged_harmonic (-1) 1 0%R 0%R).
Proof.
  destruct (generate_sph_harms_indexing tagged_harmonic 1 [0%R] [0%R])
    as (T & HT & _ & _ & Hentry); [lia|reflexivity|].
  exists T. split; [exact HT|].
  destruct (Hentry (-1)%Z 1%Z 0 0%R 0%R ltac:(lia) ltac:(lia) eq_refl eq_refl)
    as (i & Hi & He).
  injection Hi as <-. exact He.
Defined.

(** ** interpolate.py: the conversion on arrays of any shape *)

Section MoreConversion.
Context {F C : Type} `{Real64 F} `{Complex128 F C}.
Variable sph_harm : Z → Z → F → F → C.

Lemma zeros3_wf (d0 d1 d2 : nat) : Forall (matrix_wf d1 d2) (zeros3 (F:=F) d0 d1 d2).
Proof.
  unfold zeros3. apply Forall_replicate. split; [apply length_replicate|].
  apply Forall_replicate, length_replicate.
Qed.

Lemma setslice_Forall {A} (P : A → Prop) (start stop : option Z) (v l : list A) :
  Forall P v → Forall P l → Forall P (setslice start stop v l).
Proof.
  intros Hv Hl. unfold setslice.
  apply Forall_app; split; [by apply Forall_take|].
  apply Forall_app; split; [done|by apply Forall_drop].
Qed.

Lemma slice_Forall {A} (P : A → Prop) (start stop : option Z) (l : list A) :
  Forall P l → Forall P (slice start stop l).
Proof. intros Hl. unfold slice. by apply Forall_take, Forall_drop. Qed.

Lemma slice_same_length {A B} (start stop : option Z) (l : list A) (l' : list B) :
  length l = length l' →
  length (slice start stop l)
  = slice_hi (length l') stop - slice_lo (length l') start.
Proof.
  intros Hlen. rewrite slice_length by apply slice_hi_le. by rewrite Hlen.
Qed.

(** On an array with at least one row along the order axis the conversion
    returns, keeps the shape and the number of rows, and row 0 is the cast of
    the input's row 0 whatever the slices wrote before. *)
Lemma convert_nonempty (shape : nat * nat * nat) (D : list (list (list C))) :
  length D = shape.1.1 → D ≠ [] →
  ∃ rows, _convert_ylm_to_zlm (Tensor3 shape D) = Ok (Tensor3 shape rows)
    ∧ length rows = length D
    ∧ rows !! 0 = matrix_map c_real <$> D !! 0
    ∧ (Forall (matrix_wf shape.1.2 shape.2) D → Forall (matrix_wf shape.1.2 shape.2) rows).
Proof.
  destruct shape as [[ms ls] arrs]. cbn [fst snd]. intros Hlen Hne.
  unfold _convert_ylm_to_zlm. cbn [t_shape t_data].
  destruct D as [|row0 D'] eqn:ED; [done|]. rewrite <- ED in *.
  assert (Hget : getitem D 0 = Ok row0) by (unfold getitem, index; rewrite ED; done).
  rewrite Hget. cbn [mbind result_bind].
  set (s0 := zeros3 ms ls arrs).
  set (v1 := matrix_map zlm_plus <$> slice (Some 1%Z) (Some (Z.of_nat ls)) D).
  set (s1 := setslice (Some 1%Z) (Some (Z.of_nat ls)) v1 s0).
  set (v2 := matrix_map zlm_minus <$> slice (Some (- Z.of_nat ls + 1)%Z) None D).
  set (s2 := setslice (Some (- Z.of_nat ls + 1)%Z) None v2 s1).
  assert (Hs0 : length s0 = length D) by (unfold s0; rewrite zeros3_length; done).
  assert (Hs1 : length s1 = length D).
  { unfold s1. rewrite setslice_length; [done|].
    unfold v1. rewrite length_fmap. by apply slice_same_length. }
  assert (Hs2 : length s2 = length D).
  { unfold s2. rewrite setslice_length; [done|].
    unfold v2. rewrite length_fmap. by apply slice_same_length. }
  eexists. split; [reflexivity|]. split; [by rewrite length_insert|]. split.
  - rewrite list_lookup_insert_eq by (rewrite Hs2, ED; simpl; lia). by rewrite ED.
  - intros Hwf. apply Forall_insert.
    + apply setslice_Forall; [|apply setslice_Forall; [|apply zeros3_wf]].
      * apply Forall_fmap. eapply Forall_impl; [by apply slice_Forall|].
        intros m Hm. by apply matrix_wf_map.
      * apply Forall_fmap. eapply Forall_impl; [by apply slice_Forall|].
        intros m Hm. by apply matrix_wf_map.
    + apply matrix_wf_map. rewrite ED in Hwf. by inversion Hwf.
Qed.

(** X3.  [_convert_ylm_to_zlm] on a well-formed complex array of any shape:
    with no row along the order axis it raises IndexError (the read of
    [sp_harm_arrs[0]]); otherwise it returns a well-formed real array of the
    same shape whose row 0 is the real part of the input's row 0. *)
Theorem convert_ylm_to_zlm_any_shape (t : tensor3 C) :
  tensor3_wf t →
  match t_data t with
  | [] => _convert_ylm_to_zlm t = Raise (IndexError "index out of bounds")
  | row0 :: _ =>
      ∃ T, _convert_ylm_to_zlm t = Ok T
        ∧ t_shape T = t_shape t
        ∧ tensor3_wf T
        ∧ t_data T !! 0 = Some (matrix_map c_real row0)
  end.
Proof.
  destruct t as [[[ms ls] arrs] D]. unfold tensor3_wf. cbn [t_shape t_data].
  intros [Hlen Hwf]. destruct D as [|row0 D'] eqn:ED.
  - unfold _convert_ylm_to_zlm. reflexivity.
  - rewrite <- ED in *.
    destruct (convert_nonempty (ms, ls, arrs) D) as (rows & -> & Hrows & Hzero & Hkeep).
    { done. }
    { by rewrite ED. }
    eexists. split; [reflexivity|]. split; [done|]. cbn [t_shape t_data]. split.
    + split; [lia|]. by apply Hkeep.
    + rewrite Hzero, ED. done.
Qed.

(** What [generate_sph_harms] returns, whatever [l_max]: the shape follows the
    two parameter lists and the broadcast of the angles. *)
Lemma generate_sph_harms_returns (l_max : Z) (theta phi : list F) (n : nat) :
  broadcast_len (length theta) (length phi) = Some n →
  ∃ D, generate_sph_harms sph_harm l_max theta phi
       = Ok (Tensor3 (length (_generate_sph_paras l_max).2,
                      length (_generate_sph_paras l_max).1, n) D)
    ∧ length D = length (_generate_sph_paras l_max).2
    ∧ Forall (matrix_wf (length (_generate_sph_paras l_max).1) n) D.
Proof.
  intros Hn. unfold generate_sph_harms.
  destruct (_generate_sph_paras l_max) as [l m]. cbn [fst snd].
  destruct (elementwise_broadcast pair theta phi n Hn) as [-> Hlen].
  cbn [mbind result_bind]. rewrite Hlen.
  eexists. split; [reflexivity|]. split; [by rewrite length_fmap|].
  apply Forall_fmap, Forall_forall. intros mi _. split; [by rewrite length_fmap|].
  apply Forall_fmap, Forall_forall. intros li _. simpl. by rewrite length_fmap.
Qed.

Lemma tensor3_map_wf {A B} (f : A → B) (t : tensor3 A) :
  tensor3_wf t → tensor3_wf (tensor3_map f t).
Proof.
  unfold tensor3_wf, tensor3_map. cbn [t_shape t_data].
  destruct (t_shape t) as [[d0 d1] d2]. intros [Hlen Hwf].
  split; [by rewrite length_fmap|].
  apply Forall_fmap. eapply Forall_impl; [exact Hwf|].
  intros m Hm. by apply matrix_wf_map.
Qed.

(** For [l_max >= 0] the real harmonics exist as soon as the angles
    broadcast, as a well-formed array. *)
Lemma real_harmonics_wf (l_max : Z) (theta phi : list F) (n : nat) :
  (0 ≤ l_max)%Z → broadcast_len (length theta) (length phi) = Some n →
  ∃ T, generate_real_sph_harms sph_harm l_max theta phi = Ok T
    ∧ t_shape T = (Z.to_nat (2 * l_max + 1), Z.to_nat (l_max + 1), n)
    ∧ tensor3_wf T.
Proof.
  intros Hl Hn. unfold generate_real_sph_harms.
  destruct (generate_sph_harms_returns l_max theta phi n Hn) as (D & -> & HD & Hwf).
  cbn [mbind result_bind].
  assert (Hm : length (_generate_sph_paras l_max).2 = Z.to_nat (2 * l_max + 1))
    by (by apply m_list_length).
  assert (Hll : length (_generate_sph_paras l_max).1 = Z.to_nat (l_max + 1)).
  { unfold _generate_sph_paras. cbn [fst]. rewrite arange_length. lia. }
  rewrite Hm, Hll in *.
  destruct (convert_nonempty (Z.to_nat (2 * l_max + 1), Z.to_nat (l_max + 1), n) D)
    as (rows & -> & Hrows & _ & Hkeep).
  { done. }
  { intros ->. simpl in HD. lia. }
  cbn [mbind result_bind]. eexists. split; [reflexivity|]. split; [done|].
  apply tensor3_map_wf. unfold tensor3_wf. cbn [t_shape t_data].
  split; [lia|]. by apply Hkeep.
Qed.

(** X4.  For [l_max >= 0], [generate_real_sph_harms] fails only on angle arrays
    that do not broadcast (lengths that differ, neither being 1); otherwise it
    returns a well-formed array of shape (2 l_max + 1, l_max + 1, n), [n] the
    broadcast length. *)
Theorem generate_real_sph_harms_total (l_max : Z) (theta phi : list F) :
  (0 ≤ l_max)%Z →
  match broadcast_len (length theta) (length phi) with
  | Some n =>
      ∃ T, generate_real_sph_harms sph_harm l_max theta phi = Ok T
        ∧ t_shape T = (Z.to_nat (2 * l_max + 1), Z.to_nat (l_max + 1), n)
        ∧ tensor3_wf T
  | None =>
      generate_real_sph_harms sph_harm l_max theta phi = Raise (NumpyError "broadcast")
  end.
Proof.
  intros Hl. destruct (broadcast_len (length theta) (length phi)) as [n|] eqn:Hn.
  - by apply real_harmonics_wf.
  - unfold generate_real_sph_harms, generate_sph_harms.
    destruct (_generate_sph_paras l_max) as [l m]. unfold elementwise. by rewrite Hn.
Qed.

End MoreConversion.

Lemma convert_ylm_to_zlm_any_shape_witness :
  ∃ T, _convert_ylm_to_zlm (Tensor3 (1, 2, 1) [[[(1, 2)]; [(3, 4)]]]%R) = Ok T
    ∧ t_data T !! 0 = Some [[1]; [3]]%R.
Proof.
  destruct (convert_ylm_to_zlm_any_shape (Tensor3 (1, 2, 1) [[[(1, 2)]; [(3, 4)]]]%R))
    as (T & HT & _ & _ & Hrow).
  - split; [reflexivity|]. repeat constructor.
  - exists T. split; [exact HT|exact Hrow].
Defined.

Lemma generate_real_sph_harms_total_witness :
  generate_real_sph_harms tagged_harmonic 2 [0; 1]%R [0; 1; 2]%R
  = Raise (NumpyError "broadcast").
Proof. apply (generate_real_sph_harms_total tagged_harmonic 2 [0; 1]%R [0; 1; 2]%R). lia. Defined.

(** ** interpolate.py: more on the projection *)

Section MoreProjection.
Context {F : Type} `{Real64 F}.

(** Every entry the projection returns has gone through [np.nan_to_num]. *)
Lemma project_cleaned (sph_harm : tensor3 F) (value_arrays weights : list F)
  (indices : list Z) (T : tensor3 F) (k m l : nat) (x : F) :
  project_function_onto_spherical_expansion sph_harm value_arrays weights indices = Ok T →
  entry T k m l = Some x → ∃ y, x = f_nan_to_num y.
Proof.
  unfold project_function_onto_spherical_expansion.
  destruct (broadcast_last f_mul sph_harm value_arrays) as [p1|]; [|done].
  cbn [mbind result_bind].
  destruct (broadcast_last f_mul p1 weights) as [p2|]; [|done].
  cbn [mbind result_bind].
  destruct (stack _ _ _) as [S|]; [|done]. cbn [mbind result_bind].
  intros [= <-]. rewrite entry_map. destruct (entry S k m l) as [y|]; [|done].
  intros [= <-]. by exists y.
Qed.

(** X5.  An index list with fewer than two offsets describes no shell: the
    loop builds nothing and [np.stack] refuses the empty list, so the
    projection raises (unless the product of the three arrays already failed
    to broadcast). *)
Theorem project_needs_a_shell (sph_harm : tensor3 F) (value_arrays weights : list F)
  (indices : list Z) :
  length indices ≤ 1 →
  project_function_onto_spherical_expansion sph_harm value_arrays weights indices
  = Raise (NumpyError "stack")
  ∨ project_function_onto_spherical_expansion sph_harm value_arrays weights indices
    = Raise (NumpyError "broadcast").
Proof.
  intros Hlen. unfold project_function_onto_spherical_expansion.
  destruct (broadcast_last f_mul sph_harm value_arrays) as [p1|e1] eqn:H1.
  - cbn [mbind result_bind].
    destruct (broadcast_last f_mul p1 weights) as [p2|e2] eqn:H2.
    + cbn [mbind result_bind]. left. unfold range.
      replace (Z.to_nat (Z.of_nat (length indices) - 1)) with 0 by lia. reflexivity.
    + right. cbn [mbind result_bind]. f_equal.
      unfold broadcast_last in H2. destruct (t_shape p1) as [[d0 d1] d2].
      destruct (broadcast_len d2 (length weights)); congruence.
  - right. cbn [mbind result_bind]. f_equal.
    unfold broadcast_last in H1. destruct (t_shape sph_harm) as [[d0 d1] d2].
    destruct (broadcast_len d2 (length value_arrays)); congruence.
Qed.

End MoreProjection.

Lemma project_needs_a_shell_witness :
  project_function_onto_spherical_expansion
    (Tensor3 (1, 1, 2) [[[1; 2]]]%float) [1; 1]%float [1; 1]%float [0%Z]
  = Raise (NumpyError "stack").
Proof.
  destruct (project_needs_a_shell (Tensor3 (1, 1, 2) [[[1; 2]]]%float)
              [1; 1]%float [1; 1]%float [0%Z]) as [Hs|Hb]; [simpl; lia|exact Hs|].
  vm_compute in Hb. discriminate Hb.
Defined.

(** *** binary64: nothing that is not finite comes out *)

Lemma float_nan_to_num_finite (x : float) :
  PrimFloat.is_nan (float_nan_to_num x) = false
  ∧ PrimFloat.is_infinity (float_nan_to_num x) = false.
Proof.
  unfold float_nan_to_num.
  destruct (PrimFloat.is_nan x) eqn:En; [by vm_compute|].
  destruct (PrimFloat.is_infinity x) eqn:Ei; [|done].
  destruct (PrimFloat.ltb x 0); by vm_compute.
Qed.

(** X6.  On binary64 every entry of a returned projection is finite: no NaN
    and no infinity survives the final [np.nan_to_num], whatever the harmonics,
    values and weights contain. *)
Theorem project_entries_finite
  (sph_harm : tensor3 float) (value_arrays weights : list float) (indices : list Z)
  (T : tensor3 float) (k m l : nat) (x : float) :
  project_function_onto_spherical_expansion sph_harm value_arrays weights indices = Ok T →
  entry T k m l = Some x →
  PrimFloat.is_nan x = false ∧ PrimFloat.is_infinity x = false.
Proof.
  intros HT Hx. destruct (project_cleaned _ _ _ _ _ _ _ _ _ HT Hx) as [y ->].
  apply float_nan_to_num_finite.
Qed.

Lemma project_entries_finite_witness :
  PrimFloat.is_nan 0%float = false ∧ PrimFloat.is_infinity 0%float = false.
Proof.
  apply (project_entries_finite (Tensor3 (1, 1, 2) [[[infinity; 1]]]%float)
           [0; 1]%float [1; 1]%float [0; 1; 2]%Z
           (Tensor3 (2, 1, 1) [[[0]]; [[1]]]%float) 0 0 0 0%float).
  - vm_compute. reflexivity.
  - reflexivity.
Defined.

(** *** exact arithmetic: np.sum is the sum *)

Lemma foldl_Rplus_acc (a : R) (l : list R) :
  foldl Rplus a l = (a + foldl Rplus 0 l)%R.
Proof.
  revert a. induction l as [|x l IH]; intros a; simpl; [lra|].
  rewrite (IH (a + x)%R), (IH (0 + x)%R). lra.
Qed.

Lemma foldl_Rplus_app (l1 l2 : list R) :
  foldl Rplus 0%R (l1 ++ l2) = (foldl Rplus 0 l1 + foldl Rplus 0 l2)%R.
Proof. by rewrite foldl_app, foldl_Rplus_acc. Qed.

Lemma foldl_Rplus_zip (r x : list R) :
  length r = length x →
  foldl Rplus 0%R (zip_with Rplus r x) = (foldl Rplus 0 r + foldl Rplus 0 x)%R.
Proof.
  revert x. induction r as [|a r IH]; intros [|b x] Hl; simplify_eq/=; [lra|].
  rewrite (foldl_Rplus_acc (0 + (a + b))), (foldl_Rplus_acc (0 + a)),
    (foldl_Rplus_acc (0 + b)), IH by done. lra.
Qed.

Lemma accumulate8_R (g : nat) (r a : list R) :
  length r = 8 → 8 * g ≤ length a →
  (foldl Rplus 0 (accumulate8 g r a).1 + foldl Rplus 0 (accumulate8 g r a).2
   = foldl Rplus 0 r + foldl Rplus 0 a)%R.
Proof.
  revert r a. induction g as [|g IH]; intros r a Hr Ha; [done|].
  cbn [accumulate8]. rewrite IH.
  - cbn [f_add R_Real64]. rewrite foldl_Rplus_zip by (rewrite length_take; lia).
    rewrite <- (take_drop 8 a) at 3. rewrite foldl_Rplus_app. lra.
  - rewrite length_zip_with, length_take. lia.
  - rewrite length_drop. lia.
Qed.

Lemma pairwise_block_R (a : list R) :
  8 ≤ length a → pairwise_block a = foldl Rplus 0%R a.
Proof.
  intros Ha.
  destruct (pairwise_block_sums a Ha)
    as (r0 & r1 & r2 & r3 & r4 & r5 & r6 & r7 & rest & Hacc & ->).
  assert (Hsum := accumulate8_R (length a / 8 - 1) (take 8 a) (drop 8 a)).
  rewrite Hacc in Hsum. cbn [fst snd] in Hsum.
  assert (Ha8 : 8 * (length a / 8 - 1) ≤ length (drop 8 a)).
  { rewrite length_drop. pose proof (Nat.div_mod_eq (length a) 8). lia. }
  specialize (Hsum ltac:(rewrite length_take; lia) Ha8).
  rewrite <- (foldl_Rplus_app (take 8 a) (drop 8 a)), take_drop in Hsum.
  cbn [f_add R_Real64]. rewrite foldl_Rplus_acc, <- Hsum.
  simpl. lra.
Qed.

Lemma pairwise_sum_R (fuel : nat) (a : list R) :
  length a ≤ fuel → pairwise_sum fuel a = foldl Rplus 0%R a.
Proof.
  revert a. induction fuel as [|fuel IH]; intros a Hf.
  { destruct a; [done|simpl in Hf; lia]. }
  cbn [pairwise_sum].
  destruct (length a <? 8) eqn:E8; [done|].
  apply Nat.ltb_ge in E8.
  destruct (length a <=? 128) eqn:E128; [by apply pairwise_block_R|].
  apply Nat.leb_gt in E128.
  pose proof (Nat.div_mod_eq (length a) 2) as Hd.
  pose proof (Nat.mod_upper_bound (length a) 2 ltac:(lia)) as Hm2.
  pose proof (Nat.mod_upper_bound (length a / 2) 8 ltac:(lia)) as Hm8.
  rewrite !IH by (rewrite ?length_take, ?length_drop; lia).
  cbn [f_add R_Real64]. rewrite <- foldl_Rplus_app. by rewrite take_drop.
Qed.

(** Over the reals the order of the additions is immaterial: [np.sum] is the
    sum of the terms. *)
Lemma sum_R_foldl (l : list R) : sum l = foldl Rplus 0%R l.
Proof.
  unfold sum. rewrite pairwise_sum_R by done. cbn [f_add f_zero R_Real64]. lra.
Qed.

Lemma sum_R_acc (a : R) (l : list R) : foldl Rplus a l = (a + sum l)%R.
Proof. rewrite sum_R_foldl. apply foldl_Rplus_acc. Qed.

Lemma sum_R_app (l1 l2 : list R) : sum (l1 ++ l2) = (sum l1 + sum l2)%R.
Proof. rewrite !sum_R_foldl. apply foldl_Rplus_app. Qed.

Lemma sum_R_cons (x : R) (l : list R) : sum (x :: l) = (x + sum l)%R.
Proof. rewrite !sum_R_foldl. simpl. rewrite foldl_Rplus_acc. lra. Qed.

(** *** exact arithmetic: linearity, and shells that add up *)

Lemma sum_R_linear {A} (g g1 g2 : A → R) (α β : R) (l : list A) :
  (∀ a, a ∈ l → g a = (α * g1 a + β * g2 a)%R) →
  sum (g <$> l) = (α * sum (g1 <$> l) + β * sum (g2 <$> l))%R.
Proof.
  induction l as [|a l IH]; intros Hg.
  - rewrite !sum_R_foldl. simpl. lra.
  - rewrite !fmap_cons, !sum_R_cons, IH, Hg.
    + lra.
    + by left.
    + intros b Hb. apply Hg. by right.
Qed.

Lemma shell_terms_app (sph_harm : tensor3 R) (value_arrays weights : list R)
  (m l : nat) (a b c : Z) :
  (0 ≤ a ≤ b)%Z → (b ≤ c)%Z →
  shell_terms sph_harm value_arrays weights m l a c
  = shell_terms sph_harm value_arrays weights m l a b
    ++ shell_terms sph_harm value_arrays weights m l b c.
Proof.
  intros Hab Hbc. unfold shell_terms. rewrite <- fmap_app. f_equal.
  replace (Z.to_nat c - Z.to_nat a)
    with ((Z.to_nat b - Z.to_nat a) + (Z.to_nat c - Z.to_nat b)) by lia.
  rewrite seq_app. do 2 f_equal. lia.
Qed.

Lemma entry_elem3 (T : tensor3 R) (k m l : nat) (x : R) :
  entry T k m l = Some x → elem3 T k m l = x.
Proof. intros Hx. unfold elem3. by rewrite Hx. Qed.

(** X7.  The projection is linear in the sampled function: over exact
    arithmetic the coefficients of [alpha f1 + beta f2] are [alpha] times the
    coefficients of [f1] plus [beta] times those of [f2], shell by shell and
    channel by channel. *)
Theorem project_linear
  (sph_harm : tensor3 R) (f1 f2 weights : list R) (indices : list Z)
  (M L N K : nat) (α β : R) :
  t_shape sph_harm = (M, L, N) → tensor3_wf sph_harm →
  length f1 = N → length f2 = N → length weights = N →
  length indices = S K → 1 ≤ K → shell_indices indices N →
  ∃ T1 T2 T,
    project_function_onto_spherical_expansion sph_harm f1 weights indices = Ok T1
    ∧ project_function_onto_spherical_expansion sph_harm f2 weights indices = Ok T2
    ∧ project_function_onto_spherical_expansion sph_harm
        (zip_with (λ a b, α * a + β * b)%R f1 f2) weights indices = Ok T
    ∧ ∀ k m l : nat, k < K → m < M → l < L →
        elem3 T k m l = (α * elem3 T1 k m l + β * elem3 T2 k m l)%R.
Proof.
  intros Hshape Hwf H1 H2 HW HK HK1 Hsh.
  destruct (project_entries sph_harm f1 weights indices M L N K)
    as (T1 & HT1 & _ & He1); [done..|].
  destruct (project_entries sph_harm f2 weights indices M L N K)
    as (T2 & HT2 & _ & He2); [done..|].
  destruct (project_entries sph_harm (zip_with (λ a b, α * a + β * b)%R f1 f2)
              weights indices M L N K) as (T & HT & _ & He); [done| done| |done..|].
  { rewrite length_zip_with. lia. }
  exists T1, T2, T. split; [done|]. split; [done|]. split; [done|].
  intros k m l Hk Hm Hl.
  destruct (lookup_lt_is_Some_2 indices k ltac:(lia)) as [lo Hlo].
  destruct (lookup_lt_is_Some_2 indices (S k) ltac:(lia)) as [hi Hhi].
  rewrite (entry_elem3 _ _ _ _ _ (He k m l lo hi Hlo Hhi Hm Hl)).
  rewrite (entry_elem3 _ _ _ _ _ (He1 k m l lo hi Hlo Hhi Hm Hl)).
  rewrite (entry_elem3 _ _ _ _ _ (He2 k m l lo hi Hlo Hhi Hm Hl)).
  cbn [f_nan_to_num R_Real64]. unfold shell_terms. apply sum_R_linear.
  intros n Hn. apply elem_of_seq in Hn.
  pose proof (shell_indices_bounds _ _ _ _ _ Hsh Hlo Hhi) as Hb.
  rewrite elem_zip_with by lia. cbn [f_mul R_Real64]. ring.
Qed.

(** X8.  The shells partition the quadrature: over exact arithmetic, adding
    the coefficients of all [K] shells gives the coefficient of the projection
    that treats the [N] points as one shell. *)
Theorem project_shells_add_up
  (sph_harm : tensor3 R) (value_arrays weights : list R) (indices : list Z)
  (M L N K : nat) :
  t_shape sph_harm = (M, L, N) → tensor3_wf sph_harm →
  length value_arrays = N → length weights = N →
  length indices = S K → 1 ≤ K → shell_indices indices N →
  ∃ T Tall,
    project_function_onto_spherical_expansion sph_harm value_arrays weights indices = Ok T
    ∧ project_function_onto_spherical_expansion sph_harm value_arrays weights
        [0%Z; Z.of_nat N] = Ok Tall
    ∧ ∀ m l : nat, m < M → l < L →
        sum ((λ k, elem3 T k m l) <$> seq 0 K) = elem3 Tall 0 m l.
Proof.
  intros Hshape Hwf HV HW HK HK1 Hsh.
  destruct (project_entries sph_harm value_arrays weights indices M L N K)
    as (T & HT & _ & He); [done..|].
  destruct (project_entries sph_harm value_arrays weights [0%Z; Z.of_nat N] M L N 1)
    as (Tall & HTall & _ & Heall); [done..| |].
  { split; [done|]. split; [done|]. intros [|[|i]] a b; simpl; intros; simplify_eq; lia. }
  exists T, Tall. split; [done|]. split; [done|].
  intros m l Hm Hl.
  rewrite (entry_elem3 _ _ _ _ _ (Heall 0 m l 0%Z (Z.of_nat N) eq_refl eq_refl Hm Hl)).
  cbn [f_nan_to_num R_Real64].
  assert (Hpart : ∀ j (b : Z), j ≤ K → indices !! j = Some b →
            sum ((λ k, elem3 T k m l) <$> seq 0 j)
            = sum (shell_terms sph_harm value_arrays weights m l 0 b)).
  { induction j as [|j IH]; intros b Hj Hb.
    - destruct Hsh as (Hhead & _). rewrite head_lookup, Hb in Hhead.
      injection Hhead as ->. reflexivity.
    - destruct (lookup_lt_is_Some_2 indices j ltac:(lia)) as [a Ha].
      pose proof (shell_indices_bounds _ _ _ _ _ Hsh Ha Hb) as Hbd.
      rewrite seq_S, fmap_app, sum_R_app.
      replace (sum ((λ k : nat, elem3 T k m l) <$> [0 + j])) with (0 + elem3 T j m l)%R
        by (rewrite sum_R_foldl; reflexivity).
      rewrite (IH a ltac:(lia) Ha).
      rewrite (entry_elem3 _ _ _ _ _ (He j m l a b Ha Hb Hm Hl)).
      cbn [f_nan_to_num R_Real64].
      rewrite (shell_terms_app _ _ _ _ _ 0 a b) by lia.
      rewrite sum_R_app. lra. }
  pose proof Hsh as (Hhead & Hlast & Hstep).
  rewrite last_lookup, HK in Hlast. cbn [pred] in Hlast.
  apply (Hpart K (Z.of_nat N)); [lia|done].
Qed.

Lemma project_linear_witness :
  ∃ T, project_function_onto_spherical_expansion (Tensor3 (1, 1, 2) [[[1; 1]]]%R)
         (zip_with (λ a b, 2 * a + 3 * b)%R [1; 0]%R [0; 1]%R) [1; 1]%R [0; 1; 2]%Z = Ok T.
Proof.
  destruct (project_linear (Tensor3 (1, 1, 2) [[[1; 1]]]%R) [1; 0]%R [0; 1]%R [1; 1]%R
              [0; 1; 2]%Z 1 1 2 2 2%R 3%R) as (_ & _ & T & _ & _ & HT & _).
  - reflexivity.
  - split; [reflexivity|]. repeat constructor.
  - reflexivity.
  - reflexivity.
  - reflexivity.
  - reflexivity.
  - lia.
  - split; [reflexivity|]. split; [reflexivity|].
    intros [|[|[|i]]] a b; simpl; intros; simplify_eq; lia.
  - exists T. exact HT.
Defined.

Lemma project_shells_add_up_witness :
  ∃ Tall, project_function_onto_spherical_expansion (Tensor3 (1, 1, 2) [[[1; 1]]]%R)
            [1; 2]%R [1; 1]%R [0%Z; Z.of_nat 2] = Ok Tall.
Proof.
  destruct (project_shells_add_up (Tensor3 (1, 1, 2) [[[1; 1]]]%R) [1; 2]%R [1; 1]%R
              [0; 1; 2]%Z 1 1 2 2) as (_ & Tall & _ & HTall & _).
  - reflexivity.
  - split; [reflexivity|]. repeat constructor.
  - reflexivity.
  - reflexivity.
  - reflexivity.
  - lia.
  - split; [reflexivity|]. split; [reflexivity|].
    intros [|[|[|i]]] a b; simpl; intros; simplify_eq; lia.
  - exists Tall. exact HTall.
Defined.

(** ** interpolate.py: the spline builders *)

Section MoreSplines.
Context {F C : Type} `{Real64 F} `{Complex128 F C}.
Variable sph_harm : Z → Z → F → F → C.
Variable spline_t : Type.
Variable CubicSpline : list F → tensor3 F → result spline_t.
Variable convert_cart_to_sph : list (F * F * F) → F * F * F → result (list (F * F * F)).

(** X9.  [spline_with_sph_harms] returns a spline only if the projection
    returned, the radial points and weights broadcast, and [CubicSpline]
    accepted the radial points with data of the projection's channel shape;
    it builds no spline of its own. *)
Theorem spline_with_sph_harms_only_from_CubicSpline
  (sph_harm_arrs : tensor3 F) (value_arrays weights : list F) (indices : list Z)
  (radial : OneDGrid.t F) (s : spline_t) :
  spline_with_sph_harms spline_t CubicSpline sph_harm_arrs value_arrays weights indices radial
  = Ok s →
  ∃ P Y,
    project_function_onto_spherical_expansion sph_harm_arrs value_arrays weights indices
    = Ok P
    ∧ is_Some (broadcast_len (length (OneDGrid.points radial))
                 (length (OneDGrid.weights radial)))
    ∧ CubicSpline (OneDGrid.points radial) Y = Ok s
    ∧ (t_shape Y).1.2 = (t_shape P).1.2 ∧ (t_shape Y).2 = (t_shape P).2.
Proof.
  unfold spline_with_sph_harms.
  destruct (project_function_onto_spherical_expansion _ _ _ _) as [P|]; [|done].
  cbn [mbind result_bind]. unfold elementwise. rewrite length_fmap.
  destruct (broadcast_len (length (OneDGrid.points radial))
              (length (OneDGrid.weights radial))) as [n|] eqn:Hn; [|done].
  cbn [mbind result_bind]. unfold broadcast_first.
  destruct (t_shape P) as [[d0 d1] d2] eqn:Hshape.
  destruct (broadcast_len d0 _) as [k|]; [|done]. cbn [mbind result_bind].
  intros Hs. eexists _, _. split; [reflexivity|]. split; [done|]. split; [exact Hs|].
  rewrite Hshape. done.
Qed.

(** The division by the radial Jacobian keeps the shape when the radial grid
    has one point per shell. *)
Lemma spline_with_sph_harms_shape
  (sph_harm_arrs : tensor3 F) (value_arrays weights : list F) (indices : list Z)
  (radial : OneDGrid.t F) (P : tensor3 F) :
  project_function_onto_spherical_expansion sph_harm_arrs value_arrays weights indices
  = Ok P →
  length (OneDGrid.points radial) = (t_shape P).1.1 →
  length (OneDGrid.weights radial) = length (OneDGrid.points radial) →
  ∃ Y, spline_with_sph_harms spline_t CubicSpline sph_harm_arrs value_arrays weights
         indices radial = CubicSpline (OneDGrid.points radial) Y
    ∧ t_shape Y = t_shape P.
Proof.
  intros HP Hpts Hwts. unfold spline_with_sph_harms. rewrite HP. cbn [mbind result_bind].
  unfold elementwise. rewrite length_fmap, Hwts. unfold broadcast_len at 1.
  rewrite Nat.eqb_refl. cbn [mbind result_bind].
  rewrite broadcast_with_same by (by rewrite length_fmap).
  unfold broadcast_first. destruct (t_shape P) as [[d0 d1] d2] eqn:Hshape.
  cbn [fst] in *. rewrite length_zip_with, length_fmap, Hwts, Nat.min_id, Hpts.
  unfold broadcast_len. rewrite Nat.eqb_refl. cbn [mbind result_bind].
  eexists. split; reflexivity.
Qed.

(** X10.  The whole pipeline on an atomic grid.  When the coordinate
    conversion returns [N] rows, the grid has [N] weights and [N] function
    values, [K >= 1] shells bounded by [indices], a radial grid of [K] points
    and weights, and a degree [l_max >= 0], then [spline_with_atomic_grid] is
    the call of [CubicSpline] on the radial points with data of shape
    (K, 2 (l_max // 2) + 1, l_max // 2 + 1): neither the harmonics nor the
    projection can fail. *)
Theorem spline_with_atomic_grid_pipeline
  (atgrid : AtomGrid.t F) (func_vals : list F) (sph_coor : list (F * F * F)) (K : nat) :
  (0 ≤ AtomGrid.l_max atgrid)%Z →
  convert_cart_to_sph (AtomGrid.points atgrid) (AtomGrid.center atgrid) = Ok sph_coor →
  length func_vals = length sph_coor →
  length (AtomGrid.weights atgrid) = length sph_coor →
  length (AtomGrid.indices atgrid) = S K → 1 ≤ K →
  shell_indices (AtomGrid.indices atgrid) (length sph_coor) →
  length (OneDGrid.points (AtomGrid.rgrid atgrid)) = K →
  length (OneDGrid.weights (AtomGrid.rgrid atgrid)) = K →
  ∃ Y, spline_with_atomic_grid sph_harm spline_t CubicSpline convert_cart_to_sph
         atgrid func_vals
       = CubicSpline (OneDGrid.points (AtomGrid.rgrid atgrid)) Y
    ∧ t_shape Y = (K, Z.to_nat (2 * (AtomGrid.l_max atgrid / 2) + 1),
                   Z.to_nat (AtomGrid.l_max atgrid / 2 + 1)).
Proof.
  intros Hl Hconv Hvals Hw HK HK1 Hsh Hrp Hrw.
  unfold spline_with_atomic_grid. rewrite Hconv. cbn [mbind result_bind].
  set (l_max := (AtomGrid.l_max atgrid / 2)%Z).
  assert (Hl' : (0 ≤ l_max)%Z) by (unfold l_max; apply Z.div_pos; lia).
  destruct (real_harmonics_wf sph_harm l_max
              ((λ c : F * F * F, c.1.2) <$> sph_coor) ((λ c : F * F * F, c.2) <$> sph_coor)
              (length sph_coor)) as (T & -> & HshapeT & HwfT).
  { done. }
  { rewrite !length_fmap. unfold broadcast_len. by rewrite Nat.eqb_refl. }
  cbn [mbind result_bind].
  destruct (project_entries T func_vals (AtomGrid.weights atgrid) (AtomGrid.indices atgrid)
              (Z.to_nat (2 * l_max + 1)) (Z.to_nat (l_max + 1)) (length sph_coor) K)
    as (P & HP & HshapeP & _); [done..|].
  destruct (spline_with_sph_harms_shape T func_vals (AtomGrid.weights atgrid)
              (AtomGrid.indices atgrid) (AtomGrid.rgrid atgrid) P) as (Y & -> & HshapeY).
  { done. }
  { by rewrite HshapeP. }
  { by rewrite Hrp. }
  exists Y. split; [done|]. by rewrite HshapeY.
Qed.

(** X11.  The degree of the grid is halved with floor division: grids that
    differ only in the degree, [2 k] against [2 k + 1], give the same spline. *)
Theorem spline_with_atomic_grid_halves_degree
  (points : list (F * F * F)) (center : F * F * F) (weights : list F) (indices : list Z)
  (rgrid : OneDGrid.t F) (k : Z) (func_vals : list F) :
  spline_with_atomic_grid sph_harm spline_t CubicSpline convert_cart_to_sph
    (AtomGrid.Build points center weights indices rgrid (2 * k + 1)) func_vals
  = spline_with_atomic_grid sph_harm spline_t CubicSpline convert_cart_to_sph
      (AtomGrid.Build points center weights indices rgrid (2 * k)) func_vals.
Proof.
  unfold spline_with_atomic_grid. cbn [AtomGrid.l_max AtomGrid.points AtomGrid.center
    AtomGrid.weights AtomGrid.indices AtomGrid.rgrid].
  replace ((2 * k + 1) / 2)%Z with k by (apply (Z.div_unique _ 2 k 1); lia).
  replace (2 * k / 2)%Z with k by (apply (Z.div_unique _ 2 k 0); lia).
  reflexivity.
Qed.

(** For a negative [l_max] and angle arrays of one length the real harmonics
    fail on the empty order axis. *)
Lemma real_harmonics_negative (l_max : Z) (theta phi : list F) :
  (l_max < 0)%Z → length theta = length phi →
  generate_real_sph_harms sph_harm l_max theta phi
  = Raise (IndexError "index out of bounds").
Proof.
  intros Hneg Hlen. unfold generate_real_sph_harms, generate_sph_harms.
  rewrite sph_paras_negative by done.
  unfold elementwise, broadcast_len. rewrite Hlen, Nat.eqb_refl. reflexivity.
Qed.

(** X12.  A grid of negative degree is not rejected by a check: the halved
    degree is negative too, and the call fails with the IndexError of the
    empty harmonics, after the coordinate conversion has run and before any
    projection. *)
Theorem spline_with_atomic_grid_negative_degree
  (atgrid : AtomGrid.t F) (func_vals : list F) (sph_coor : list (F * F * F)) :
  (AtomGrid.l_max atgrid < 0)%Z →
  convert_cart_to_sph (AtomGrid.points atgrid) (AtomGrid.center atgrid) = Ok sph_coor →
  spline_with_atomic_grid sph_harm spline_t CubicSpline convert_cart_to_sph
    atgrid func_vals
  = Raise (IndexError "index out of bounds").
Proof.
  intros Hneg Hconv. unfold spline_with_atomic_grid. rewrite Hconv.
  cbn [mbind result_bind].
  rewrite real_harmonics_negative; [done| |by rewrite !length_fmap].
  apply Z.div_lt_upper_bound; lia.
Qed.

Variable spline_call : spline_t → radii F → Z → spline_value F.
Variable einsum_mlk_ml : tensor3 F → spline_value F → option (list F).
Variable einsum_mlk_nml : tensor3 F → spline_value F → option (list (list F)).

(** X13.  Evaluation with valid arguments ([theta] and [phi] of one length,
    [deriv] in 0 .. 3).  The spline is called once, with [nu = deriv]; the
    degree axis of what it returns fixes [l_max].  If that axis is empty the
    call fails with IndexError; if it has length [L >= 1] the harmonics of
    shape (2 L - 1, L, N) are generated and contracted, with the contraction
    for one radius when [r_points] is a scalar and the one for many radii
    otherwise. *)
Theorem interpolate_given_splines_valid
  (spline : spline_t) (r_points : radii F) (theta phi : list F) (deriv : Z) :
  length theta = length phi → (0 ≤ deriv ≤ 3)%Z →
  let r_value := spline_call spline r_points deriv in
  let run := interpolate_given_splines sph_harm spline_t spline_call
               einsum_mlk_ml einsum_mlk_nml spline r_points theta phi deriv in
  (last_axis r_value = 0 → run = Raise (IndexError "index out of bounds"))
  ∧ (1 ≤ last_axis r_value →
     ∃ Y, generate_real_sph_harms sph_harm (Z.of_nat (last_axis r_value) - 1) theta phi
          = Ok Y
       ∧ t_shape Y = (2 * last_axis r_value - 1, last_axis r_value, length theta)
       ∧ run = match r_points with
               | Scalar _ => match einsum_mlk_ml Y r_value with
                             | Some v => Ok (Values v)
                             | None => Raise (NumpyError "einsum")
                             end
               | Points _ => match einsum_mlk_nml Y r_value with
                             | Some v => Ok (ValueRows v)
                             | None => Raise (NumpyError "einsum")
                             end
               end).
Proof.
  intros Hlen Hd r_value run.
  assert (Hrun : run =
    (r_sph_harm ← generate_real_sph_harms sph_harm
                    (Z.of_nat (last_axis r_value) - 1) theta phi;
     match r_points with
     | Scalar _ => match einsum_mlk_ml r_sph_harm r_value with
                   | Some v => Ok (Values v)
                   | None => Raise (NumpyError "einsum")
                   end
     | Points _ => match einsum_mlk_nml r_sph_harm r_value with
                   | Some v => Ok (ValueRows v)
                   | None => Raise (NumpyError "einsum")
                   end
     end)).
  { subst run r_value. unfold interpolate_given_splines.
    apply Nat.eqb_eq in Hlen. rewrite Hlen. cbn [negb].
    destruct (Z.eqb_spec deriv 0) as [->|Hne]; [reflexivity|].
    destruct (Z.leb_spec 1 deriv), (Z.leb_spec deriv 3); cbn [andb]; try lia.
    reflexivity. }
  split.
  - intros Hzero. rewrite Hrun, Hzero.
    rewrite real_harmonics_negative by (done || lia). reflexivity.
  - intros Hpos. rewrite Hrun.
    destruct (real_harmonics_wf sph_harm (Z.of_nat (last_axis r_value) - 1) theta phi
                (length theta)) as (Y & HY & Hshape & _).
    { lia. }
    { unfold broadcast_len. by rewrite Hlen, Nat.eqb_refl. }
    exists Y. split; [done|]. split.
    + rewrite Hshape. repeat f_equal; lia.
    + rewrite HY. reflexivity.
Qed.

End MoreSplines.

Lemma spline_with_sph_harms_only_from_CubicSpline_witness :
  ∃ P, project_function_onto_spherical_expansion (Tensor3 (1, 1, 2) [[[1; 1]]]%R)
         [1; 2]%R [1; 1]%R [0; 1; 2]%Z = Ok P.
Proof.
  destruct (spline_with_sph_harms_only_from_CubicSpline
              (list R * tensor3 R) (λ x y, Ok (x, y))
              (Tensor3 (1, 1, 2) [[[1; 1]]]%R) [1; 2]%R [1; 1]%R [0; 1; 2]%Z
              (OneDGrid.Build [1; 2]%R [1; 1]%R) _ eq_refl) as (P & _ & HP & _).
  exists P. exact HP.
Defined.

(** A grid of two shells of one point each, already in spherical
    coordinates. *)
Lemma spline_with_atomic_grid_pipeline_witness :
  ∃ Y, spline_with_atomic_grid tagged_harmonic (list R * tensor3 R) (λ x y, Ok (x, y))
         (λ points _, Ok points)
         (AtomGrid.Build [(1, 0, 0); (2, 0, 0)]%R (0, 0, 0)%R [1; 1]%R [0; 1; 2]%Z
            (OneDGrid.Build [1; 2]%R [1; 1]%R) 2) [1; 1]%R
       = Ok ([1; 2]%R, Y)
    ∧ t_shape Y = (2, 3, 2).
Proof.
  apply (spline_with_atomic_grid_pipeline tagged_harmonic (list R * tensor3 R)
           (λ x y, Ok (x, y)) (λ points _, Ok points)
           (AtomGrid.Build [(1, 0, 0); (2, 0, 0)]%R (0, 0, 0)%R [1; 1]%R [0; 1; 2]%Z
              (OneDGrid.Build [1; 2]%R [1; 1]%R) 2) [1; 1]%R
           [(1, 0, 0); (2, 0, 0)]%R 2).
  - simpl. lia.
  - reflexivity.
  - reflexivity.
  - reflexivity.
  - reflexivity.
  - lia.
  - split; [reflexivity|]. split; [reflexivity|].
    intros [|[|[|i]]] a b; simpl; intros; simplify_eq; lia.
  - reflexivity.
  - reflexivity.
Defined.

Lemma spline_with_atomic_grid_negative_degree_witness :
  spline_with_atomic_grid tagged_harmonic (list R * tensor3 R) (λ x y, Ok (x, y))
    (λ points _, Ok points)
    (AtomGrid.Build [(1, 0, 0)]%R (0, 0, 0)%R [1]%R [0; 1]%Z
       (OneDGrid.Build [1]%R [1]%R) (-1)) [1]%R
  = Raise (IndexError "index out of bounds").
Proof.
  apply (spline_with_atomic_grid_negative_degree tagged_harmonic (list R * tensor3 R)
           (λ x y, Ok (x, y)) (λ points _, Ok points)
           (AtomGrid.Build [(1, 0, 0)]%R (0, 0, 0)%R [1]%R [0; 1]%Z
              (OneDGrid.Build [1]%R [1]%R) (-1)) [1]%R [(1, 0, 0)]%R).
  - simpl. lia.
  - reflexivity.
Defined.

Lemma interpolate_given_splines_valid_witness :
  interpolate_given_splines tagged_harmonic unit (λ _ _ _, Coeffs2 (1, 1) [[1%R]])
    (λ _ _, Some []) (λ _ _, Some []) tt (Scalar 1%R) [0%R] [0%R] 1
  = Ok (Values []).
Proof.
  destruct (interpolate_given_splines_valid tagged_harmonic unit
              (λ _ _ _, Coeffs2 (1, 1) [[1%R]]) (λ _ _, Some []) (λ _ _, Some [])
              tt (Scalar 1%R) [0%R] [0%R] 1 eq_refl ltac:(lia)) as [_ Hpos].
  destruct Hpos as (Y & _ & _ & Hrun); [simpl; lia|].
  exact Hrun.
Defined.

(** ** ode.py: the coefficient array and the boundary residuals *)

Section MapM.
Context {A B : Type}.
Implicit Types (f : A → result B) (l : list A) (rs : list B).

Lemma mapM_result_Ok f l rs :
  mapM f l = Ok rs ↔ Forall2 (λ x r, f x = Ok r) l rs.
Proof.
  revert rs. induction l as [|x l IH]; intros rs; cbn [mapM].
  - split; [intros [= <-]; constructor|intros Hf; by inversion Hf].
  - destruct (f x) as [y|e] eqn:Hx; cbn [mbind result_bind].
    + destruct (mapM f l) as [k|e] eqn:Hl; cbn [mbind result_bind mret result_ret].
      * split.
        -- unfold mret, result_ret. intros [= <-]. constructor; [done|]. by apply IH.
        -- intros Hf. inversion Hf as [|x' r l' rs' Hr Hrest]; subst.
           apply IH in Hrest. cbv beta in Hr. rewrite Hx in Hr. by simplify_eq.
      * split; [done|]. intros Hf. inversion Hf as [|x' r l' rs' Hr Hrest]; subst.
        apply IH in Hrest. congruence.
    + split; [done|]. intros Hf. inversion Hf as [|x' r l' rs' Hr Hrest]; subst.
      cbv beta in Hr. congruence.
Qed.

Lemma mapM_result_Raise f l (e : exn) :
  mapM f l = Raise e → ∃ x, x ∈ l ∧ f x = Raise e.
Proof.
  induction l as [|x l IH]; cbn [mapM]; [done|].
  destruct (f x) as [y|e'] eqn:Hx; cbn [mbind result_bind].
  - destruct (mapM f l) as [k|e''] eqn:Hl; cbn [mbind result_bind mret result_ret]; [done|].
    intros [= <-]. destruct (IH eq_refl) as (x' & Hin & Hx'). exists x'. split; [by right|done].
  - intros [= <-]. exists x. split; [by left|done].
Qed.

End MapM.

Section MoreCoefficients.
Context {F : Type} `{Real64 F}.

Lemma inplace_length (op : F → F → F) (row v row' : list F) :
  inplace op row v = Ok row' → length row' = length row.
Proof.
  unfold inplace, broadcast_with.
  destruct (length v =? length row) eqn:E1.
  - apply Nat.eqb_eq in E1. cbn [orb]. intros [= <-].
    rewrite <- E1, Nat.eqb_refl, length_zip_with. lia.
  - destruct (length v =? 1) eqn:E2; cbn [orb]; [|done].
    apply Nat.eqb_eq in E2. apply Nat.eqb_neq in E1. intros [= <-].
    destruct (length row =? length v) eqn:E3; [apply Nat.eqb_eq in E3; lia|].
    destruct v as [|y [|]]; simplify_eq/=. by rewrite length_fmap.
Qed.

Lemma inplace_raises (op : F → F → F) (row v : list F) (e : exn) :
  inplace op row v = Raise e →
  e = NumpyError "broadcast" ∧ length v ≠ length row ∧ length v ≠ 1.
Proof.
  unfold inplace.
  destruct (length v =? length row) eqn:E1; cbn [orb]; [done|].
  destruct (length v =? 1) eqn:E2; cbn [orb]; [done|].
  apply Nat.eqb_neq in E1, E2. by intros [= <-].
Qed.

Lemma construct_coeff_array_rows (x : list F) (coeff : list (coefficient F))
  (m : list (list F)) :
  _construct_coeff_array x coeff = Ok m →
  length m = length coeff ∧ Forall (λ row, length row = length x) m.
Proof.
  unfold _construct_coeff_array. intros Hm. apply mapM_result_Ok in Hm. split.
  - symmetry. by eapply Forall2_length.
  - eapply Forall2_Forall_r; [exact Hm|]. apply Forall_forall.
    intros [c|f] _ row Hrow; simpl in Hrow.
    + injection Hrow as <-. by rewrite length_fmap, length_replicate.
    + apply inplace_length in Hrow. by rewrite Hrow, length_replicate.
Qed.

(** X14.  [_construct_coeff_array] returns one row per coefficient, each as
    long as the mesh; it fails only with numpy's broadcast error, and then
    some callable coefficient returned an array whose length is neither the
    mesh size nor 1. *)
Theorem construct_coeff_array_shape (x : list F) (coeff : list (coefficient F)) :
  (∀ m, _construct_coeff_array x coeff = Ok m →
        length m = length coeff ∧ Forall (λ row, length row = length x) m)
  ∧ (∀ e, _construct_coeff_array x coeff = Raise e →
          e = NumpyError "broadcast"
          ∧ ∃ f, Callable f ∈ coeff ∧ length (f x) ≠ length x ∧ length (f x) ≠ 1).
Proof.
  split.
  - intros m Hm. by apply construct_coeff_array_rows.
  - unfold _construct_coeff_array. intros e He.
    apply mapM_result_Raise in He as ([c|f] & Hin & Hval); [done|].
    apply inplace_raises in Hval as (-> & Hne & Hne1).
    rewrite length_replicate in Hne. split; [done|]. by exists f.
Qed.

Lemma mapM_fmap_Ok {A B D} (g : A → B) (f : B → result D) (h : A → D) (l : list A) :
  (∀ a, f (g a) = Ok (h a)) → mapM f (g <$> l) = Ok (h <$> l).
Proof.
  intros Hf. apply mapM_result_Ok. apply Forall2_fmap. apply Forall2_same_length_lookup.
  split; [done|]. intros i a a' Ha Ha'. simplify_eq. apply Hf.
Qed.

(** X15.  A constant coefficient may be given as a number, as a callable that
    returns the constant at every mesh point, or as a callable that returns a
    single value: the three give the same row, [0.0 + c] at every mesh
    point. *)
Theorem construct_coeff_array_constants (x : list F) (cs : list F) :
  let rows := (λ c, replicate (length x) (f_add f_zero c)) <$> cs in
  _construct_coeff_array x (Number <$> cs) = Ok rows
  ∧ _construct_coeff_array x ((λ c, Callable (λ x', (λ _, c) <$> x')) <$> cs) = Ok rows
  ∧ _construct_coeff_array x ((λ c, Callable (λ _, [c])) <$> cs) = Ok rows.
Proof.
  intros rows. subst rows. unfold _construct_coeff_array.
  split; [|split]; apply mapM_fmap_Ok; intros c.
  - f_equal. by rewrite fmap_replicate.
  - unfold inplace. rewrite length_fmap, length_replicate, Nat.eqb_refl. cbn [orb].
    f_equal. rewrite broadcast_with_same by (by rewrite length_fmap, length_replicate).
    induction x as [|x0 x IH]; [done|]. cbn. by rewrite IH.
  - unfold inplace. cbn [length]. rewrite Nat.eqb_refl, orb_true_r. f_equal.
    unfold broadcast_with. rewrite length_replicate. cbn [length].
    destruct (length x) as [|[|n]] eqn:Hn; cbn; try done.
    by rewrite fmap_replicate.
Qed.

(** X16.  [bc] fails only with IndexError, and then some boundary condition
    names an endpoint outside -2 .. 1 or a derivative that the state at that
    endpoint does not have.  When it returns, there is one residual per
    condition, in order, each the state at the endpoint (0 or -2 the lower
    one, 1 or -1 the upper one) at the derivative index, minus the value. *)
Theorem bc_residuals (bd_cond : list (Z * Z * F)) (ya yb : list F) :
  (∀ e, bc bd_cond ya yb = Raise e →
        e = IndexError "index out of bounds"
        ∧ ∃ i d v, (i, d, v) ∈ bd_cond
            ∧ ((i < -2 ∨ 1 < i)%Z
               ∨ index (length (if decide (i = 0 ∨ i = -2)%Z then ya else yb)) d = None))
  ∧ (∀ rs, bc bd_cond ya yb = Ok rs →
        Forall2 (λ (c : Z * Z * F) (r : F),
                   ∃ s, getitem (if decide (c.1.1 = 0 ∨ c.1.1 = -2)%Z then ya else yb) c.1.2
                        = Ok s
                      ∧ (-2 ≤ c.1.1 ≤ 1)%Z ∧ r = f_sub s c.2) bd_cond rs).
Proof.
  assert (Hbond : ∀ i : Z,
            getitem [ya; yb] i
            = if decide (-2 ≤ i ≤ 1)%Z
              then Ok (if decide (i = 0 ∨ i = -2)%Z then ya else yb)
              else Raise (IndexError "index out of bounds")).
  { intros i. unfold getitem, index. cbn [length].
    destruct (Z.leb_spec 0 i), (Z.ltb_spec i (Z.of_nat 2)),
      (Z.leb_spec (- Z.of_nat 2) i), (Z.ltb_spec i 0); cbn [andb];
      repeat case_decide; try lia; try done.
    - assert (i = 0 ∨ i = 1)%Z as [-> | ->] by lia; [done|].
      exfalso. lia.
    - assert (i = 1)%Z as -> by lia. done.
    - assert (i = -2)%Z as -> by lia. done.
    - assert (i = -1)%Z as -> by lia. done. }
  unfold bc. split.
  - intros e He. apply mapM_result_Raise in He as ([[i d] v] & Hin & Hval).
    rewrite Hbond in Hval. case_decide as Hi.
    + cbn [mbind result_bind] in Hval.
      destruct (getitem _ d) as [s|e'] eqn:Hs; [done|]. cbn [mbind result_bind] in Hval.
      injection Hval as <-. split; [by eapply getitem_raises|].
      exists i, d, v. split; [done|]. right.
      unfold getitem in Hs. destruct (index _ d) as [k|] eqn:Hk; [|done].
      unfold index in Hk.
      destruct (_ && _) eqn:E1 in Hk.
      * injection Hk as <-. apply andb_true_iff in E1 as [E1 E2].
        apply Z.leb_le in E1. apply Z.ltb_lt in E2.
        destruct (lookup_lt_is_Some_2 (if decide (i = 0 ∨ i = -2)%Z then ya else yb)
                    (Z.to_nat d) ltac:(lia)) as [s Hs'].
        by rewrite Hs' in Hs.
      * destruct (_ && _) eqn:E2 in Hk; [|done]. injection Hk as <-.
        apply andb_true_iff in E2 as [E2 E3].
        apply Z.leb_le in E2. apply Z.ltb_lt in E3.
        destruct (lookup_lt_is_Some_2 (if decide (i = 0 ∨ i = -2)%Z then ya else yb)
                    (Z.to_nat (Z.of_nat (length
                       (if decide (i = 0 ∨ i = -2)%Z then ya else yb)) + d))
                    ltac:(lia)) as [s Hs'].
        by rewrite Hs' in Hs.
    + injection Hval as <-. split; [done|]. exists i, d, v. split; [done|]. left. lia.
  - intros rs Hrs. apply mapM_result_Ok in Hrs.
    eapply Forall2_impl; [exact Hrs|]. intros [[i d] v] r Hr. cbn [fst snd].
    rewrite Hbond in Hr. case_decide as Hi; [|done]. cbn [mbind result_bind] in Hr.
    destruct (getitem _ d) as [s|] eqn:Hs; [|done]. cbn [mbind result_bind] in Hr.
    injection Hr as <-. by exists s.
Qed.

End MoreCoefficients.

(** X17.  Over exact arithmetic the residuals of [bc] all vanish exactly when
    the two end states meet every boundary condition. *)
Theorem bc_zero_iff_conditions_met (bd_cond : list (Z * Z * R)) (ya yb : list R)
  (rs : list R) :
  bc bd_cond ya yb = Ok rs →
  length rs = length bd_cond
  ∧ (Forall (λ r, r = 0%R) rs
     ↔ Forall (λ c : Z * Z * R,
                 ∃ bond, getitem [ya; yb] c.1.1 = Ok bond ∧ getitem bond c.1.2 = Ok c.2)
         bd_cond).
Proof.
  unfold bc. intros Hrs. apply mapM_result_Ok in Hrs. split.
  { symmetry. by eapply Forall2_length. }
  induction Hrs as [|[[i d] v] r bd rs' Hr Hrest IH]; [done|].
  rewrite !Forall_cons, IH. cbn [fst snd].
  destruct (getitem [ya; yb] i) as [bond|] eqn:Hb; [|done]. cbn [mbind result_bind] in Hr.
  destruct (getitem bond d) as [s|] eqn:Hs; [|done]. cbn [mbind result_bind] in Hr.
  injection Hr as <-. cbn [f_sub R_Real64].
  split; intros [Hz Hall]; (split; [|done]).
  - exists bond. split; [done|]. rewrite Hs. f_equal. lra.
  - destruct Hz as (bond' & [= <-] & Hv). rewrite Hs in Hv. injection Hv as ->. lra.
Qed.

Lemma bc_zero_iff_conditions_met_witness :
  length [0 - 0; 1 - 1]%R = length [(0%Z, 0%Z, 0%R); (1%Z, 0%Z, 1%R)]
  ∧ (Forall (λ r, r = 0%R) [0 - 0; 1 - 1]%R
     ↔ Forall (λ c : Z * Z * R,
                 ∃ bond, getitem [[0; 5]; [1; 7]]%R c.1.1 = Ok bond
                         ∧ getitem bond c.1.2 = Ok c.2)
         [(0%Z, 0%Z, 0%R); (1%Z, 0%Z, 1%R)]).
Proof.
  refine (bc_zero_iff_conditions_met [(0%Z, 0%Z, 0%R); (1%Z, 0%Z, 1%R)]
            [0; 5]%R [1; 7]%R [0 - 0; 1 - 1]%R _).
  reflexivity.
Defined.

(** ** ode.py: the solver's entry point *)

Section MoreSolver.
Context {F : Type} `{Real64 F} {power : Power F}.

Lemma random_rand_shape (rows cols : nat) (g : rng F) :
  length (random_rand rows cols g).1 = rows
  ∧ ∀ i j, i < rows → j < cols →
      (random_rand rows cols g).1 !! i ≫= (.!! j) = Some (g (i * cols + j)).
Proof.
  unfold random_rand. cbn [fst]. split; [by rewrite length_fmap, length_seq|].
  intros i j Hi Hj. rewrite list_lookup_fmap, lookup_seq_lt by done. cbn.
  rewrite list_lookup_fmap, lookup_seq_lt by done. done.
Qed.

(** X18.  [func], the right-hand side [solve_ode] hands to the solver, never
    returns: with a transform it fails on the class attribute
    [_rearrange_trans_ode]; without one it fails on [_rearrange_ode], unless
    building the coefficient array has already failed to broadcast. *)
Theorem func_never_returns (coeffs : list (coefficient F))
  (transform : option (BaseTransform F)) (fx : list F → list F) (x : list F)
  (y : list (list F)) :
  func coeffs transform fx x y
  = Raise (match transform with
           | Some _ => AttributeError "ODE" "_rearrange_trans_ode"
           | None => match _construct_coeff_array x coeffs with
                     | Ok _ => AttributeError "ODE" "_rearrange_ode"
                     | Raise _ => NumpyError "broadcast"
                     end
           end).
Proof.
  unfold func. destruct transform as [tf|]; [done|].
  destruct (_construct_coeff_array x coeffs) as [m|e] eqn:Hm; [done|].
  unfold _construct_coeff_array in Hm.
  apply mapM_result_Raise in Hm as ([c|f] & _ & Hval); [done|].
  apply inplace_raises in Hval as (-> & _). done.
Qed.

(** X19.  The two helpers that go through a transform never return:
    [_transform_ode_from_rtransform] ends in the NameError of
    [_transform_ode_from_derivs], and
    [_transform_and_rearrange_to_explicit_ode] fails on the class attribute
    [_transformed_coeff_ode]. *)
Theorem transform_helpers_never_return (coeff_a : list (coefficient F))
  (tf : BaseTransform F) (x : list F) (y : list (list F)) (fx_func : list F → list F) :
  _transform_ode_from_rtransform coeff_a tf x = Raise (NameError "deriv_func_list")
  ∧ _transform_and_rearrange_to_explicit_ode x y coeff_a tf fx_func
    = Raise (AttributeError "ODE" "_transformed_coeff_ode").
Proof.
  split; [|done].
  unfold _transform_ode_from_rtransform, _transform_ode_from_derivs, load_name.
  rewrite !lookup_insert_ne by done. rewrite lookup_empty. reflexivity.
Qed.

Variable PPoly : Type.
Variable solve_bvp : bvp_call F → result (bvp_result PPoly).

Lemma solve_ode_checks_pass
  (x : list F) (fx : list F → list F) (coeffs : list (coefficient F))
  (bd_cond : list (Z * Z * F)) (transform : option (BaseTransform F))
  (tol : F) (max_nodes : Z) (initial_guess_y : option (list (list F))) (g : rng F) :
  length bd_cond + 1 = length coeffs → length coeffs ≤ 4 →
  solve_ode PPoly solve_bvp x fx coeffs bd_cond transform tol max_nodes initial_guess_y g
  = let drawn := random_rand (length coeffs - 1) (length x) g in
    (match solve_bvp (solve_ode_call x fx coeffs bd_cond transform drawn.1) with
     | Raise e => Raise e
     | Ok res => if negb (status PPoly res =? 0)%Z
                 then Raise (ValueError (status_message (status PPoly res)))
                 else Ok (sol PPoly res)
     end, drawn.2).
Proof.
  intros Hbd Horder. unfold solve_ode.
  replace (Z.of_nat (length bd_cond)) with (Z.of_nat (length coeffs) - 1)%Z by lia.
  rewrite Z.eqb_refl. cbn [negb].
  destruct (Z.ltb_spec 3 (Z.of_nat (length coeffs) - 1)) as [?|_]; [lia|].
  replace (Z.to_nat (Z.of_nat (length coeffs) - 1)) with (length coeffs - 1) by lia.
  destruct (random_rand (length coeffs - 1) (length x) g) as [y' g'] eqn:Hr. cbn [fst snd].
  destruct (solve_bvp _) as [res|e]; [|done].
  by destruct (negb _).
Qed.

Lemma solve_ode_checks_fail
  (x : list F) (fx : list F → list F) (coeffs : list (coefficient F))
  (bd_cond : list (Z * Z * F)) (transform : option (BaseTransform F))
  (tol : F) (max_nodes : Z) (initial_guess_y : option (list (list F))) (g : rng F) :
  length bd_cond + 1 ≠ length coeffs ∨ 4 < length coeffs →
  solve_ode PPoly solve_bvp x fx coeffs bd_cond transform tol max_nodes initial_guess_y g
  = (Raise (NotImplementedError
              (if decide (length bd_cond + 1 = length coeffs)
               then "Only support 3rd order ODE or less."
               else order_message (Z.of_nat (length coeffs) - 1) bd_cond)), g).
Proof.
  intros Hbad. unfold solve_ode.
  destruct (Z.eqb_spec (Z.of_nat (length bd_cond)) (Z.of_nat (length coeffs) - 1)) as [Heq|Hne];
    cbn [negb]; case_decide; try lia; [|done].
  destruct (Z.ltb_spec 3 (Z.of_nat (length coeffs) - 1)); [done|lia].
Qed.

(** X20.  [solve_ode] rejects its arguments with NotImplementedError when the
    number of boundary conditions is not the order (the number of
    coefficients minus one; an empty coefficient list has order -1 and is
    always rejected), and with the second message when the order is above 3.
    It then has not drawn from the generator, and the solver plays no part. *)
Theorem solve_ode_rejects_arguments
  (x : list F) (fx : list F → list F) (coeffs : list (coefficient F))
  (bd_cond : list (Z * Z * F)) (transform : option (BaseTransform F))
  (tol : F) (max_nodes : Z) (initial_guess_y : option (list (list F))) (g : rng F) :
  length bd_cond + 1 ≠ length coeffs ∨ 4 < length coeffs →
  solve_ode PPoly solve_bvp x fx coeffs bd_cond transform tol max_nodes initial_guess_y g
  = (Raise (NotImplementedError
              (if decide (length bd_cond + 1 = length coeffs)
               then "Only support 3rd order ODE or less."
               else "# of boundary condition need to be the same as ODE order.Expect: "
                    +:+ str (Z.of_nat (length coeffs) - 1) +:+ ", got: "
                    +:+ str (Z.of_nat (length bd_cond)) +:+ ".")), g).
Proof. intros Hbad. by rewrite solve_ode_checks_fail. Qed.

(** X21.  For arguments that pass the two checks, the guess handed to the
    solver has one row per order and one column per mesh point, filled row
    by row with the next draws of the generator; the generator ends
    [order * N] draws further whatever the solver does; and an exception of
    the solver reaches the caller unchanged. *)
Theorem solve_ode_guess_drawn
  (x : list F) (fx : list F → list F) (coeffs : list (coefficient F))
  (bd_cond : list (Z * Z * F)) (transform : option (BaseTransform F))
  (tol : F) (max_nodes : Z) (initial_guess_y : option (list (list F))) (g : rng F) :
  length bd_cond + 1 = length coeffs → length coeffs ≤ 4 →
  let order := length coeffs - 1 in
  let run :=
    solve_ode PPoly solve_bvp x fx coeffs bd_cond transform tol max_nodes initial_guess_y g in
  ∃ y : list (list F),
    length y = order
    ∧ (∀ i j, i < order → j < length x → y !! i ≫= (.!! j) = Some (g (i * length x + j)))
    ∧ (∀ k, run.2 k = g (order * length x + k))
    ∧ (∀ e, solve_bvp (solve_ode_call x fx coeffs bd_cond transform y) = Raise e →
            run.1 = Raise e).
Proof.
  intros Hbd Horder order run. subst run order.
  exists (random_rand (length coeffs - 1) (length x) g).1.
  destruct (random_rand_shape (length coeffs - 1) (length x) g) as [Hlen Hent].
  rewrite solve_ode_checks_pass by done. cbn [fst snd].
  split; [done|]. split; [done|]. split; [done|].
  intros e He. by rewrite He.
Qed.

(** X22.  [solve_ode] returns a solution only when the arguments pass the two
    checks and the solver, called on the drawn guess, returned status 0; the
    solution is then the solver's [sol]. *)
Theorem solve_ode_returns_only_converged
  (x : list F) (fx : list F → list F) (coeffs : list (coefficient F))
  (bd_cond : list (Z * Z * F)) (transform : option (BaseTransform F))
  (tol : F) (max_nodes : Z) (initial_guess_y : option (list (list F))) (g g' : rng F)
  (s : PPoly) :
  solve_ode PPoly solve_bvp x fx coeffs bd_cond transform tol max_nodes initial_guess_y g
  = (Ok s, g') →
  length bd_cond + 1 = length coeffs ∧ length coeffs ≤ 4
  ∧ ∃ res, solve_bvp (solve_ode_call x fx coeffs bd_cond transform
                        (random_rand (length coeffs - 1) (length x) g).1) = Ok res
           ∧ status PPoly res = 0%Z ∧ sol PPoly res = s.
Proof.
  intros Hrun.
  destruct (decide (length bd_cond + 1 = length coeffs ∧ length coeffs ≤ 4)) as [[Hbd Ho]|Hbad].
  - split; [done|]. split; [done|].
    rewrite solve_ode_checks_pass in Hrun by done. cbn [fst snd] in Hrun.
    destruct (solve_bvp _) as [res|e]; [|done]. exists res. split; [done|].
    destruct (Z.eqb_spec (status PPoly res) 0) as [Hst|Hst]; cbn [negb] in Hrun; [|done].
    by injection Hrun as <- _.
  - rewrite solve_ode_checks_fail in Hrun by lia. done.
Qed.

(** X23.  With a solver that fails whenever its right-hand side fails on the
    initial mesh and guess (scipy's evaluates it there first), [solve_ode]
    returns no solution for any arguments: [func] never returns. *)
Theorem solve_ode_never_returns
  (Hsolver : ∀ (c : bvp_call F) (e : exn),
     bvp_fun c (bvp_x c) (bvp_y c) = Raise e → ∃ e', solve_bvp c = Raise e')
  (x : list F) (fx : list F → list F) (coeffs : list (coefficient F))
  (bd_cond : list (Z * Z * F)) (transform : option (BaseTransform F))
  (tol : F) (max_nodes : Z) (initial_guess_y : option (list (list F))) (g : rng F) :
  ∃ e, (solve_ode PPoly solve_bvp x fx coeffs bd_cond transform tol max_nodes
          initial_guess_y g).1 = Raise e.
Proof.
  destruct (decide (length bd_cond + 1 = length coeffs ∧ length coeffs ≤ 4)) as [[Hbd Ho]|Hbad].
  - rewrite solve_ode_checks_pass by done. cbn [fst snd].
    set (c := solve_ode_call _ _ _ _ _ _).
    destruct (func_raises coeffs transform fx (bvp_x c) (bvp_y c)) as [e He].
    destruct (Hsolver c e He) as [e' ->]. by exists e'.
  - rewrite solve_ode_checks_fail by lia. by eexists.
Qed.

End MoreSolver.

Lemma solve_ode_rejects_arguments_witness :
  solve_ode unit bvp_evaluates_fun oscillator_mesh oscillator_fx [] [] None
    (1 / 10000)%float 5000 None harmonic_tape
  = (Raise (NotImplementedError
      "# of boundary condition need to be the same as ODE order.Expect: -1, got: 0."),
     harmonic_tape).
Proof.
  apply (solve_ode_rejects_arguments unit bvp_evaluates_fun oscillator_mesh oscillator_fx
           [] [] None (1 / 10000)%float 5000 None harmonic_tape).
  left. simpl. lia.
Defined.

Lemma solve_ode_guess_drawn_witness :
  ∃ y : list (list float),
    length y = 2
    ∧ (∀ i j, i < 2 → j < 2 → y !! i ≫= (.!! j) = Some (harmonic_tape (i * 2 + j)))
    ∧ (∀ k, (solve_ode unit bvp_evaluates_fun oscillator_mesh oscillator_fx
               oscillator_coeffs oscillator_bd_cond None (1 / 10000)%float 5000 None
               harmonic_tape).2 k = harmonic_tape (2 * 2 + k))
    ∧ (∀ e, bvp_evaluates_fun (solve_ode_call oscillator_mesh oscillator_fx
                                 oscillator_coeffs oscillator_bd_cond None y) = Raise e →
            (solve_ode unit bvp_evaluates_fun oscillator_mesh oscillator_fx
               oscillator_coeffs oscillator_bd_cond None (1 / 10000)%float 5000 None
               harmonic_tape).1 = Raise e).
Proof.
  apply (solve_ode_guess_drawn unit bvp_evaluates_fun oscillator_mesh oscillator_fx
           oscillator_coeffs oscillator_bd_cond None (1 / 10000)%float 5000 None
           harmonic_tape); simpl; lia.
Defined.

Lemma solve_ode_returns_only_converged_witness :
  ∃ res, bvp_returns_guess
           (solve_ode_call oscillator_mesh oscillator_fx oscillator_coeffs oscillator_bd_cond
              None (random_rand 2 2 harmonic_tape).1) = Ok res
         ∧ status (list (list float)) res = 0%Z
         ∧ sol (list (list float)) res = (random_rand 2 2 harmonic_tape).1.
Proof.
  apply (solve_ode_returns_only_converged (list (list float)) bvp_returns_guess
           oscillator_mesh oscillator_fx oscillator_coeffs oscillator_bd_cond None
           (1 / 10000)%float 5000 None harmonic_tape
           (random_rand 2 2 harmonic_tape).2 (random_rand 2 2 harmonic_tape).1).
  reflexivity.
Defined.

Lemma solve_ode_never_returns_witness :
  ∃ e, (solve_ode unit bvp_evaluates_fun oscillator_mesh oscillator_fx oscillator_coeffs
          oscillator_bd_cond None (1 / 10000)%float 5000 None harmonic_tape).1 = Raise e.
Proof.
  apply (solve_ode_never_returns unit bvp_evaluates_fun).
  intros c e He. exists e. unfold bvp_evaluates_fun. by rewrite He.
Defined.

(** ** ode.py: the explicit form *)

Section MoreRearrange.
Context {F : Type} `{Real64 F}.

Lemma getitem_nat {A} (l : list A) (i : nat) (a : A) :
  l !! i = Some a → getitem l (Z.of_nat i) = Ok a.
Proof.
  intros Hi. pose proof (lookup_lt_Some _ _ _ Hi) as Hlt.
  unfold getitem, index.
  destruct (Z.leb_spec 0 (Z.of_nat i)), (Z.ltb_spec (Z.of_nat i) (Z.of_nat (length l)));
    try lia. cbn [andb]. by rewrite Nat2Z.id, Hi.
Qed.

Lemma getitem_nat_out {A} (l : list A) (i : nat) :
  length l ≤ i → getitem l (Z.of_nat i) = Raise (IndexError "index out of bounds").
Proof.
  intros Hi. unfold getitem, index.
  destruct (Z.leb_spec 0 (Z.of_nat i)), (Z.ltb_spec (Z.of_nat i) (Z.of_nat (length l))),
    (Z.leb_spec (- Z.of_nat (length l)) (Z.of_nat i)), (Z.ltb_spec (Z.of_nat i) 0);
    try lia; done.
Qed.

Lemma getitem_last {A} (l : list A) (a : A) : getitem (l ++ [a]) (-1) = Ok a.
Proof.
  unfold getitem, index. rewrite length_app. cbn [length].
  destruct (Z.leb_spec 0 (-1)), (Z.ltb_spec (-1) (Z.of_nat (length l + 1))),
    (Z.leb_spec (- Z.of_nat (length l + 1)) (-1)), (Z.ltb_spec (-1) 0);
    try lia; cbn [andb].
  replace (Z.to_nat (Z.of_nat (length l + 1) + -1)) with (length l + 0) by lia.
  by rewrite lookup_app_r, Nat.add_0_r, Nat.sub_diag by lia.
Qed.

Lemma slice_all_but_last {A} (l : list A) (a : A) :
  slice None (Some (-1)%Z) (l ++ [a]) = l.
Proof.
  unfold slice, slice_lo, slice_hi. rewrite clip_negative by lia.
  rewrite length_app. cbn [length drop].
  replace (length l + 1 - Z.to_nat (- (-1)) - 0) with (length l) by lia.
  rewrite drop_0. by rewrite take_app_length.
Qed.

Lemma explicit_numerator_length (a : list F) (bs ys : list (list F)) :
  Forall (λ b, length b = length a) bs → Forall (λ yi, length yi = length a) ys →
  length (explicit_numerator a bs ys) = length a.
Proof.
  unfold explicit_numerator. revert a ys.
  induction bs as [|b bs IH]; intros a ys Hb Hy; [done|].
  destruct ys as [|yi ys]; [done|]. cbn [zip zip_with foldl fst snd].
  apply Forall_cons in Hb as [Hb Hbs]. apply Forall_cons in Hy as [Hyi Hys].
  assert (Hl : length (zip_with f_sub a (zip_with f_mul b yi)) = length a)
    by (rewrite !length_zip_with; lia).
  rewrite <- Hl in Hbs, Hys. rewrite (IH _ _ Hbs Hys). done.
Qed.

(** The loop, from any index on: it stops with IndexError at the first row
    of [coeff_b] that [y] has no row for, and has by then subtracted every
    earlier row from the array [fx] refers to. *)
Lemma rearrange_loop_spec (i : nat) (rows y : list (list F)) (a : list F)
  (fx : loc) (h : store F) :
  h !! fx = Some a →
  Forall (λ b, length b = length a) rows → Forall (λ yi, length yi = length a) y →
  rearrange_loop i rows y fx h
  = (if decide (length rows ≤ length y - i) then Ok tt
     else Raise (IndexError "index out of bounds"),
     <[fx := explicit_numerator a rows (drop i y)]> h).
Proof.
  unfold store, loc in *. revert i a h.
  induction rows as [|b rows IH]; intros i a h Hfx Hb Hy.
  - cbn [rearrange_loop length]. rewrite decide_True by lia.
    unfold explicit_numerator. cbn [zip zip_with foldl]. by rewrite insert_id.
  - apply Forall_cons in Hb as [Hb Hbs]. cbn [rearrange_loop length].
    destruct (y !! i) as [yi|] eqn:Hyi.
    + pose proof (lookup_lt_Some _ _ _ Hyi) as Hlt.
      assert (Hlen : length yi = length a).
      { exact (Forall_lookup_1 _ _ _ _ Hy Hyi). }
      rewrite (getitem_nat _ _ _ Hyi). cbn [mbind result_bind].
      unfold elementwise, broadcast_len. rewrite Hb, Hlen, Nat.eqb_refl.
      rewrite broadcast_with_same by lia.
      unfold isub. unfold store, loc in *. rewrite Hfx. unfold inplace.
      rewrite length_zip_with, Hb, Hlen, Nat.min_id, Nat.eqb_refl. cbn [orb].
      rewrite broadcast_with_same by (rewrite length_zip_with; lia).
      set (a' := zip_with f_sub a (zip_with f_mul b yi)).
      assert (Hl : length a' = length a) by (subst a'; rewrite !length_zip_with; lia).
      rewrite (IH (S i) a' (<[fx := a']> h)).
      * rewrite insert_insert_eq. rewrite (drop_S _ _ _ Hyi).
        f_equal. repeat case_decide; try done; lia.
      * by rewrite lookup_insert_eq.
      * by rewrite Hl.
      * by rewrite Hl.
    + apply lookup_ge_None in Hyi. rewrite (getitem_nat_out _ _ Hyi).
      cbn [mbind result_bind]. rewrite decide_False by lia.
      rewrite drop_ge by done. unfold explicit_numerator.
      cbn [zip zip_with foldl]. by rewrite insert_id.
Qed.

(** X24.  For a [coeff_b] of K + 1 rows and a state [y] of at least K rows,
    all as long as the array behind [fx], [_rearrange_to_explicit_ode]
    returns (fx - b_0 y_0 - ... - b_{K-1} y_{K-1}) / b_K, and the caller's
    array [fx] holds the numerator afterwards. *)
Theorem rearrange_to_explicit_ode_general (y bs : list (list F)) (bK a : list F)
  (fx : loc) (h : store F) :
  h !! fx = Some a →
  Forall (λ b, length b = length a) bs → length bK = length a →
  Forall (λ yi, length yi = length a) y → length bs ≤ length y →
  _rearrange_to_explicit_ode y (bs ++ [bK]) fx h
  = (Ok (zip_with f_div (explicit_numerator a bs y) bK),
     <[fx := explicit_numerator a bs y]> h).
Proof.
  unfold store, loc in *.
  intros Hfx Hbs HbK Hy Hlen. unfold _rearrange_to_explicit_ode.
  rewrite slice_all_but_last, (rearrange_loop_spec 0 bs y a fx h Hfx Hbs Hy).
  rewrite decide_True by lia. rewrite drop_0. unfold store, loc in *.
  rewrite lookup_insert_eq, getitem_last. cbn [mbind result_bind].
  unfold elementwise, broadcast_len.
  rewrite explicit_numerator_length, HbK, Nat.eqb_refl by done.
  rewrite broadcast_with_same by (rewrite explicit_numerator_length by done; lia). done.
Qed.

(** X25.  When the state [y] has fewer rows than [coeff_b] has before its
    last, the call raises IndexError, and the caller's array [fx] has already
    been overwritten: the rows that [y] does have were subtracted from it. *)
Theorem rearrange_to_explicit_ode_short_state (y bs : list (list F)) (bK a : list F)
  (fx : loc) (h : store F) :
  h !! fx = Some a →
  Forall (λ b, length b = length a) bs → Forall (λ yi, length yi = length a) y →
  length y < length bs →
  _rearrange_to_explicit_ode y (bs ++ [bK]) fx h
  = (Raise (IndexError "index out of bounds"),
     <[fx := explicit_numerator a (take (length y) bs) y]> h).
Proof.
  intros Hfx Hbs Hy Hlen. unfold _rearrange_to_explicit_ode.
  rewrite slice_all_but_last, (rearrange_loop_spec 0 bs y a fx h Hfx Hbs Hy).
  rewrite decide_False by lia. rewrite drop_0. f_equal. f_equal.
  unfold explicit_numerator. f_equal.
  clear. revert y. induction bs as [|b bs IH]; intros [|yi y]; cbn; try done.
  by rewrite IH.
Qed.

End MoreRearrange.

Lemma explicit_numerator_entry (a : list R) (bs ys : list (list R)) (n : nat) :
  Forall (λ b, length b = length a) bs → Forall (λ yi, length yi = length a) ys →
  n < length a →
  explicit_numerator a bs ys !! n
  = Some (elem a n - sum ((λ p : list R * list R, elem p.1 n * elem p.2 n) <$> zip bs ys))%R.
Proof.
  unfold explicit_numerator. revert a ys.
  induction bs as [|b bs IH]; intros a ys Hb Hy Hn.
  - cbn [zip zip_with foldl fmap list_fmap]. rewrite sum_R_foldl. cbn [foldl].
    destruct (lookup_lt_is_Some_2 a n Hn) as [an Han]. unfold elem. rewrite Han.
    cbn. f_equal. lra.
  - destruct ys as [|yi ys].
    + cbn [zip zip_with foldl fmap list_fmap]. rewrite sum_R_foldl. cbn [foldl].
      destruct (lookup_lt_is_Some_2 a n Hn) as [an Han]. unfold elem. rewrite Han.
      cbn. f_equal. lra.
    + apply Forall_cons in Hb as [Hb Hbs]. apply Forall_cons in Hy as [Hyi Hys].
      cbn [zip zip_with foldl fst snd].
      set (a' := zip_with f_sub a (zip_with f_mul b yi)).
      assert (Hl : length a' = length a) by (subst a'; rewrite !length_zip_with; lia).
      rewrite <- Hl in Hbs, Hys.
      change (foldl _ a' (zip_with pair bs ys)) with (foldl
        (λ (acc : list R) (p : list R * list R), zip_with f_sub acc (zip_with f_mul p.1 p.2))
        a' (zip bs ys)).
      rewrite (IH a' ys Hbs Hys) by lia. f_equal.
      rewrite fmap_cons, sum_R_cons. cbn [fst snd].
      subst a'. unfold elem at 1. rewrite !lookup_zip_with.
      destruct (lookup_lt_is_Some_2 a n Hn) as [an Han].
      destruct (lookup_lt_is_Some_2 b n ltac:(lia)) as [bn Hbn].
      destruct (lookup_lt_is_Some_2 yi n ltac:(lia)) as [yn Hyn].
      unfold elem. rewrite Han, Hbn, Hyn. cbn. lra.
Qed.

(** X26.  Over exact arithmetic the returned array is the formula of the
    docstring: at each mesh point n where the leading coefficient is not
    zero, (f(x_n) - sum over k < K of b_k(x_n) y_k(x_n)) / b_K(x_n). *)
Theorem rearrange_to_explicit_ode_formula (y bs : list (list R)) (bK a : list R)
  (fx : loc) (h : store R) (n : nat) :
  h !! fx = Some a →
  Forall (λ b, length b = length a) bs → length bK = length a →
  Forall (λ yi, length yi = length a) y → length bs ≤ length y →
  n < length a → elem bK n ≠ 0%R →
  ∃ r, (_rearrange_to_explicit_ode y (bs ++ [bK]) fx h).1 = Ok r
       ∧ length r = length a
       ∧ r !! n
         = Some ((elem a n - sum ((λ p : list R * list R, elem p.1 n * elem p.2 n)
                                     <$> zip bs y)) / elem bK n)%R.
Proof.
  intros Hfx Hbs HbK Hy Hlen Hn _.
  eexists. split; [|split].
  - unfold _rearrange_to_explicit_ode.
    rewrite slice_all_but_last, (rearrange_loop_spec 0 bs y a fx h Hfx Hbs Hy).
    rewrite decide_True by lia. rewrite drop_0. cbn [fst]. unfold store, loc in *.
    rewrite lookup_insert_eq, getitem_last. cbn [mbind result_bind].
    unfold elementwise, broadcast_len.
    rewrite explicit_numerator_length, HbK, Nat.eqb_refl by done.
    rewrite broadcast_with_same by (rewrite explicit_numerator_length by done; lia).
    reflexivity.
  - rewrite length_zip_with, explicit_numerator_length by done. lia.
  - rewrite lookup_zip_with, explicit_numerator_entry by done.
    destruct (lookup_lt_is_Some_2 bK n ltac:(lia)) as [bn Hbn].
    rewrite Hbn. replace (elem bK n) with bn by (unfold elem; by rewrite Hbn). done.
Qed.

Lemma rearrange_to_explicit_ode_general_witness :
  _rearrange_to_explicit_ode [[3%float]; [7%float]] ([[2%float]] ++ [[1%float]]) 0
    {[ 0 := [1%float] ]}
  = (Ok (zip_with PrimFloat.div (explicit_numerator [1%float] [[2%float]] [[3%float]; [7%float]])
           [1%float]),
     <[0 := explicit_numerator [1%float] [[2%float]] [[3%float]; [7%float]]]>
       ({[ 0 := [1%float] ]} : store float)).
Proof.
  refine (rearrange_to_explicit_ode_general [[3%float]; [7%float]] [[2%float]] [1%float]
            [1%float] 0 {[ 0 := [1%float] ]} _ _ _ _ _).
  - reflexivity.
  - repeat constructor.
  - reflexivity.
  - repeat constructor.
  - simpl. lia.
Defined.

Lemma rearrange_to_explicit_ode_short_state_witness :
  _rearrange_to_explicit_ode [[3%float]] ([[2%float]; [4%float]] ++ [[1%float]]) 0
    {[ 0 := [1%float] ]}
  = (Raise (IndexError "index out of bounds"),
     <[0 := explicit_numerator [1%float] (take 1 [[2%float]; [4%float]]) [[3%float]]]>
       ({[ 0 := [1%float] ]} : store float)).
Proof.
  refine (rearrange_to_explicit_ode_short_state [[3%float]] [[2%float]; [4%float]] [1%float]
            [1%float] 0 {[ 0 := [1%float] ]} _ _ _ _).
  - reflexivity.
  - repeat constructor.
  - repeat constructor.
  - simpl. lia.
Defined.

Lemma rearrange_to_explicit_ode_formula_witness :
  ∃ r, (_rearrange_to_explicit_ode [[3%R]] ([[2%R]] ++ [[4%R]]) 0 {[ 0 := [1%R] ]}).1 = Ok r
       ∧ length r = 1
       ∧ r !! 0 = Some ((1 - sum [2 * 3]) / 4)%R.
Proof.
  refine (rearrange_to_explicit_ode_formula [[3%R]] [[2%R]] [4%R] [1%R] 0
            {[ 0 := [1%R] ]} 0 _ _ _ _ _ _ _).
  - reflexivity.
  - repeat constructor.
  - reflexivity.
  - repeat constructor.
  - simpl. lia.
  - simpl. lia.
  - unfold elem. simpl. lra.
Defined.

(** ** ode.py: the coefficients in the new variable *)

Section MoreTransform.
Context {F : Type} `{Real64 F} {power : Power F}.

Lemma inplace_same (op : F → F → F) (row v : list F) :
  length v = length row → inplace op row v = Ok (zip_with op row v).
Proof.
  intros Hl. unfold inplace. rewrite Hl, Nat.eqb_refl. cbn [orb].
  by rewrite broadcast_with_same.
Qed.

Lemma elementwise_same (op : F → F → F) (xs ys : list F) :
  length xs = length ys → elementwise op xs ys = Ok (zip_with op xs ys).
Proof.
  intros Hl. unfold elementwise, broadcast_len. rewrite Hl, Nat.eqb_refl.
  by rewrite broadcast_with_same.
Qed.

(** The statements of [_transform_ode_from_derivs] after the names are read,
    for a third-order equation on any mesh: row by row, in the order the
    in-place additions are made. *)
Lemma transformed_coeffs_rows (coeff_a : list (coefficient F))
  (A0 A1 A2 A3 D1 D2 D3 r : list F) :
  _construct_coeff_array r coeff_a = Ok [A0; A1; A2; A3] →
  length D1 = length r → length D2 = length r → length D3 = length r →
  let zeros := replicate (length r) f_zero in
  transformed_coeffs coeff_a [D1; D2; D3] r
  = Ok [ zip_with f_add zeros A0;
         zip_with f_add
           (zip_with f_add (zip_with f_add zeros (zip_with f_mul A1 D1))
              (zip_with f_mul A2 D2))
           (zip_with f_mul A3 D3);
         zip_with f_add
           (zip_with f_add zeros (zip_with f_mul A2 (f_square <$> D1)))
           (zip_with f_mul (zip_with f_mul ((λ a, f_mul a (f_of_Z 3)) <$> A3) D1) D2);
         zip_with f_add zeros (zip_with f_mul A3 ((λ g, f_power g 3) <$> D1)) ].
Proof.
  intros Hc HD1 HD2 HD3 zeros.
  destruct (construct_coeff_array_rows _ _ _ Hc) as [Hlen Hrows].
  apply Forall_cons in Hrows as [HA0 Hrows]. apply Forall_cons in Hrows as [HA1 Hrows].
  apply Forall_cons in Hrows as [HA2 Hrows]. apply Forall_cons in Hrows as [HA3 _].
  assert (Hz : length zeros = length r) by (subst zeros; by rewrite length_replicate).
  unfold transformed_coeffs. rewrite Hc, <- Hlen. cbn [length mbind result_bind].
  change (replicate 4 (replicate (length r) f_zero)) with [zeros; zeros; zeros; zeros].
  change (getitem [A0; A1; A2; A3] 0) with (Ok A0).
  change (getitem [A0; A1; A2; A3] 1) with (Ok A1).
  change (getitem [A0; A1; A2; A3] 2) with (Ok A2).
  change (getitem [A0; A1; A2; A3] 3) with (Ok A3).
  change (getitem [D1; D2; D3] 0) with (Ok D1).
  change (getitem [D1; D2; D3] 1) with (Ok D2).
  change (getitem [D1; D2; D3] 2) with (Ok D3).
  cbn [mbind result_bind Nat.ltb Nat.leb].
  unfold iadd_row.
  repeat first
    [ progress (change (Z.to_nat 0) with 0; change (Z.to_nat 1) with 1;
                change (Z.to_nat 2) with 2; change (Z.to_nat 3) with 3)
    | progress cbn [mbind result_bind insert list_insert]
    | match goal with
      | |- context [getitem [?a; ?b; ?c; ?d] 0] =>
          change (getitem [a; b; c; d] 0) with (Ok a)
      | |- context [getitem [?a; ?b; ?c; ?d] 1] =>
          change (getitem [a; b; c; d] 1) with (Ok b)
      | |- context [getitem [?a; ?b; ?c; ?d] 2] =>
          change (getitem [a; b; c; d] 2) with (Ok c)
      | |- context [getitem [?a; ?b; ?c; ?d] 3] =>
          change (getitem [a; b; c; d] 3) with (Ok d)
      end
    | rewrite elementwise_same
        by (rewrite ?length_zip_with, ?length_fmap; lia)
    | rewrite inplace_same
        by (rewrite ?length_zip_with, ?length_fmap; lia) ].
  done.
Qed.

End MoreTransform.

(** X27.  Over exact arithmetic, and on any mesh, the statements of
    [_transform_ode_from_derivs] after the names are read turn the
    coefficients a_0..a_3 and the derivatives g', g'', g''' of the
    transformation into the chain-rule coefficients, point by point:
    b_0 = a_0, b_1 = a_1 g' + a_2 g'' + a_3 g''',
    b_2 = a_2 g'^2 + 3 a_3 g' g'', b_3 = a_3 g'^3. *)
Theorem transformed_coeffs_pointwise (coeff_a : list (coefficient R))
  (A0 A1 A2 A3 D1 D2 D3 r : list R) (n : nat) :
  _construct_coeff_array r coeff_a = Ok [A0; A1; A2; A3] →
  length D1 = length r → length D2 = length r → length D3 = length r →
  n < length r →
  ∃ B0 B1 B2 B3 : list R,
    transformed_coeffs coeff_a [D1; D2; D3] r = Ok [B0; B1; B2; B3]
    ∧ length B0 = length r ∧ length B1 = length r
    ∧ length B2 = length r ∧ length B3 = length r
    ∧ B0 !! n = Some (elem A0 n)
    ∧ B1 !! n = Some (elem A1 n * elem D1 n + elem A2 n * elem D2 n
                      + elem A3 n * elem D3 n)%R
    ∧ B2 !! n = Some (elem A2 n * (elem D1 n * elem D1 n)
                      + 3 * elem A3 n * elem D1 n * elem D2 n)%R
    ∧ B3 !! n = Some (elem A3 n * (elem D1 n * elem D1 n * elem D1 n))%R.
Proof.
  intros Hc HD1 HD2 HD3 Hn.
  destruct (construct_coeff_array_rows _ _ _ Hc) as [Hlen Hrows].
  apply Forall_cons in Hrows as [HA0 Hrows]. apply Forall_cons in Hrows as [HA1 Hrows].
  apply Forall_cons in Hrows as [HA2 Hrows]. apply Forall_cons in Hrows as [HA3 _].
  do 4 eexists. split; [exact (transformed_coeffs_rows _ _ _ _ _ _ _ _ _ Hc HD1 HD2 HD3)|].
  repeat (split; [rewrite ?length_zip_with, ?length_fmap, ?length_replicate; lia|]).
  destruct (lookup_lt_is_Some_2 A0 n ltac:(lia)) as [a0 Ha0].
  destruct (lookup_lt_is_Some_2 A1 n ltac:(lia)) as [a1 Ha1].
  destruct (lookup_lt_is_Some_2 A2 n ltac:(lia)) as [a2 Ha2].
  destruct (lookup_lt_is_Some_2 A3 n ltac:(lia)) as [a3 Ha3].
  destruct (lookup_lt_is_Some_2 D1 n ltac:(lia)) as [g1 Hg1].
  destruct (lookup_lt_is_Some_2 D2 n ltac:(lia)) as [g2 Hg2].
  destruct (lookup_lt_is_Some_2 D3 n ltac:(lia)) as [g3 Hg3].
  unfold elem. rewrite !lookup_zip_with, !list_lookup_fmap, lookup_replicate_2 by done.
  rewrite Ha0, Ha1, Ha2, Ha3, Hg1, Hg2, Hg3.
  cbn. change (Pos.to_nat 3) with 3. repeat split; f_equal; ring.
Qed.

Lemma transformed_coeffs_pointwise_witness :
  ∃ B0 B1 B2 B3 : list R,
    transformed_coeffs [Number 1%R; Callable (λ x, x); Number 2%R; Callable (λ x, [5%R])]
      [[1; 1]; [0; 0]; [0; 0]]%R [7; 8]%R = Ok [B0; B1; B2; B3]
    ∧ length B0 = 2 ∧ length B1 = 2 ∧ length B2 = 2 ∧ length B3 = 2
    ∧ B0 !! 1 = Some (elem [0 + 1; 0 + 1]%R 1)
    ∧ B1 !! 1 = Some (elem [0 + 7; 0 + 8] 1 * elem [1; 1] 1
                      + elem [0 + 2; 0 + 2] 1 * elem [0; 0] 1
                      + elem [0 + 5; 0 + 5] 1 * elem [0; 0] 1)%R
    ∧ B2 !! 1 = Some (elem [0 + 2; 0 + 2] 1 * (elem [1; 1] 1 * elem [1; 1] 1)
                      + 3 * elem [0 + 5; 0 + 5] 1 * elem [1; 1] 1 * elem [0; 0] 1)%R
    ∧ B3 !! 1 = Some (elem [0 + 5; 0 + 5] 1
                      * (elem [1; 1] 1 * elem [1; 1] 1 * elem [1; 1] 1))%R.
Proof.
  refine (transformed_coeffs_pointwise
            [Number 1%R; Callable (λ x, x); Number 2%R; Callable (λ x, [5%R])]
            [0 + 1; 0 + 1]%R [0 + 7; 0 + 8]%R [0 + 2; 0 + 2]%R [0 + 5; 0 + 5]%R
            [1; 1]%R [0; 0]%R [0; 0]%R [7; 8]%R 1 _ _ _ _ _);
    [reflexivity|reflexivity|reflexivity|reflexivity|simpl; lia].
Defined.
